(** * tts-client-wrapper: a shallow embedding of src/modules/tts-client-wrapper.ts

    The module wraps two text-to-speech backends behind one client
    interface ([setMetadata], [toStream]).  This development embeds

    - the prosody helper [createProsodyOptions] on IEEE-754 doubles,
    - the event adapter class [SimpleStreamAdapter] and the ad-hoc adapter
      object built by [UniversalTTSClient.toStream],
    - the two clients [DeepgramTTSClient] and [UniversalTTSClient],
    - the selector functions [createTTSClient] and [getVoiceForSettings],

    and proves the properties stated about them.

    Conventions.  A JavaScript string is the list of its UTF-16 code units.
    A JavaScript number is a [spec_float] at binary64 precision.  Calls that
    leave the module (listener invocations, console output, [fetch], reads
    of a response body, provider construction, generator pulls) are appended
    to an effect trace; what the outside world answers (the response, the
    chunks a provider yields, whether a listener throws) is part of the
    input.  An [async] function is split at its [await]s: one [Tick] of a
    session resumes the suspended function with the settled promise and runs
    it to its next [await]. *)

From Stdlib Require Import ZArith NArith List Bool Lia.
From Stdlib Require Import Strings.String Strings.Ascii Strings.Byte.
From Stdlib Require Import DecimalString.
From Corelib Require Import SpecFloat.
From stdpp Require Import base decidable countable gmap list.

Import ListNotations.
Local Open Scope list_scope.

(* ===================================================================== *)
(** ** JavaScript strings *)
(* ===================================================================== *)

Module JsString.

(** A string is a sequence of UTF-16 code units. *)
Definition t : Type := list N.

(** An ASCII literal of the source, one code unit per character. *)
Definition lit (s : string) : t :=
  List.map N_of_ascii (list_ascii_of_string s).

Definition eqb (a b : t) : bool := bool_decide (a = b).

(** ECMAScript WhiteSpace and LineTerminator code points, the characters
    [String.prototype.trim] removes.  All of them are in the basic plane,
    hence single code units. *)
Definition is_white_space (c : N) : bool :=
  (* TAB, LF, VT, FF, CR *)
  ((9 <=? c) && (c <=? 13)
   (* SP, NBSP *)
   || (c =? 32) || (c =? 160)
   (* OGHAM SPACE MARK *)
   || (c =? 5760)
   (* EN QUAD .. HAIR SPACE *)
   || ((8192 <=? c) && (c <=? 8202))
   (* LINE SEPARATOR, PARAGRAPH SEPARATOR *)
   || (c =? 8232) || (c =? 8233)
   (* NARROW NO-BREAK SPACE, MEDIUM MATHEMATICAL SPACE *)
   || (c =? 8239) || (c =? 8287)
   (* IDEOGRAPHIC SPACE, ZERO WIDTH NO-BREAK SPACE (BOM) *)
   || (c =? 12288) || (c =? 65279))%N.

Fixpoint trimStart (s : t) : t :=
  match s with
  | c :: r => if is_white_space c then trimStart r else s
  | [] => []
  end.

Definition trimEnd (s : t) : t := rev (trimStart (rev s)).

(** [s.trim()] *)
Definition trim (s : t) : t := trimEnd (trimStart s).

(** ToBoolean on a string: only the empty string is falsy. *)
Definition truthy (s : t) : bool :=
  match s with [] => false | _ :: _ => true end.

(** [a || b] where [a] is a string or [undefined] and [b] a string. *)
Definition or_else (a : option t) (b : t) : t :=
  match a with
  | Some s => if truthy s then s else b
  | None => b
  end.

(** A string made of white space only (the empty string included). *)
Definition blank (s : t) : bool := forallb is_white_space s.

(** Decimal digits of a natural number, as [Number::toString] prints an
    integer below 2^53. *)
Definition of_N (n : N) : t :=
  lit (NilZero.string_of_uint (N.to_uint n)).

Definition of_Z (z : Z) : t :=
  lit (NilZero.string_of_int (Z.to_int z)).

End JsString.

Abbreviation jsstring := JsString.t.
Abbreviation lit := JsString.lit.
Arguments JsString.lit s%_string : simpl never.

(* ===================================================================== *)
(** ** JavaScript numbers: IEEE-754 binary64 *)
(* ===================================================================== *)

Module JsNumber.

Local Open Scope Z_scope.

Definition prec : Z := 53.
Definition emax : Z := 1024.

Definition t : Type := spec_float.

(** The double nearest to an integer (exact up to 2^53). *)
Definition of_Z (z : Z) : t := binary_normalize prec emax z 0 false.

Definition sub : t -> t -> t := SFsub prec emax.
Definition mul : t -> t -> t := SFmul prec emax.
Definition div : t -> t -> t := SFdiv prec emax.

(** [x === y], [x < y] on numbers; both are false when a NaN is involved. *)
Definition eqb : t -> t -> bool := SFeqb.
Definition ltb : t -> t -> bool := SFltb.

(** ToBoolean on a number: zeros and NaN are falsy. *)
Definition truthy (x : t) : bool :=
  match x with
  | S754_zero _ | S754_nan => false
  | _ => true
  end.

(** The mathematical value of a double when it is an integer. *)
Definition to_integer (x : t) : option Z :=
  match x with
  | S754_zero _ => Some 0
  | S754_finite s m e =>
      if 0 <=? e then Some (cond_Zopp s (Zpos m * 2 ^ e))
      else if Zpos m mod 2 ^ (- e) =? 0
           then Some (cond_Zopp s (Zpos m / 2 ^ (- e)))
           else None
  | _ => None
  end.

(** [Math.round]: the integer nearest to [x], a tie going to +infinity;
    values in [-0.5, 0) give -0, non-finite values are returned as they
    are.  For [x = (-1)^s * m * 2^e] with [e < 0] the result is
    [floor (x + 1/2)], computed on integers. *)
Definition Math_round (x : t) : t :=
  match x with
  | S754_finite s m e =>
      if 0 <=? e then x
      else
        let k := - e in
        let r := (cond_Zopp s (2 * Zpos m) + 2 ^ k) / 2 ^ (k + 1) in
        if r =? 0 then S754_zero s else of_Z r
  | _ => x
  end.

(** [Number::toString] (radix 10).  An integer of magnitude at most 2^53
    prints as its decimal digits.  Every other finite value (a fraction,
    or a larger magnitude, where the shortest round-trip digits and the
    exponent notation come in) is printed by [other], the engine's
    algorithm, which this development does not interpret. *)
Definition toString (other : t -> jsstring) (x : t) : jsstring :=
  match x with
  | S754_nan => lit "NaN"
  | S754_infinity false => lit "Infinity"
  | S754_infinity true => lit "-Infinity"
  | S754_zero _ => lit "0"
  | S754_finite _ _ _ =>
      match to_integer x with
      | Some z => if Z.abs z <=? 2 ^ 53 then JsString.of_Z z else other x
      | None => other x
      end
  end.

End JsNumber.

Abbreviation number := JsNumber.t.

(* ===================================================================== *)
(** ** Values, the runtime, effects *)
(* ===================================================================== *)

(** The JavaScript values that reach this module as chunk payloads, stream
    reads, thrown values and listener arguments. *)
Inductive js_val : Type :=
| JUndefined
| JNull
| JBool (b : bool)
| JNumber (x : number)
| JString (s : jsstring)
| JUint8Array (bytes : list byte)   (* [instanceof Uint8Array] *)
| JArrayBuffer (bytes : list byte)  (* [instanceof ArrayBuffer] *)
| JBuffer (bytes : list byte)       (* accepted by a native [Buffer.isBuffer],
                                       not an instance of [Uint8Array] *)
| JError (message : jsstring)       (* [instanceof Error] *)
| JObject (id : nat)                (* any other object *)
| JFunction (id : nat).

(** ToBoolean *)
Definition truthy (v : js_val) : bool :=
  match v with
  | JUndefined | JNull => false
  | JBool b => b
  | JNumber x => JsNumber.truthy x
  | JString s => JsString.truthy s
  | _ => true
  end.

(** [typeof v === 'object'] *)
Definition typeof_object (v : js_val) : bool :=
  match v with
  | JNull | JUint8Array _ | JArrayBuffer _ | JBuffer _ | JError _ | JObject _ => true
  | _ => false
  end.

(** What the module finds in its environment when it is loaded. *)
Record runtime : Type := {
  (** [typeof Buffer !== 'undefined'] before the module runs: a native
      [Buffer] with [Buffer.isBuffer]. *)
  native_Buffer : bool;
  (** [typeof window !== 'undefined'] *)
  has_window : bool;
  (** [Number::toString] outside the range [JsNumber.toString] interprets. *)
  Number_toString_other : number -> jsstring
}.

Inductive console_level : Type := LogLevel | WarnLevel | ErrorLevel.

(** Options object handed to the provider's [Communicate] constructor. *)
Record communicate_options : Type := {
  opt_voice : option jsstring;
  opt_rate : option jsstring;
  opt_pitch : option jsstring;
  opt_volume : option jsstring
}.

(** The body [JSON.stringify(requestBody)] of the HTTP request, kept as the
    object it serialises. *)
Record request_body : Type := {
  body_text : jsstring;
  body_speed : option number
}.

(** The calls that leave the module, in the order they are made. *)
Inductive effect : Type :=
| Emit (event : jsstring) (args : list js_val)   (* [emit(event, ...args)] entered *)
| Invoke (listener : nat) (args : list js_val)   (* a registered callback is called *)
| Console (level : console_level) (message : jsstring) (args : list js_val)
| Fetch (url : jsstring) (authorization : jsstring) (body : request_body)
| Read                                           (* [reader.read()] *)
| Construct (text : jsstring) (options : communicate_options)
                                                 (* [new CommunicateClass(text, options)] *)
| Stream                                         (* [communicate.stream()] *)
| Pull.                                          (* [asyncGenerator.next()] *)

Definition trace : Type := list effect.

(** A listener: an identity, by which its invocations are recognised in the
    trace, and its behaviour, [Some e] when the call throws [e].  A listener
    is not taken to call back into the adapter it is registered on. *)
Record callback : Type := {
  cb_id : nat;
  cb_run : list js_val -> option js_val
}.

(* ===================================================================== *)
(** ** A state, exception and trace monad *)
(* ===================================================================== *)

Inductive completion (A : Type) : Type :=
| Normal (a : A)
| Throw (e : js_val).
Arguments Normal {A} a.
Arguments Throw {A} e.

(** A computation over a mutable object of type [S]: it completes normally
    or throws, and in both cases leaves a state and the effects it made. *)
Definition Eff (S A : Type) : Type := S -> completion A * S * trace.

Definition ret {S A} (a : A) : Eff S A := fun s => (Normal a, s, []).

Definition throw {S A} (e : js_val) : Eff S A := fun s => (Throw e, s, []).

Definition bind {S A B} (m : Eff S A) (f : A -> Eff S B) : Eff S B :=
  fun s =>
    match m s with
    | (Normal a, s1, t1) =>
        let '(r, s2, t2) := f a s1 in (r, s2, t1 ++ t2)
    | (Throw e, s1, t1) => (Throw e, s1, t1)
    end.

(** [try { m } catch (e) { h e }] *)
Definition try_catch {S A} (m : Eff S A) (h : js_val -> Eff S A) : Eff S A :=
  fun s =>
    match m s with
    | (Throw e, s1, t1) =>
        let '(r, s2, t2) := h e s1 in (r, s2, t1 ++ t2)
    | done => done
    end.

Definition tell {S} (e : effect) : Eff S unit := fun s => (Normal tt, s, [e]).
Definition get {S} : Eff S S := fun s => (Normal s, s, []).
Definition put {S} (s : S) : Eff S unit := fun _ => (Normal tt, s, []).
Definition modify {S} (f : S -> S) : Eff S unit := fun s => (Normal tt, f s, []).

Declare Scope eff_scope.
Delimit Scope eff_scope with eff.
Notation "x <- m ;; k" := (bind m (fun x => k))
  (at level 100, m at level 99, right associativity) : eff_scope.
Notation "m ;; k" := (bind m (fun _ => k))
  (at level 100, right associativity) : eff_scope.

(* ===================================================================== *)
(** ** Text encoding helpers of the platform *)
(* ===================================================================== *)

Module Encoding.

Local Open Scope N_scope.

Definition is_high_surrogate (c : N) : bool := (55296 <=? c) && (c <=? 56319).
Definition is_low_surrogate (c : N) : bool := (56320 <=? c) && (c <=? 57343).

(** The code points of a UTF-16 string; [None] marks a lone surrogate. *)
Fixpoint code_points (s : jsstring) : list (option N) :=
  match s with
  | [] => []
  | c :: r =>
      if is_high_surrogate c then
        match r with
        | d :: r' =>
            if is_low_surrogate d
            then Some (65536 + (c - 55296) * 1024 + (d - 56320)) :: code_points r'
            else None :: code_points r
        | [] => [None]
        end
      else if is_low_surrogate c then None :: code_points r
      else Some c :: code_points r
  end.

Definition to_byte (n : N) : byte :=
  match Byte.of_N (n mod 256) with Some b => b | None => x00 end.

Definition utf8_of_code_point (cp : N) : list byte :=
  if cp <? 128 then [to_byte cp]
  else if cp <? 2048 then
    [to_byte (192 + cp / 64); to_byte (128 + cp mod 64)]
  else if cp <? 65536 then
    [to_byte (224 + cp / 4096); to_byte (128 + (cp / 64) mod 64);
     to_byte (128 + cp mod 64)]
  else
    [to_byte (240 + cp / 262144); to_byte (128 + (cp / 4096) mod 64);
     to_byte (128 + (cp / 64) mod 64); to_byte (128 + cp mod 64)].

(** [new TextEncoder().encode(s)]: UTF-8, a lone surrogate becoming
    U+FFFD. *)
Definition TextEncoder_encode (s : jsstring) : list byte :=
  List.concat
    (List.map (fun cp => utf8_of_code_point (match cp with Some c => c | None => 65533 end))
              (code_points s)).

(** Characters [encodeURIComponent] leaves as they are:
    letters, digits and [- _ . ! ~ * ' ( )]. *)
Definition uri_unreserved (c : N) : bool :=
  ((65 <=? c) && (c <=? 90)) || ((97 <=? c) && (c <=? 122))
  || ((48 <=? c) && (c <=? 57))
  || (c =? 45) || (c =? 95) || (c =? 46) || (c =? 33) || (c =? 126)
  || (c =? 42) || (c =? 39) || (c =? 40) || (c =? 41).

Definition hex_digit (n : N) : N := if n <? 10 then 48 + n else 55 + n.

Definition percent_encode (b : byte) : jsstring :=
  let n := Byte.to_N b in [37; hex_digit (n / 16); hex_digit (n mod 16)].

(** [encodeURIComponent(s)]; [None] when it throws a URIError, which it
    does on a lone surrogate. *)
Fixpoint encode_code_points (cps : list (option N)) : option jsstring :=
  match cps with
  | [] => Some []
  | None :: _ => None
  | Some cp :: r =>
      match encode_code_points r with
      | None => None
      | Some tl =>
          Some ((if uri_unreserved cp then [cp]
                 else List.concat (List.map percent_encode (utf8_of_code_point cp)))
                ++ tl)
      end
  end.

Definition encodeURIComponent (s : jsstring) : option jsstring :=
  encode_code_points (code_points s).

(** ASCII lower-casing.  [String.prototype.toLowerCase] maps no character
    outside A-Z to one of the letters o, p, u, s, so this is what a test
    [.toLowerCase().includes('opus')] observes. *)
Definition ascii_lower (c : N) : N :=
  if (65 <=? c) && (c <=? 90) then c + 32 else c.

Fixpoint starts_with (prefix s : jsstring) : bool :=
  match prefix, s with
  | [], _ => true
  | p :: prefix', c :: s' => (p =? c) && starts_with prefix' s'
  | _ :: _, [] => false
  end.

(** [s.includes(needle)] *)
Fixpoint includes (needle s : jsstring) : bool :=
  starts_with needle s ||
  match s with
  | [] => false
  | _ :: s' => includes needle s'
  end.

(** [s.replace(/\/+$/, '')]: the string without its trailing slashes. *)
Fixpoint drop_slashes (s : jsstring) : jsstring :=
  match s with
  | c :: r => if c =? 47 then drop_slashes r else s
  | [] => []
  end.

Definition strip_trailing_slashes (s : jsstring) : jsstring :=
  rev (drop_slashes (rev s)).

End Encoding.

(* ===================================================================== *)
(** ** Module initialisation: the Buffer polyfill *)
(* ===================================================================== *)

(** [BufferPolyfill] is defined (and installed as the global [Buffer]) when
    there is no [Buffer] but there is a [window]. *)
Definition has_BufferPolyfill (rt : runtime) : bool :=
  negb (native_Buffer rt) && has_window rt.

(** [BufferPolyfill.from(data)] *)
Definition BufferPolyfill_from (data : js_val) : js_val :=
  match data with
  | JArrayBuffer bytes => JUint8Array bytes
  | JUint8Array bytes => JUint8Array bytes
  | JString s => JUint8Array (Encoding.TextEncoder_encode s)
  | _ => JUint8Array []
  end.

(** [target.set(source, offset)] on typed arrays: the source is copied
    over the target from [offset] on; [None] is the RangeError thrown when
    it does not fit. *)
Definition Uint8Array_set (target source : list byte) (offset : nat)
  : option (list byte) :=
  if (offset + length source <=? length target)%nat
  then Some (firstn offset target ++ source
             ++ skipn (offset + length source) target)
  else None.

(** [BufferPolyfill.concat(arrays)]: a zero-filled array of the total
    length, into which each array is copied at the running offset; [None]
    when a [set] throws. *)
Definition BufferPolyfill_concat (arrays : list (list byte)) : option js_val :=
  let totalLength := fold_left (fun sum arr => sum + length arr)%nat arrays 0%nat in
  let result := repeat x00 totalLength in
  match
    fold_left
      (fun st arr =>
         match st with
         | Some (result, offset) =>
             match Uint8Array_set result arr offset with
             | Some result' => Some (result', (offset + length arr)%nat)
             | None => None
             end
         | None => None
         end)
      arrays (Some (result, 0%nat))
  with
  | Some (result, _) => Some (JUint8Array result)
  | None => None
  end.

(** [typeof Buffer !== 'undefined' && Buffer.isBuffer && Buffer.isBuffer(v)]
    after initialisation: the polyfill has no [isBuffer]. *)
Definition Buffer_isBuffer (rt : runtime) (v : js_val) : bool :=
  native_Buffer rt && match v with JBuffer _ => true | _ => false end.

(** [typeof v] *)
Definition typeof (v : js_val) : jsstring :=
  match v with
  | JUndefined => lit "undefined"
  | JBool _ => lit "boolean"
  | JNumber _ => lit "number"
  | JString _ => lit "string"
  | JFunction _ => lit "function"
  | _ => lit "object"
  end.

(* ===================================================================== *)
(** ** createProsodyOptions *)
(* ===================================================================== *)

(** The object [createProsodyOptions] returns: [rate] is set or absent. *)
Record prosody : Type := { rate : option jsstring }.

Definition createProsodyOptions (rt : runtime) (rate : option number) : prosody :=
  match rate with
  | None => {| rate := None |}
  | Some rate =>
      let percentage :=
        JsNumber.Math_round
          (JsNumber.mul (JsNumber.sub rate (JsNumber.of_Z 1)) (JsNumber.of_Z 100)) in
      let shown := JsNumber.toString (Number_toString_other rt) percentage in
      if negb (JsNumber.eqb percentage (JsNumber.of_Z 0)) then
        {| rate := Some (if JsNumber.ltb (JsNumber.of_Z 0) percentage
                         then lit "+" ++ shown ++ lit "%"
                         else shown ++ lit "%") |}
      else {| rate := None |}
  end.

(** The [prosodyOptions] argument of [toStream], when it is an object: its
    [rate] property ([JUndefined] when missing). *)
Record prosody_argument : Type := { arg_rate : js_val }.

(* ===================================================================== *)
(** ** SimpleStreamAdapter *)
(* ===================================================================== *)

Definition call_listener {S} (cb : callback) (args : list js_val) : Eff S unit :=
  (tell (Invoke (cb_id cb) args) ;;
   match cb_run cb args with
   | Some e => throw e
   | None => ret tt
   end)%eff.

(** [callbacks.forEach((callback) => callback(...args))] *)
Fixpoint forEach_call {S} (callbacks : list callback) (args : list js_val) : Eff S unit :=
  match callbacks with
  | [] => ret tt
  | cb :: rest => (call_listener cb args ;; forEach_call rest args)%eff
  end.

(** The two statements that store a listener in a [Map] of arrays:
    [if (!m.has(event)) m.set(event, []); m.get(event).push(callback)]. *)
Definition add_listener (event : jsstring) (cb : callback)
    (m : gmap jsstring (list callback)) : gmap jsstring (list callback) :=
  let m1 := match m !! event with
            | Some _ => m
            | None => <[event := []]> m
            end in
  alter (fun l => l ++ [cb]) event m1.

(** [m.get(event) || []] *)
Definition listeners_of (event : jsstring)
    (m : gmap jsstring (list callback)) : list callback :=
  default [] (m !! event).

Module SimpleStreamAdapter.

Record t : Type := {
  listeners : gmap jsstring (list callback);
  hasEnded : bool
}.

Definition new : t := {| listeners := ∅; hasEnded := false |}.

Definition on (event : jsstring) (cb : callback) : Eff t unit :=
  (modify (fun a => {| listeners := add_listener event cb (listeners a);
                       hasEnded := hasEnded a |}) ;;
   a <- get ;;
   if JsString.eqb event (lit "end") && hasEnded a
   then call_listener cb []
   else ret tt)%eff.

Definition emit (event : jsstring) (args : list js_val) : Eff t unit :=
  (tell (Emit event args) ;;
   (if JsString.eqb event (lit "end")
    then modify (fun a => {| listeners := listeners a; hasEnded := true |})
    else ret tt) ;;
   a <- get ;;
   forEach_call (listeners_of event (listeners a)) args)%eff.

End SimpleStreamAdapter.

(* ===================================================================== *)
(** ** The network, as the HTTP client sees it *)
(* ===================================================================== *)

(** The body reader of a response: what the successive [reader.read()]
    promises settle to. *)
Inductive reader : Type :=
| ReadValue (value : js_val) (rest : reader)  (* [{ done: false, value }] *)
| ReadDone                                    (* [{ done: true }] *)
| ReadFails (e : js_val).                     (* the promise rejects *)

Record response : Type := {
  status : N;
  statusText : jsstring;
  (** [response.body?.getReader()], [None] when there is no body *)
  body : option reader
}.

(** [response.ok]: the status is in the range 200-299. *)
Definition response_ok (r : response) : bool :=
  ((200 <=? status r) && (status r <=? 299))%N.

Inductive fetch_outcome : Type :=
| FetchThrows (e : js_val)       (* the call itself throws *)
| FetchRejects (e : js_val)      (* the promise rejects *)
| FetchResolves (r : response).

(** [fetch(url, { method: 'POST', headers, body })] *)
Definition network : Type := jsstring -> jsstring -> request_body -> fetch_outcome.

(** Where the [async] function of [toStream] is suspended. *)
Inductive http_task : Type :=
| AwaitFetch (o : fetch_outcome)
| AwaitRead (rd : reader)
| HttpSettled.

(** A Stream Session of the HTTP client: the adapter handed to the caller
    and the background task that drives it. *)
Record http_session : Type := {
  adapter : SimpleStreamAdapter.t;
  http_task_of : http_task
}.

(** What a consumer and the event loop do to a session. *)
Inductive action : Type :=
| On (event : jsstring) (cb : callback)   (* the consumer calls [stream.on] *)
| Tick.                                   (* the pending promise settles *)

(** The result of a call the caller does not look at. *)
Definition discard {S A} (m : Eff S A) (s : S) : S * trace :=
  let '(_, s', t) := m s in (s', t).

(* ===================================================================== *)
(** ** DeepgramTTSClient *)
(* ===================================================================== *)

Module DeepgramTTSClient.

Inductive encoding : Type := Mp3 | Opus.

Definition encoding_name (f : encoding) : jsstring :=
  match f with Mp3 => lit "mp3" | Opus => lit "opus" end.

Record t : Type := {
  apiKey : jsstring;
  model : jsstring;
  format : encoding;
  baseUrl : jsstring
}.

Record options : Type := {
  opt_apiKey : option jsstring;
  opt_model : option jsstring;
  opt_baseUrl : option jsstring
}.

Definition constructor (o : options) : t :=
  {| apiKey := JsString.trim (JsString.or_else (opt_apiKey o) (lit ""));
     model := JsString.trim (JsString.or_else (opt_model o) (lit "aura-asteria-en"));
     format := Mp3;
     baseUrl := Encoding.strip_trailing_slashes
                  (JsString.or_else (opt_baseUrl o) (lit "https://api.deepgram.com")) |}.

(** [setMetadata(voice, format)]; an absent argument is [None]. *)
Definition setMetadata (voice format : option jsstring) (c : t) : t :=
  {| apiKey := apiKey c;
     model := match voice with
              | Some v => if JsString.truthy (JsString.trim v)
                          then JsString.trim v else model c
              | None => model c
              end;
     format := match format with
               | Some f =>
                   if JsString.truthy f &&
                      Encoding.includes (lit "opus") (List.map Encoding.ascii_lower f)
                   then Opus else Mp3
               | None => Mp3
               end;
     baseUrl := baseUrl c |}.

Definition missing_key_error : js_val :=
  JError (lit "Deepgram API key is not set. Add it in the plugin settings.").

Definition request_failed_error (r : response) : js_val :=
  JError (lit "Deepgram TTS request failed (" ++ JsString.of_N (status r)
          ++ lit ": " ++ statusText r ++ lit ")").

Definition not_readable_error : js_val :=
  JError (lit "Deepgram response stream is not readable.").

Definition uri_error : js_val := JError (lit "URI malformed").

(** The [speed] entry of the request body. *)
Definition speed_of (prosodyOptions : option prosody_argument) : option number :=
  match prosodyOptions with
  | Some p =>
      match arg_rate p with
      | JNumber r =>
          if JsNumber.ltb (JsNumber.of_Z 0) r && negb (JsNumber.eqb r (JsNumber.of_Z 1))
          then Some r else None
      | _ => None
      end
  | None => None
  end.

Definition on_adapter {A} (m : Eff SimpleStreamAdapter.t A) : Eff http_session A :=
  fun s =>
    let '(r, a, t) := m (adapter s) in
    (r, {| adapter := a; http_task_of := http_task_of s |}, t).

Definition suspend (k : http_task) : Eff http_session unit :=
  modify (fun s => {| adapter := adapter s; http_task_of := k |}).

(** The [catch] block of the background task. *)
Definition catch_block (error : js_val) : Eff http_session unit :=
  (tell (Console ErrorLevel (lit "Deepgram TTS streaming error:") [error]) ;;
   on_adapter (SimpleStreamAdapter.emit (lit "error") [error]) ;;
   on_adapter (SimpleStreamAdapter.emit (lit "end") []))%eff.

(** The [try] block from [await fetch(...)] on, once the promise has
    settled, up to the first [await reader.read()]. *)
Definition after_fetch (o : fetch_outcome) : Eff http_session unit :=
  match o with
  | FetchThrows e | FetchRejects e => throw e
  | FetchResolves r =>
      if negb (response_ok r) then throw (request_failed_error r)
      else match body r with
           | None => throw not_readable_error
           | Some rd => (tell Read ;; suspend (AwaitRead rd))%eff
           end
  end.

(** One turn of [while (true)], once [await reader.read()] has settled. *)
Definition after_read (rd : reader) : Eff http_session unit :=
  match rd with
  | ReadFails e => throw e
  | ReadDone => on_adapter (SimpleStreamAdapter.emit (lit "end") [])
  | ReadValue value rest =>
      ((if truthy value
        then on_adapter (SimpleStreamAdapter.emit (lit "data") [value])
        else ret tt) ;;
       tell Read ;;
       suspend (AwaitRead rest))%eff
  end.

(** The background task resumes: it runs to its next [await] or to its
    end.  A value thrown out of the [catch] block rejects the promise of
    the task, which nobody observes. *)
Definition resume : Eff http_session unit :=
  (s <- get ;;
   match http_task_of s with
   | HttpSettled => ret tt
   | AwaitFetch o =>
       suspend HttpSettled ;; try_catch (after_fetch o) catch_block
   | AwaitRead rd =>
       suspend HttpSettled ;; try_catch (after_read rd) catch_block
   end)%eff.

(** The task from its start to [await fetch(...)]. *)
Definition start (net : network) (url authorization : jsstring) (b : request_body)
  : Eff http_session unit :=
  try_catch
    (tell (Fetch url authorization b) ;;
     match net url authorization b with
     | FetchThrows e => throw e
     | o => suspend (AwaitFetch o)
     end)%eff
    catch_block.

(** [toStream(text, prosodyOptions)]: it throws, or returns the adapter
    with its background task started. *)
Definition toStream (net : network) (c : t) (text : jsstring)
    (prosodyOptions : option prosody_argument) : completion http_session * trace :=
  if negb (JsString.truthy (apiKey c)) then (Throw missing_key_error, [])
  else
    match Encoding.encodeURIComponent (model c) with
    | None => (Throw uri_error, [])
    | Some m =>
        let url := baseUrl c ++ lit "/v1/speak?model=" ++ m
                   ++ lit "&encoding=" ++ encoding_name (format c) in
        let requestBody := {| body_text := text; body_speed := speed_of prosodyOptions |} in
        let '(s, t) :=
          discard (start net url (lit "Token " ++ apiKey c) requestBody)
                  {| adapter := SimpleStreamAdapter.new; http_task_of := HttpSettled |} in
        (Normal s, t)
    end.

(** One action on a session. *)
Definition step (a : action) (s : http_session) : http_session * trace :=
  match a with
  | On event cb => discard (on_adapter (SimpleStreamAdapter.on event cb)) s
  | Tick => discard resume s
  end.

(** A session under a schedule of actions; the effects in order. *)
Fixpoint run (acts : list action) (s : http_session) : http_session * trace :=
  match acts with
  | [] => (s, [])
  | a :: rest =>
      let '(s1, t1) := step a s in
      let '(s2, t2) := run rest s1 in
      (s2, t1 ++ t2)
  end.

End DeepgramTTSClient.

(* ===================================================================== *)
(** ** The provider package, as the universal client sees it *)
(* ===================================================================== *)

(** A chunk yielded by [communicate.stream()]. *)
Record chunk : Type := {
  chunk_type : jsstring;
  chunk_data : js_val
}.

(** The asynchronous generator: what the successive [next()] promises settle
    to. *)
Inductive generator : Type :=
| Yield (c : chunk) (rest : generator)
| Return                                 (* the sequence is exhausted *)
| Raise (e : js_val).                    (* the promise rejects *)

Inductive stream_outcome : Type :=
| StreamThrows (e : js_val)
| StreamReturns (g : generator).

(** [new CommunicateClass(text, options)]: it throws, or gives an object
    whose [stream()] behaves as given.  The outcome is taken to depend on
    the arguments only. *)
Inductive construct_outcome : Type :=
| CtorThrows (e : js_val)
| CtorReturns (stream : stream_outcome).

Definition provider : Type := jsstring -> communicate_options -> construct_outcome.

(** The loaded [edge-tts-universal] entry point. *)
Record package : Type := {
  Communicate : option provider;
  IsomorphicCommunicate : option provider
}.

(** Where [consumeAsyncGenerator] is. *)
Inductive consumer : Type :=
| NotCalled
| AwaitNext            (* suspended on [asyncGenerator.next()] *)
| Completed.

(** A Stream Session of the universal client: the [streamAdapter] object
    literal with its two fields, the generator its methods close over, and
    the state of the consuming task. *)
Record gen_session : Type := {
  listeners : gmap jsstring (list callback);
  isConsuming : bool;
  asyncGenerator : generator;
  consuming : consumer
}.

(* ===================================================================== *)
(** ** UniversalTTSClient *)
(* ===================================================================== *)

Module UniversalTTSClient.

Record t : Type := {
  CommunicateClass : option provider;
  currentVoice : option jsstring;
  currentFormat : option jsstring
}.

(** [new UniversalTTSClient()], given the package the module loaded
    ([None] when every [require] failed). *)
Definition constructor (TTSPackage : option package) : completion t :=
  match TTSPackage with
  | None => Throw (JError (lit "edge-tts-universal package not available"))
  | Some pkg =>
      match (match Communicate pkg with
             | Some c => Some c
             | None => IsomorphicCommunicate pkg
             end) with
      | Some c => Normal {| CommunicateClass := Some c;
                            currentVoice := None; currentFormat := None |}
      | None =>
          Throw (JError (lit "No suitable Communicate class found in the loaded edge-tts-universal package. Expected Communicate or IsomorphicCommunicate."))
      end
  end.

Definition setMetadata (voice format : jsstring) (c : t) : t :=
  {| CommunicateClass := CommunicateClass c;
     currentVoice := Some voice;
     currentFormat := Some format |}.

(** *** The [streamAdapter] object *)

Definition set_listeners (m : gmap jsstring (list callback)) (s : gen_session) :=
  {| listeners := m; isConsuming := isConsuming s;
     asyncGenerator := asyncGenerator s; consuming := consuming s |}.

Definition set_isConsuming (b : bool) (s : gen_session) :=
  {| listeners := listeners s; isConsuming := b;
     asyncGenerator := asyncGenerator s; consuming := consuming s |}.

Definition set_asyncGenerator (g : generator) (s : gen_session) :=
  {| listeners := listeners s; isConsuming := isConsuming s;
     asyncGenerator := g; consuming := consuming s |}.

Definition set_consuming (k : consumer) (s : gen_session) :=
  {| listeners := listeners s; isConsuming := isConsuming s;
     asyncGenerator := asyncGenerator s; consuming := k |}.

Definition emit (event : jsstring) (args : list js_val) : Eff gen_session unit :=
  (tell (Emit event args) ;;
   s <- get ;;
   forEach_call (listeners_of event (listeners s)) args)%eff.

(** [asyncGenerator.next()] is called and the task waits for it. *)
Definition pull : Eff gen_session unit :=
  (tell Pull ;; modify (set_consuming AwaitNext))%eff.

(** [consumeAsyncGenerator()] from its start to the first [await]. *)
Definition consumeAsyncGenerator : Eff gen_session unit :=
  (modify (set_isConsuming true) ;; pull)%eff.

Definition on (event : jsstring) (cb : callback) : Eff gen_session unit :=
  (modify (fun s => set_listeners (add_listener event cb (listeners s)) s) ;;
   s <- get ;;
   if JsString.eqb event (lit "data") && negb (isConsuming s)
   then consumeAsyncGenerator
   else ret tt)%eff.

(** The chain of [if]s that turns [chunk.data] into a [Uint8Array]. *)
Definition audioData_of {S} (rt : runtime) (data : js_val) : Eff S js_val :=
  match data with
  | JUint8Array bytes => ret (JUint8Array bytes)
  | JArrayBuffer bytes => ret (JUint8Array bytes)
  | _ =>
      if Buffer_isBuffer rt data then
        ret (JUint8Array (match data with JBuffer bytes => bytes | _ => [] end))
      else if has_BufferPolyfill rt && typeof_object data then
        ret (BufferPolyfill_from data)
      else
        (tell (Console WarnLevel (lit "Unexpected audio data type:")
                       [JString (typeof data); data]) ;;
         ret (JUint8Array []))%eff
  end.

(** Whether the chain converts the payload in one of its first four
    branches; otherwise it reaches the last [else], which warns. *)
Definition converts (rt : runtime) (data : js_val) : bool :=
  match data with
  | JUint8Array _ | JArrayBuffer _ => true
  | _ => Buffer_isBuffer rt data || (has_BufferPolyfill rt && typeof_object data)
  end.

(** The guard of the loop body: [chunk.type === 'audio' && chunk.data]. *)
Definition audio_bearing (c : chunk) : bool :=
  JsString.eqb (chunk_type c) (lit "audio") && truthy (chunk_data c).

(** The body of [for await (const chunk of asyncGenerator)]. *)
Definition loop_body (rt : runtime) (c : chunk) : Eff gen_session unit :=
  if audio_bearing c
  then (audioData <- audioData_of rt (chunk_data c) ;;
        emit (lit "data") [audioData])%eff
  else ret tt.

(** The [try] block once the pending [next()] has settled.  When the loop
    body throws, the loop is left for the [catch] block and nothing more is
    pulled. *)
Definition after_next (rt : runtime) (g : generator) : Eff gen_session unit :=
  match g with
  | Raise e => throw e
  | Return => emit (lit "end") []
  | Yield c rest =>
      (modify (set_asyncGenerator rest) ;;
       loop_body rt c ;;
       pull)%eff
  end.

Definition catch_block (error : js_val) : Eff gen_session unit :=
  (tell (Console ErrorLevel (lit "TTS stream: error consuming generator:") [error]) ;;
   emit (lit "error") [error])%eff.

(** The consuming task resumes and runs to its next [await] or its end. *)
Definition resume (rt : runtime) : Eff gen_session unit :=
  (s <- get ;;
   match consuming s with
   | AwaitNext =>
       modify (set_consuming Completed) ;;
       try_catch (after_next rt (asyncGenerator s)) catch_block
   | NotCalled | Completed => ret tt
   end)%eff.

(** *** [toStream] *)

Definition construct (P : provider) (text : jsstring) (o : communicate_options)
  : Eff unit stream_outcome :=
  (tell (Construct text o) ;;
   match P text o with
   | CtorThrows e => throw e
   | CtorReturns c => ret c
   end)%eff.

Definition stream (c : stream_outcome) : Eff unit generator :=
  (tell Stream ;;
   match c with
   | StreamThrows e => throw e
   | StreamReturns g => ret g
   end)%eff.

(** [finalProsodyOptions.rate] *)
Definition final_rate (rt : runtime) (prosodyOptions : option prosody_argument)
  : option jsstring :=
  match prosodyOptions with
  | Some p =>
      match arg_rate p with
      | JNumber r => rate (createProsodyOptions rt (Some r))
      | _ => None
      end
  | None => None
  end.

(** [communicateOptions]: the voice, and the rate when it is a non-empty
    string; [pitch] and [volume] are never set on [finalProsodyOptions]. *)
Definition communicateOptions (rt : runtime) (c : t)
    (prosodyOptions : option prosody_argument) : communicate_options :=
  {| opt_voice := currentVoice c;
     opt_rate := match final_rate rt prosodyOptions with
                 | Some r => if JsString.truthy r then Some r else None
                 | None => None
                 end;
     opt_pitch := None;
     opt_volume := None |}.

Definition minimalOptions (c : t) : communicate_options :=
  {| opt_voice := currentVoice c; opt_rate := None;
     opt_pitch := None; opt_volume := None |}.

Definition new_session (g : generator) : gen_session :=
  {| listeners := ∅; isConsuming := false;
     asyncGenerator := g; consuming := NotCalled |}.

Definition creation_error (error : js_val) : js_val :=
  JError (lit "Failed to create TTS stream: "
          ++ match error with
             | JError message => message
             | _ => lit "Unknown error"
             end).

Definition toStream (rt : runtime) (c : t) (text : jsstring)
    (prosodyOptions : option prosody_argument) : completion gen_session * trace :=
  match CommunicateClass c with
  | None => (Throw (JError (lit "TTS client not initialized")), [])
  | Some P =>
      let '(r, _, t) :=
        try_catch
          (communicate <-
             try_catch
               (construct P text (communicateOptions rt c prosodyOptions))
               (fun error =>
                  tell (Console WarnLevel
                          (lit "Failed to create Communicate with prosody options, trying with voice only:")
                          [error]) ;;
                  construct P text (minimalOptions c)) ;;
           g <- stream communicate ;;
           ret (new_session g))%eff
          (fun error =>
             tell (Console ErrorLevel (lit "Error creating TTS stream:") [error]) ;;
             throw (creation_error error))%eff
          tt in
      (r, t)
  end.

(** One action on a session, and a schedule of them. *)
Definition step (rt : runtime) (a : action) (s : gen_session) : gen_session * trace :=
  match a with
  | On event cb => discard (on event cb) s
  | Tick => discard (resume rt) s
  end.

Fixpoint run (rt : runtime) (acts : list action) (s : gen_session)
  : gen_session * trace :=
  match acts with
  | [] => (s, [])
  | a :: rest =>
      let '(s1, t1) := step rt a s in
      let '(s2, t2) := run rt rest s1 in
      (s2, t1 ++ t2)
  end.

End UniversalTTSClient.

(* ===================================================================== *)
(** ** Selecting a client *)
(* ===================================================================== *)

(** The fields of the plugin settings this module reads.  The declaration of
    [EdgeTTSPluginSettings] is in another file; the Deepgram fields are
    optional here because the code guards them with [||]. *)
Record EdgeTTSPluginSettings : Type := {
  ttsEngine : jsstring;
  selectedVoice : jsstring;
  customVoice : jsstring;
  deepgramApiKey : option jsstring;
  deepgramModel : option jsstring
}.

Definition getVoiceForSettings (settings : EdgeTTSPluginSettings) : jsstring :=
  if JsString.eqb (ttsEngine settings) (lit "deepgram") then
    let m := JsString.trim (JsString.or_else (deepgramModel settings) (lit "aura-asteria-en")) in
    if JsString.truthy m then m else lit "aura-asteria-en"
  else
    let v := JsString.trim (customVoice settings) in
    if JsString.truthy v then v else selectedVoice settings.

Inductive TTSClient : Type :=
| DeepgramClient (c : DeepgramTTSClient.t)
| UniversalClient (c : UniversalTTSClient.t).

Definition createTTSClient (TTSPackage : option package)
    (settings : EdgeTTSPluginSettings) : completion TTSClient :=
  if JsString.eqb (ttsEngine settings) (lit "deepgram") then
    Normal (DeepgramClient
              (DeepgramTTSClient.constructor
                 {| DeepgramTTSClient.opt_apiKey := deepgramApiKey settings;
                    DeepgramTTSClient.opt_model := Some (getVoiceForSettings settings);
                    DeepgramTTSClient.opt_baseUrl := None |}))
  else
    match UniversalTTSClient.constructor TTSPackage with
    | Normal c => Normal (UniversalClient c)
    | Throw e => Throw e
    end.

(** ** Reading a trace *)

Definition emitted (t : trace) : list (jsstring * list js_val) :=
  omap (fun e => match e with Emit ev args => Some (ev, args) | _ => None end) t.

Definition is_pull (e : effect) : bool :=
  match e with Pull => true | _ => false end.

Definition is_fetch (e : effect) : bool :=
  match e with Fetch _ _ _ => true | _ => false end.

Definition pulls (t : trace) : nat := length (List.filter is_pull t).

Definition invocations (id : nat) (t : trace) : list (list js_val) :=
  omap (fun e => match e with
                 | Invoke i args => if Nat.eqb i id then Some args else None
                 | _ => None
                 end) t.

(** The [console.warn] calls of a trace. *)
Definition warnings (t : trace) : list (jsstring * list js_val) :=
  omap (fun e => match e with
                 | Console WarnLevel message args => Some (message, args)
                 | _ => None
                 end) t.

Definition constructions (t : trace) : list (jsstring * communicate_options) :=
  omap (fun e => match e with Construct x o => Some (x, o) | _ => None end) t.

(* ===================================================================== *)
(** ** The properties, in the words of the specification *)
(* ===================================================================== *)

Module Spec.

Definition default_voice : jsstring := lit "aura-asteria-en".

(** The effective voice: for the HTTP backend the trimmed model name, or
    the fixed default if the model is blank; otherwise the trimmed custom
    voice when it is not blank, else the selected voice. *)
Definition effective_voice (settings : EdgeTTSPluginSettings) : jsstring :=
  if JsString.eqb (ttsEngine settings) (lit "deepgram") then
    match deepgramModel settings with
    | Some m => if JsString.blank m then default_voice else JsString.trim m
    | None => default_voice
    end
  else if JsString.blank (customVoice settings)
       then selectedVoice settings
       else JsString.trim (customVoice settings).

(** The integer nearest to the value [(-1)^s * m * 2^e] of a finite double,
    a tie going to the larger one: the value itself when [e >= 0], and
    [floor (x + 1/2)] otherwise. *)
Definition nearest_integer (x : number) : option Z :=
  match x with
  | S754_zero _ => Some 0%Z
  | S754_finite s m e =>
      Some (if (0 <=? e)%Z then cond_Zopp s (Zpos m * 2 ^ e)
            else (cond_Zopp s (2 * Zpos m) + 2 ^ (- e)) / 2 ^ (- e + 1))%Z
  | _ => None
  end.

(** A well-formed binary64 value, as every result of double arithmetic
    is. *)
Definition valid_double (x : number) : Prop :=
  valid_binary JsNumber.prec JsNumber.emax x = true.

(** A signed percentage: the sign, the digits of the magnitude, [%]. *)
Definition signed_percentage (z : Z) : jsstring :=
  (if (0 <? z)%Z then lit "+" else lit "-")
  ++ JsString.of_N (Z.abs_N z) ++ lit "%".

(** The recognised payload shapes, in the words of the specification: a
    binary array, a native buffer, or an object the shim converts.  The
    shim's [from] converts an [ArrayBuffer], a [Uint8Array] and a string
    (lines 19-28); any other input gets its zero-length fallback. *)
Definition binary_array (v : js_val) : bool :=
  match v with JUint8Array _ | JArrayBuffer _ => true | _ => false end.

Definition native_buffer (rt : runtime) (v : js_val) : bool :=
  native_Buffer rt && match v with JBuffer _ => true | _ => false end.

Definition shim_converted (v : js_val) : bool :=
  match v with JArrayBuffer _ | JUint8Array _ | JString _ => true | _ => false end.

Definition shim_convertible_object (rt : runtime) (v : js_val) : bool :=
  has_BufferPolyfill rt && typeof_object v && shim_converted v.

Definition recognized (rt : runtime) (v : js_val) : bool :=
  binary_array v || native_buffer rt v || shim_convertible_object rt v.

Definition data_event (v : js_val) : jsstring * list js_val := (lit "data", [v]).
Definition end_event : jsstring * list js_val := (lit "end", []).
Definition error_event (e : js_val) : jsstring * list js_val := (lit "error", [e]).





(** The event order of a finished session of the HTTP client: [data]
    events with the values read, then [end], or [error] and then [end]. *)
Definition http_order (evs : list (jsstring * list js_val)) : Prop :=
  exists (values : list js_val) (tail : list (jsstring * list js_val)),
    evs = List.map data_event values ++ tail
    /\ Forall (fun v => truthy v = true) values
    /\ (tail = [end_event] \/ exists e, tail = [error_event e; end_event]).

(** The value [audioData] gets for a payload. *)
Definition audioData_value (rt : runtime) (data : js_val) : js_val :=
  match data with
  | JUint8Array bytes | JArrayBuffer bytes => JUint8Array bytes
  | JBuffer bytes => if native_Buffer rt then JUint8Array bytes else JUint8Array []
  | _ => JUint8Array []
  end.


(** The events the HTTP client emits while it reads a body. *)
Fixpoint reader_events (rd : reader) : list (jsstring * list js_val) :=
  match rd with
  | ReadValue v rest =>
      (if truthy v then [data_event v] else []) ++ reader_events rest
  | ReadDone => [end_event]
  | ReadFails e => [error_event e; end_event]
  end.

Definition fetch_events (o : fetch_outcome) : list (jsstring * list js_val) :=
  match o with
  | FetchThrows e | FetchRejects e => [error_event e; end_event]
  | FetchResolves r =>
      if negb (response_ok r)
      then [error_event (DeepgramTTSClient.request_failed_error r); end_event]
      else match body r with
           | None => [error_event DeepgramTTSClient.not_readable_error; end_event]
           | Some rd => reader_events rd
           end
  end.

Definition task_events (k : http_task) : list (jsstring * list js_val) :=
  match k with
  | AwaitFetch o => fetch_events o
  | AwaitRead rd => reader_events rd
  | HttpSettled => []
  end.


(** The events of a session whose response has a non-success status, as
    first stated: exactly one [error] event followed by exactly one [end]
    event, and no [data] event. *)
Definition error_then_end (evs : list (jsstring * list js_val)) : bool :=
  match evs with
  | [first; second] =>
      JsString.eqb (fst first) (lit "error") && JsString.eqb (fst second) (lit "end")
  | _ => false
  end.

(** What a resumption does with an unrecognised payload, as first stated:
    the case is logged, one [data] event with a zero-length chunk is
    emitted, and the stream continues (the task waits for the next
    chunk). *)
Definition unrecognized_logged_forwarded (c : chunk) (s' : gen_session) (t : trace)
  : Prop :=
  warnings t = [(lit "Unexpected audio data type:",
                 [JString (typeof (chunk_data c)); chunk_data c])]
  /\ emitted t = [data_event (JUint8Array [])]
  /\ consuming s' = AwaitNext.

(** A listener that returns normally whatever it is called with. *)
Definition quiet (cb : callback) : Prop := forall args, cb_run cb args = None.

(** A schedule in which every listener the consumer registers is quiet. *)
Definition quiet_schedule (acts : list action) : Prop :=
  forall event cb, In (On event cb) acts -> quiet cb.

Definition quiet_listeners (m : gmap jsstring (list callback)) : Prop :=
  forall event cbs, m !! event = Some cbs -> Forall quiet cbs.

(** No [data] listener is registered in a schedule. *)
Definition no_data_listener (acts : list action) : Prop :=
  forall cb, ~ In (On (lit "data") cb) acts.

Definition ticks (acts : list action) : nat :=
  length (List.filter (fun a => match a with Tick => true | _ => false end) acts).

Fixpoint generator_length (g : generator) : nat :=
  match g with
  | Yield _ rest => S (generator_length rest)
  | _ => 0
  end.

Fixpoint reader_length (rd : reader) : nat :=
  match rd with
  | ReadValue _ rest => S (reader_length rest)
  | _ => 0
  end.

(** A bound on the number of times the background task of an HTTP session
    still resumes. *)
Definition task_steps (k : http_task) : nat :=
  match k with
  | AwaitFetch (FetchResolves r) =>
      if response_ok r then
        match body r with
        | Some rd => 2 + reader_length rd
        | None => 1
        end
      else 1
  | AwaitFetch _ => 1
  | AwaitRead rd => 1 + reader_length rd
  | HttpSettled => 0
  end.

(** The consuming task of the universal client has not been called, or
    it has. *)
Definition idle (s : gen_session) : Prop :=
  isConsuming s = false /\ consuming s = NotCalled.

Definition started (s : gen_session) : Prop :=
  isConsuming s = true /\ consuming s <> NotCalled.

(** The same for the consuming task of the universal client. *)
Definition consumer_steps (s : gen_session) : nat :=
  match consuming s with
  | AwaitNext => 1 + generator_length (asyncGenerator s)
  | NotCalled | Completed => 0
  end.

End Spec.

(* ===================================================================== *)
(** ** Concrete clients, networks and providers *)
(* ===================================================================== *)

Module Examples.

(** A browser-like runtime (no [Buffer], a [window]) and a Node-like one.
    The examples print no number outside the interpreted range. *)
Definition browser : runtime :=
  {| native_Buffer := false; has_window := true;
     Number_toString_other := fun _ => lit "" |}.

Definition node : runtime :=
  {| native_Buffer := true; has_window := false;
     Number_toString_other := fun _ => lit "" |}.

(** A listener that returns normally, and one that throws. *)
Definition listener (id : nat) : callback :=
  {| cb_id := id; cb_run := fun _ => None |}.

Definition thrower (id : nat) : callback :=
  {| cb_id := id; cb_run := fun _ => Some (JError (lit "listener failed")) |}.

Definition not_found : response :=
  {| status := 404; statusText := lit "Not Found"; body := None |}.

Definition failing_network : network := fun _ _ _ => FetchResolves not_found.

Definition deepgram : DeepgramTTSClient.t :=
  DeepgramTTSClient.constructor
    {| DeepgramTTSClient.opt_apiKey := Some (lit "secret");
       DeepgramTTSClient.opt_model := None;
       DeepgramTTSClient.opt_baseUrl := None |}.

Definition blank_key_options : DeepgramTTSClient.options :=
  {| DeepgramTTSClient.opt_apiKey := Some (lit "   ");
     DeepgramTTSClient.opt_model := None;
     DeepgramTTSClient.opt_baseUrl := None |}.

Definition no_key : DeepgramTTSClient.t :=
  DeepgramTTSClient.constructor
    {| DeepgramTTSClient.opt_apiKey := None;
       DeepgramTTSClient.opt_model := None;
       DeepgramTTSClient.opt_baseUrl := None |}.

(** An audio chunk whose payload is a string: no recognised shape. *)
Definition text_chunk : chunk :=
  {| chunk_type := lit "audio"; chunk_data := JString (lit "abc") |}.

(** A provider that accepts the voice only. *)
Definition strict_provider : provider :=
  fun _ o =>
    match opt_rate o with
    | Some _ => CtorThrows (JError (lit "rate is not supported"))
    | None => CtorReturns (StreamReturns (Yield text_chunk Return))
    end.

Definition universal (P : provider) : UniversalTTSClient.t :=
  {| UniversalTTSClient.CommunicateClass := Some P;
     UniversalTTSClient.currentVoice := Some (lit "en-US-AriaNeural");
     UniversalTTSClient.currentFormat := None |}.

(** The double nearest to 1.2. *)
Definition rate_1_2 : number := JsNumber.div (JsNumber.of_Z 12) (JsNumber.of_Z 10).

Definition faster : option prosody_argument :=
  Some {| arg_rate := JNumber rate_1_2 |}.

End Examples.

(* ===================================================================== *)
(** ** Further notions used to state properties of the code *)
(* ===================================================================== *)

Module Extra.

(** A string without white space at its start or at its end. *)
Definition trimmed (s : jsstring) : Prop :=
  JsString.trimStart s = s /\ JsString.trimEnd s = s.

(** A client after a series of [setMetadata(voice, format)] calls. *)
Definition setMetadata_all (calls : list (option jsstring * option jsstring))
    (c : DeepgramTTSClient.t) : DeepgramTTSClient.t :=
  fold_left (fun c call => DeepgramTTSClient.setMetadata (fst call) (snd call) c) calls c.

(** A character that cannot end or split a query parameter: one that
    [encodeURIComponent] keeps, or the percent sign of an escape. *)
Definition url_safe (c : N) : Prop := Encoding.uri_unreserved c = true \/ c = 37%N.

(** The effects a session of the HTTP client makes after [toStream]. *)
Definition http_session_effect (e : effect) : Prop :=
  match e with
  | Emit _ _ | Invoke _ _ | Console _ _ _ | Read => True
  | _ => False
  end.

(** The effects a session of the universal client makes after [toStream]. *)
Definition generator_session_effect (e : effect) : Prop :=
  match e with
  | Emit _ _ | Invoke _ _ | Console _ _ _ | Pull => True
  | _ => False
  end.

(** The values a body reader yields, in order, and the error that ends it
    when it does not end with [done]. *)
Fixpoint values_of (rd : reader) : list js_val :=
  match rd with
  | ReadValue v rest => v :: values_of rest
  | ReadDone | ReadFails _ => []
  end.

Fixpoint failure_of (rd : reader) : option js_val :=
  match rd with
  | ReadValue _ rest => failure_of rest
  | ReadDone => None
  | ReadFails e => Some e
  end.





(** A consumer registers listeners one after the other, ignoring what the
    calls return. *)
Definition on_all (regs : list (jsstring * callback)) (a : SimpleStreamAdapter.t)
  : SimpleStreamAdapter.t * trace :=
  fold_left
    (fun st reg =>
       let '(a1, t1) := discard (SimpleStreamAdapter.on (fst reg) (snd reg)) (fst st) in
       (a1, snd st ++ t1))
    regs (a, []).

(** The listeners registered for an event, in the order of registration. *)
Definition registered_for (event : jsstring) (regs : list (jsstring * callback))
  : list callback :=
  List.map snd (List.filter (fun reg => JsString.eqb (fst reg) event) regs).

(** The registrations of the listener [id] for an event. *)
Definition registrations_of (id : nat) (m : gmap jsstring (list callback))
    (event : jsstring) : list callback :=
  List.filter (fun cb => Nat.eqb (cb_id cb) id) (listeners_of event m).

(** The calls the listener [id] gets for a sequence of events, given the
    registered listeners: one call per event and per registration for that
    event, with the arguments of the event. *)
Definition heard (m : gmap jsstring (list callback)) (id : nat)
    (evs : list (jsstring * list js_val)) : list (list js_val) :=
  flat_map
    (fun ev => List.map (fun _ => snd ev) (registrations_of id m (fst ev)))
    evs.

(** No action of the schedule registers the listener [id]. *)
Definition not_registered (id : nat) (acts : list action) : Prop :=
  forall event cb, In (On event cb) acts -> cb_id cb <> id.

End Extra.

(* ===================================================================== *)
(** ** Further concrete settings, networks, providers and sessions *)
(* ===================================================================== *)

Module Scenarios.

Definition deepgram_settings : EdgeTTSPluginSettings :=
  {| ttsEngine := lit "deepgram";
     selectedVoice := lit "en-US-AriaNeural";
     customVoice := lit "";
     deepgramApiKey := Some (lit " secret ");
     deepgramModel := Some (lit " aura-luna-en ") |}.

(** A body of three reads, the second without a value. *)
Definition audio_body : reader :=
  ReadValue (JUint8Array [x01; x02])
    (ReadValue JUndefined
       (ReadValue (JUint8Array [x03]) ReadDone)).

Definition ok : response :=
  {| status := 200; statusText := lit "OK"; body := Some audio_body |}.

Definition serving_network : network := fun _ _ _ => FetchResolves ok.

Definition offline : js_val := JError (lit "Failed to fetch").

Definition rejecting_network : network := fun _ _ _ => FetchRejects offline.

Definition throwing_network : network := fun _ _ _ => FetchThrows offline.

Definition boundary_chunk : chunk :=
  {| chunk_type := lit "WordBoundary"; chunk_data := JUndefined |}.


Definition object_chunk : chunk :=
  {| chunk_type := lit "audio"; chunk_data := JObject 0 |}.



Definition broken_provider : provider :=
  fun _ _ => CtorReturns (StreamThrows offline).

(** A session of the universal client with one [data] listener, waiting
    for the next chunk of [g]. *)
Definition awaiting (g : generator) : gen_session :=
  {| listeners := add_listener (lit "data") (Examples.listener 0) ∅;
     isConsuming := true;
     asyncGenerator := g;
     consuming := AwaitNext |}.

(** An adapter with three [end] listeners, the second of which throws. *)
Definition crowded : SimpleStreamAdapter.t :=
  {| SimpleStreamAdapter.listeners :=
       add_listener (lit "end") (Examples.listener 2)
         (add_listener (lit "end") (Examples.thrower 1)
            (add_listener (lit "end") (Examples.listener 0) ∅));
     SimpleStreamAdapter.hasEnded := false |}.

Definition registrations : list (jsstring * callback) :=
  [(lit "data", Examples.listener 0);
   (lit "end", Examples.listener 1);
   (lit "data", Examples.listener 2)].

End Scenarios.

(* ===================================================================== *)
(** * Theorems *)
(* ===================================================================== *)

Section TrimFacts.

Import JsString.

Lemma trimStart_nil_iff (s : jsstring) : trimStart s = [] <-> blank s = true.
Proof.
  induction s as [|c r IH]; simpl.
  - tauto.
  - destruct (is_white_space c); simpl.
    + exact IH.
    + split; discriminate.
Qed.

Lemma blank_rev (s : jsstring) : blank (rev s) = blank s.
Proof.
  unfold blank. induction s as [|c r IH]; simpl; [reflexivity|].
  rewrite forallb_app, IH. simpl. rewrite andb_true_r. apply andb_comm.
Qed.

Lemma blank_trimStart (s : jsstring) : blank (trimStart s) = blank s.
Proof.
  induction s as [|c r IH]; simpl; [reflexivity|].
  destruct (is_white_space c) eqn:E; simpl.
  - exact IH.
  - rewrite E. reflexivity.
Qed.

Lemma trim_nil_iff (s : jsstring) : trim s = [] <-> blank s = true.
Proof.
  unfold trim, trimEnd.
  rewrite <- (blank_trimStart s), <- (blank_rev (trimStart s)).
  rewrite <- trimStart_nil_iff. split; intros H.
  - apply (f_equal (@rev N)) in H. rewrite rev_involutive in H. exact H.
  - rewrite H. reflexivity.
Qed.

Lemma truthy_trim (s : jsstring) : truthy (trim s) = negb (blank s).
Proof.
  destruct (blank s) eqn:E.
  - apply trim_nil_iff in E. rewrite E. reflexivity.
  - destruct (trim s) eqn:T; [|reflexivity].
    apply trim_nil_iff in T. congruence.
Qed.

End TrimFacts.

(* ===================================================================== *)
(** ** The selector *)
(* ===================================================================== *)

Lemma eqb_lit_true (a b : jsstring) : JsString.eqb a b = true <-> a = b.
Proof. unfold JsString.eqb. apply bool_decide_eq_true. Qed.

Lemma eqb_lit_false (a b : jsstring) : JsString.eqb a b = false <-> a <> b.
Proof. unfold JsString.eqb. apply bool_decide_eq_false. Qed.

(** C8. The effective voice computed by [getVoiceForSettings] is the one the
    specification describes: with the HTTP backend selected, the trimmed
    model name, or the fixed default voice when the model is absent, empty
    or made of white space; otherwise the trimmed custom voice when it is
    not blank, and the selected voice when it is. *)
Theorem getVoiceForSettings_effective_voice (settings : EdgeTTSPluginSettings) :
  getVoiceForSettings settings = Spec.effective_voice settings.
Proof.
  unfold getVoiceForSettings, Spec.effective_voice.
  destruct (JsString.eqb (ttsEngine settings) (lit "deepgram")).
  - destruct (deepgramModel settings) as [m|]; simpl.
    + destruct m as [|c m'].
      * reflexivity.
      * cbn [JsString.truthy]. rewrite truthy_trim.
        destruct (JsString.blank (c :: m')); reflexivity.
    + reflexivity.
  - rewrite truthy_trim.
    destruct (JsString.blank (customVoice settings)); reflexivity.
Qed.

(* ===================================================================== *)
(** ** The missing credential *)
(* ===================================================================== *)

Lemma toStream_without_key (net : network) (c : DeepgramTTSClient.t)
    (text : jsstring) (p : option prosody_argument) :
  JsString.truthy (DeepgramTTSClient.apiKey c) = false ->
  DeepgramTTSClient.toStream net c text p
  = (Throw DeepgramTTSClient.missing_key_error, []).
Proof.
  intros H. unfold DeepgramTTSClient.toStream. rewrite H. reflexivity.
Qed.

(** C4. With an empty API key, [toStream] of the HTTP client throws the
    missing-key error: no adapter is returned, and the trace of the call is
    empty, so [fetch] has not been called. *)
Theorem toStream_empty_key_throws (net : network) (c : DeepgramTTSClient.t)
    (text : jsstring) (p : option prosody_argument) :
  DeepgramTTSClient.apiKey c = lit "" ->
  DeepgramTTSClient.toStream net c text p
  = (Throw DeepgramTTSClient.missing_key_error, [])
  /\ List.filter is_fetch (snd (DeepgramTTSClient.toStream net c text p)) = [].
Proof.
  intros H.
  assert (E : DeepgramTTSClient.toStream net c text p
              = (Throw DeepgramTTSClient.missing_key_error, [])).
  { apply toStream_without_key. rewrite H. reflexivity. }
  rewrite E. split; reflexivity.
Qed.

Lemma constructor_blank_key (o : DeepgramTTSClient.options) :
  match DeepgramTTSClient.opt_apiKey o with
  | Some k => JsString.blank k = true
  | None => True
  end ->
  DeepgramTTSClient.apiKey (DeepgramTTSClient.constructor o) = lit "".
Proof.
  intros H. unfold DeepgramTTSClient.constructor; simpl.
  destruct (DeepgramTTSClient.opt_apiKey o) as [k|]; simpl.
  - destruct k as [|ch k']; [reflexivity|].
    cbn [JsString.truthy]. apply trim_nil_iff. exact H.
  - reflexivity.
Qed.

(** C10. The constructor of the HTTP client trims the API key, so a key
    made of white space only leaves the client without a credential, as an
    absent or empty key does: [toStream] throws the missing-key error before
    any effect, and [setMetadata] does not change that. *)
Theorem toStream_blank_key_throws (net : network) (o : DeepgramTTSClient.options)
    (k : jsstring) (text : jsstring) (p : option prosody_argument) :
  DeepgramTTSClient.opt_apiKey o = Some k ->
  JsString.blank k = true ->
  DeepgramTTSClient.toStream net (DeepgramTTSClient.constructor o) text p
  = (Throw DeepgramTTSClient.missing_key_error, [])
  /\ DeepgramTTSClient.toStream net (DeepgramTTSClient.constructor o) text p
     = DeepgramTTSClient.toStream net
         (DeepgramTTSClient.constructor
            {| DeepgramTTSClient.opt_apiKey := None;
               DeepgramTTSClient.opt_model := DeepgramTTSClient.opt_model o;
               DeepgramTTSClient.opt_baseUrl := DeepgramTTSClient.opt_baseUrl o |})
         text p
  /\ forall voice format,
       DeepgramTTSClient.toStream net
         (DeepgramTTSClient.setMetadata voice format (DeepgramTTSClient.constructor o))
         text p
       = (Throw DeepgramTTSClient.missing_key_error, []).
Proof.
  intros Hk Hb.
  assert (E : DeepgramTTSClient.apiKey (DeepgramTTSClient.constructor o) = lit "").
  { apply constructor_blank_key. rewrite Hk. exact Hb. }
  split; [|split].
  - apply toStream_without_key. rewrite E. reflexivity.
  - rewrite !toStream_without_key; try reflexivity.
    rewrite E. reflexivity.
  - intros voice format. apply toStream_without_key. simpl.
    change (JsString.truthy
              (DeepgramTTSClient.apiKey (DeepgramTTSClient.constructor o)) = false).
    rewrite E. reflexivity.
Qed.

(* ===================================================================== *)
(** ** The prosody helper *)
(* ===================================================================== *)

Section Prosody.

Local Open Scope Z_scope.

Lemma of_Z_pos (q : positive) : JsString.of_Z (Zpos q) = JsString.of_N (Npos q).
Proof. reflexivity. Qed.

Lemma of_Z_neg (q : positive) :
  JsString.of_Z (Zneg q) = lit "-" ++ JsString.of_N (Npos q).
Proof. reflexivity. Qed.

(** An integral finite double is not zero, and its sign bit is the sign of
    its value. *)
Lemma to_integer_finite (s : bool) (m : positive) (e z : Z) :
  JsNumber.to_integer (S754_finite s m e) = Some z ->
  if s then z < 0 else 0 < z.
Proof.
  unfold JsNumber.to_integer.
  destruct (0 <=? e) eqn:He.
  - intros [= <-]. apply Z.leb_le in He.
    assert (0 < Zpos m * 2 ^ e) by (apply Z.mul_pos_pos; [lia | apply Z.pow_pos_nonneg; lia]).
    destruct s; simpl; lia.
  - apply Z.leb_gt in He.
    destruct (Zpos m mod 2 ^ (- e) =? 0) eqn:Hm; [|discriminate].
    intros [= <-]. apply Z.eqb_eq in Hm.
    assert (Hp : 0 < 2 ^ (- e)) by (apply Z.pow_pos_nonneg; lia).
    assert (0 < Zpos m / 2 ^ (- e)).
    { pose proof (Z.div_mod (Zpos m) (2 ^ (- e)) ltac:(lia)) as D.
      rewrite Hm, Z.add_0_r in D.
      destruct (Z.lt_trichotomy 0 (Zpos m / 2 ^ (- e))) as [?|[E|?]]; [assumption| |].
      - rewrite <- E in D. lia.
      - nia. }
    destruct s; simpl; lia.
Qed.

(** What the function makes of a percentage that is an integer. *)
Lemma rendered_percentage (other : number -> jsstring) (p : number) (z : Z) :
  JsNumber.to_integer p = Some z ->
  Z.abs z <= 2 ^ 53 ->
  (if negb (JsNumber.eqb p (JsNumber.of_Z 0))
   then Some (if JsNumber.ltb (JsNumber.of_Z 0) p
              then lit "+" ++ JsNumber.toString other p ++ lit "%"
              else JsNumber.toString other p ++ lit "%")
   else None)
  = if z =? 0 then None else Some (Spec.signed_percentage z).
Proof.
  intros Hz Hb. destruct p as [s| | |s m e]; try discriminate.
  - injection Hz as <-. destruct s; reflexivity.
  - pose proof (to_integer_finite _ _ _ _ Hz) as Hs.
    unfold JsNumber.toString. rewrite Hz.
    apply Z.leb_le in Hb. rewrite Hb.
    change (JsNumber.of_Z 0) with (S754_zero false).
    unfold Spec.signed_percentage.
    destruct s; destruct z as [|q|q]; try lia; cbn -[JsString.of_N lit app].
    + rewrite of_Z_neg. rewrite <- app_assoc. reflexivity.
    + rewrite of_Z_pos. reflexivity.
Qed.

Lemma digits2_pos_size (m : positive) : digits2_pos m = Pos.size m.
Proof. induction m as [m IH|m IH|]; simpl; congruence. Qed.

Lemma digits2_pos_iter (m d : positive) :
  digits2_pos (Pos.iter xO m d) = (digits2_pos m + d)%positive.
Proof.
  induction d as [|d IH] using Pos.peano_ind.
  - simpl. rewrite Pos.add_1_r. reflexivity.
  - rewrite Pos.iter_succ. simpl. rewrite IH, Pos.add_succ_r. reflexivity.
Qed.

Lemma iter_xO_value (m d : positive) :
  Zpos (Pos.iter xO m d) = Zpos m * 2 ^ Zpos d.
Proof.
  induction d as [|d IH] using Pos.peano_ind.
  - simpl. lia.
  - rewrite Pos.iter_succ, Pos2Z.inj_xO, IH, Pos2Z.inj_succ, Z.pow_succ_r by lia. lia.
Qed.

Lemma digits2_pos_bound (m : positive) :
  Zpos m < 2 ^ 53 -> Zpos (digits2_pos m) <= 53.
Proof.
  intros H. rewrite digits2_pos_size.
  pose proof (Pos.size_le m) as L.
  assert (L' : 2 ^ Zpos (Pos.size m) <= 2 * Zpos m).
  { change 2 with (Zpos 2) at 1. rewrite <- Pos2Z.inj_pow. 
    change (2 * Zpos m) with (Zpos m~0). apply Pos2Z.pos_le_pos. exact L. }
  assert (2 ^ Zpos (Pos.size m) < 2 ^ 54).
  { change (2 ^ 54) with (2 * 2 ^ 53). lia. }
  apply Z.pow_lt_mono_r_iff in H0; lia.
Qed.

(** Rounding a mantissa of exactly 53 bits is the identity. *)
Lemma binary_round_aux_exact (s : bool) (mz : positive) (ez : Z) :
  digits2_pos mz = 53%positive ->
  -1074 <= ez <= 971 ->
  binary_round_aux JsNumber.prec JsNumber.emax s (Zpos mz) ez loc_Exact
  = S754_finite s mz ez.
Proof.
  intros Hd He.
  assert (Hf : fexp JsNumber.prec JsNumber.emax (Zpos (digits2_pos mz) + ez) - ez = 0).
  { rewrite Hd. unfold fexp, emin, JsNumber.prec, JsNumber.emax. lia. }
  unfold binary_round_aux, shr_fexp. cbn [Zdigits2 shr_record_of_loc].
  rewrite Hf. cbn [shr shr_m loc_of_shr_record round_nearest_even Zdigits2 shr_record_of_loc].
  rewrite Hf. cbn [shr shr_m].
  unfold JsNumber.prec, JsNumber.emax.
  destruct (Z.leb_spec ez (1024 - 53)); [reflexivity|lia].
Qed.

(** The double made from an integer below 2^53 has that integer as its
    value. *)
Lemma of_Z_integer (z : Z) :
  Z.abs z < 2 ^ 53 -> JsNumber.to_integer (JsNumber.of_Z z) = Some z.
Proof.
  intros Hz. unfold JsNumber.of_Z, binary_normalize.
  assert (Hround : forall (s : bool) (m : positive),
             Zpos m < 2 ^ 53 ->
             JsNumber.to_integer (binary_round JsNumber.prec JsNumber.emax s m 0)
             = Some (cond_Zopp s (Zpos m))).
  { intros s m Hm. pose proof (digits2_pos_bound m Hm) as Hd.
    unfold binary_round, shl_align.
    assert (Hf : fexp JsNumber.prec JsNumber.emax (Zpos (digits2_pos m) + 0)
                 = Zpos (digits2_pos m) - 53).
    { unfold fexp, emin, JsNumber.prec, JsNumber.emax. lia. }
    rewrite Hf, Z.sub_0_r.
    destruct (Zpos (digits2_pos m) - 53) as [|k|k] eqn:Hk; [| lia |].
    - rewrite binary_round_aux_exact by (lia || (apply Pos2Z.inj; lia)).
      simpl. rewrite Z.mul_1_r. reflexivity.
    - rewrite binary_round_aux_exact.
      + unfold JsNumber.to_integer.
        destruct (Z.leb_spec 0 (Zneg k)); [lia|].
        change (- Zneg k) with (Zpos k).
        rewrite iter_xO_value, Z.mod_mul, Z.eqb_refl, Z.div_mul by lia.
        reflexivity.
      + rewrite digits2_pos_iter. apply Pos2Z.inj. rewrite Pos2Z.inj_add. lia.
      + lia. }
  destruct z as [|m|m]; [reflexivity| |].
  - rewrite (Hround false m Hz). reflexivity.
  - rewrite (Hround true m Hz). reflexivity.
Qed.

(** [Math.round] of a finite double, with a mantissa of at most 53 bits, is
    an integer: the floor of the value plus one half. *)
Lemma Math_round_integer (s : bool) (m : positive) (e : Z) :
  Zpos m < 2 ^ 53 ->
  JsNumber.to_integer (JsNumber.Math_round (S754_finite s m e))
  = Some (if 0 <=? e then cond_Zopp s (Zpos m * 2 ^ e)
          else (cond_Zopp s (2 * Zpos m) + 2 ^ (- e)) / 2 ^ (- e + 1)).
Proof.
  intros Hm. unfold JsNumber.Math_round.
  destruct (Z.leb_spec 0 e) as [He|He].
  - unfold JsNumber.to_integer. destruct (Z.leb_spec 0 e); [reflexivity|lia].
  - cbv zeta.
    set (r := (cond_Zopp s (2 * Zpos m) + 2 ^ (- e)) / 2 ^ (- e + 1)).
    destruct (Z.eqb_spec r 0) as [->|Hr]; [reflexivity|].
    apply of_Z_integer.
    assert (Hp : 2 <= 2 ^ (- e)).
    { change 2 with (2 ^ 1) at 1. apply Z.pow_le_mono_r; lia. }
    assert (Hq : 2 ^ (- e + 1) = 2 * 2 ^ (- e)) by (rewrite Z.pow_add_r; lia).
    assert (Hr1 : - Zpos m <= r).
    { unfold r. apply Z.div_le_lower_bound; [lia|]. rewrite Hq.
      destruct s; simpl; nia. }
    assert (Hr2 : r <= Zpos m).
    { unfold r. apply Z.div_le_upper_bound; [lia|]. rewrite Hq.
      destruct s; simpl; nia. }
    lia.
Qed.

Lemma valid_double_mantissa (s : bool) (m : positive) (e : Z) :
  Spec.valid_double (S754_finite s m e) -> Zpos m < 2 ^ 53.
Proof.
  unfold Spec.valid_double, valid_binary, bounded, canonical_mantissa.
  intros H. apply andb_true_iff in H as [H _]. apply Z.eqb_eq in H.
  assert (Hd : Zpos (digits2_pos m) <= 53).
  { unfold fexp, emin, JsNumber.prec, JsNumber.emax in H. lia. }
  rewrite digits2_pos_size in Hd.
  pose proof (Pos.size_gt m) as G. apply Pos2Z.pos_lt_pos in G.
  rewrite Pos2Z.inj_pow in G.
  assert (2 ^ Zpos (Pos.size m) <= 2 ^ 53) by (apply Z.pow_le_mono_r; lia).
  lia.
Qed.

(** [Math.round] gives the nearest integer. *)
Lemma Math_round_nearest (x : number) (z : Z) :
  Spec.valid_double x ->
  Spec.nearest_integer x = Some z ->
  JsNumber.to_integer (JsNumber.Math_round x) = Some z.
Proof.
  intros Hv Hz. destruct x as [s| | |s m e]; try discriminate.
  - injection Hz as <-. reflexivity.
  - rewrite (Math_round_integer s m e (valid_double_mantissa s m e Hv)).
    exact Hz.
Qed.

(** C3. [createProsodyOptions] computes the percentage
    [Math.round((rate - 1) * 100)] in double arithmetic.  Whenever the
    product [(rate - 1) * 100] is finite, the percentage is the integer
    nearest to it; when that integer is zero the result has no [rate],
    otherwise (up to 2^53, where integers print as their digits) the [rate]
    is the signed percentage string: [+] or [-], the digits, [%].  Without a
    rate argument there is no [rate].  With the doubles nearest to 1.2, 0.8,
    1.0 and 1.004 the results are ["+20%"], ["-20%"], no rate and no rate. *)
Theorem createProsodyOptions_rate (rt : runtime) :
  (forall (r : number) (z : Z),
      let product := JsNumber.mul (JsNumber.sub r (JsNumber.of_Z 1)) (JsNumber.of_Z 100) in
      Spec.valid_double product ->
      Spec.nearest_integer product = Some z ->
      Z.abs z <= 2 ^ 53 ->
      JsNumber.to_integer (JsNumber.Math_round product) = Some z
      /\ rate (createProsodyOptions rt (Some r))
         = if z =? 0 then None else Some (Spec.signed_percentage z))
  /\ rate (createProsodyOptions rt None) = None
  /\ rate (createProsodyOptions rt
             (Some (JsNumber.div (JsNumber.of_Z 12) (JsNumber.of_Z 10))))
     = Some (lit "+20%")
  /\ rate (createProsodyOptions rt
             (Some (JsNumber.div (JsNumber.of_Z 8) (JsNumber.of_Z 10))))
     = Some (lit "-20%")
  /\ rate (createProsodyOptions rt (Some (JsNumber.of_Z 1))) = None
  /\ rate (createProsodyOptions rt
             (Some (JsNumber.div (JsNumber.of_Z 1004) (JsNumber.of_Z 1000))))
     = None.
Proof.
  split; [|repeat split; vm_compute; reflexivity].
  intros r z product Hv Hn Hb.
  pose proof (Math_round_nearest product z Hv Hn) as Hz.
  split; [exact Hz|].
  unfold createProsodyOptions. fold product.
  pose proof (rendered_percentage (Number_toString_other rt) _ z Hz Hb) as R.
  cbv zeta.
  match goal with
  | |- rate (if ?c then _ else _) = _ => destruct c eqn:Hc
  end; simpl in R |- *; exact R.
Qed.

End Prosody.

(* ===================================================================== *)
(** ** Listeners and traces *)
(* ===================================================================== *)

Ltac eff :=
  unfold bind, ret, tell, get, put, modify, throw, try_catch, discard in *.

Lemma emitted_app (t1 t2 : trace) : emitted (t1 ++ t2) = emitted t1 ++ emitted t2.
Proof. unfold emitted. apply omap_app. Qed.

(** Calling the listeners changes no state and makes [Invoke] effects only. *)
Lemma forEach_call_state {S} (cbs : list callback) (args : list js_val) (s : S) :
  snd (fst (forEach_call cbs args s)) = s.
Proof.
  induction cbs as [|cb r IH]; simpl; [reflexivity|].
  unfold call_listener. eff.
  destruct (cb_run cb args); simpl; [reflexivity|].
  destruct (forEach_call r args s) as [[c s'] t'] eqn:E. simpl in *. exact IH.
Qed.

Lemma forEach_call_emitted {S} (cbs : list callback) (args : list js_val) (s : S) :
  emitted (snd (forEach_call cbs args s)) = []
  /\ pulls (snd (forEach_call cbs args s)) = 0.
Proof.
  induction cbs as [|cb r IH]; simpl; [split; reflexivity|].
  unfold call_listener. eff.
  destruct (cb_run cb args); simpl; [split; reflexivity|].
  destruct (forEach_call r args s) as [[c s'] t'] eqn:E. simpl in *. exact IH.
Qed.

Lemma forEach_call_quiet {S} (cbs : list callback) (args : list js_val) (s : S) :
  Forall Spec.quiet cbs ->
  forEach_call cbs args s
  = (Normal tt, s, List.map (fun cb => Invoke (cb_id cb) args) cbs).
Proof.
  induction 1 as [|cb r Hq _ IH]; simpl; [reflexivity|].
  unfold call_listener. eff. rewrite (Hq args). simpl. rewrite IH. reflexivity.
Qed.

Lemma add_listener_lookup (event : jsstring) (cb : callback)
    (m : gmap jsstring (list callback)) :
  add_listener event cb m !! event = Some (listeners_of event m ++ [cb]).
Proof.
  unfold add_listener, listeners_of.
  destruct (m !! event) as [l|] eqn:E.
  - rewrite lookup_alter_eq, E. reflexivity.
  - rewrite lookup_alter_eq, lookup_insert_eq. reflexivity.
Qed.

Lemma add_listener_lookup_ne (event other : jsstring) (cb : callback)
    (m : gmap jsstring (list callback)) :
  event <> other ->
  listeners_of other (add_listener event cb m) = listeners_of other m.
Proof.
  intros Hne. unfold add_listener, listeners_of.
  rewrite lookup_alter_ne by exact Hne.
  destruct (m !! event); [reflexivity|].
  rewrite lookup_insert_ne by exact Hne. reflexivity.
Qed.

Lemma listeners_of_quiet (event : jsstring) (m : gmap jsstring (list callback)) :
  Spec.quiet_listeners m -> Forall Spec.quiet (listeners_of event m).
Proof.
  intros Hq. unfold listeners_of.
  destruct (m !! event) as [l|] eqn:E; simpl; [exact (Hq _ _ E)|constructor].
Qed.

Lemma add_listener_quiet (event : jsstring) (cb : callback)
    (m : gmap jsstring (list callback)) :
  Spec.quiet cb -> Spec.quiet_listeners m ->
  Spec.quiet_listeners (add_listener event cb m).
Proof.
  intros Hcb Hm ev cbs Hl.
  destruct (decide (event = ev)) as [<-|Hne].
  - rewrite add_listener_lookup in Hl. injection Hl as <-.
    apply Forall_app. split; [apply listeners_of_quiet; exact Hm|].
    constructor; [exact Hcb|constructor].
  - pose proof (add_listener_lookup_ne event ev cb m Hne) as E.
    unfold listeners_of in E. rewrite Hl in E. simpl in E.
    destruct (m !! ev) as [l|] eqn:El; simpl in E.
    + subst. exact (Hm _ _ El).
    + subst. constructor.
Qed.

Lemma quiet_listeners_empty : Spec.quiet_listeners ∅.
Proof. intros ev cbs H. rewrite lookup_empty in H. discriminate. Qed.

Lemma quiet_schedule_cons (a : action) (acts : list action) :
  Spec.quiet_schedule (a :: acts) ->
  match a with On _ cb => Spec.quiet cb | Tick => True end
  /\ Spec.quiet_schedule acts.
Proof.
  intros H. split.
  - destruct a as [ev cb|]; [|exact I]. apply (H ev cb). left. reflexivity.
  - intros ev cb Hin. apply (H ev cb). right. exact Hin.
Qed.

(* ===================================================================== *)
(** ** SimpleStreamAdapter *)
(* ===================================================================== *)

(** [emit] enters once, leaves the listeners as they are and records an
    [end]. *)
Lemma SimpleStreamAdapter_emit_any (event : jsstring) (args : list js_val)
    (a : SimpleStreamAdapter.t) :
  let '(_, a', t) := SimpleStreamAdapter.emit event args a in
  SimpleStreamAdapter.listeners a' = SimpleStreamAdapter.listeners a
  /\ SimpleStreamAdapter.hasEnded a'
     = SimpleStreamAdapter.hasEnded a || JsString.eqb event (lit "end")
  /\ emitted t = [(event, args)].
Proof.
  unfold SimpleStreamAdapter.emit. eff.
  destruct (JsString.eqb event (lit "end")); simpl.
  - match goal with |- context [forEach_call ?l ?x ?s] =>
      pose proof (forEach_call_state l x s) as Hs;
      pose proof (forEach_call_emitted l x s) as [He _];
      destruct (forEach_call l x s) as [[r s'] t'] end.
    simpl in *. subst s'. simpl. rewrite orb_true_r.
    destruct r; simpl; rewrite ?app_nil_r;
      (split; [reflexivity|split; [reflexivity|]]);
      unfold emitted in *; simpl; rewrite He; reflexivity.
  - match goal with |- context [forEach_call ?l ?x ?s] =>
      pose proof (forEach_call_state l x s) as Hs;
      pose proof (forEach_call_emitted l x s) as [He _];
      destruct (forEach_call l x s) as [[r s'] t'] end.
    simpl in *. subst s'. rewrite orb_false_r.
    destruct r; simpl; rewrite ?app_nil_r;
      (split; [reflexivity|split; [reflexivity|]]);
      unfold emitted in *; simpl; rewrite He; reflexivity.
Qed.

(** With quiet listeners [emit] completes normally. *)
Lemma SimpleStreamAdapter_emit_quiet (event : jsstring) (args : list js_val)
    (a : SimpleStreamAdapter.t) :
  Forall Spec.quiet (listeners_of event (SimpleStreamAdapter.listeners a)) ->
  SimpleStreamAdapter.emit event args a
  = (Normal tt,
     {| SimpleStreamAdapter.listeners := SimpleStreamAdapter.listeners a;
        SimpleStreamAdapter.hasEnded :=
          SimpleStreamAdapter.hasEnded a || JsString.eqb event (lit "end") |},
     Emit event args
       :: List.map (fun cb => Invoke (cb_id cb) args)
            (listeners_of event (SimpleStreamAdapter.listeners a))).
Proof.
  intros Hq. unfold SimpleStreamAdapter.emit. eff.
  destruct a as [m h]. simpl in *.
  destruct (JsString.eqb event (lit "end")); simpl;
    rewrite forEach_call_quiet by exact Hq;
    rewrite ?orb_true_r, ?orb_false_r; reflexivity.
Qed.

(** [on] stores the listener; it calls it, once and without arguments, when
    the event is [end] and the adapter has ended, and makes no other
    effect. *)
Lemma SimpleStreamAdapter_on_spec (event : jsstring) (cb : callback)
    (a : SimpleStreamAdapter.t) :
  SimpleStreamAdapter.on event cb a
  = (if JsString.eqb event (lit "end") && SimpleStreamAdapter.hasEnded a
     then match cb_run cb [] with Some e => Throw e | None => Normal tt end
     else Normal tt,
     {| SimpleStreamAdapter.listeners :=
          add_listener event cb (SimpleStreamAdapter.listeners a);
        SimpleStreamAdapter.hasEnded := SimpleStreamAdapter.hasEnded a |},
     if JsString.eqb event (lit "end") && SimpleStreamAdapter.hasEnded a
     then [Invoke (cb_id cb) []] else []).
Proof.
  unfold SimpleStreamAdapter.on, call_listener. eff. simpl.
  destruct (JsString.eqb event (lit "end") && SimpleStreamAdapter.hasEnded a); simpl.
  - destruct (cb_run cb []); reflexivity.
  - reflexivity.
Qed.

(** A listener registered for [end] on an adapter that has ended is called
    at once, exactly once, with no arguments, and is stored. *)
Lemma SimpleStreamAdapter_late_end (cb : callback) (a : SimpleStreamAdapter.t) :
  SimpleStreamAdapter.hasEnded a = true ->
  let '(_, a', t) := SimpleStreamAdapter.on (lit "end") cb a in
  t = [Invoke (cb_id cb) []]
  /\ listeners_of (lit "end") (SimpleStreamAdapter.listeners a')
     = listeners_of (lit "end") (SimpleStreamAdapter.listeners a) ++ [cb].
Proof.
  intros H. rewrite SimpleStreamAdapter_on_spec, H. simpl. split; [reflexivity|].
  unfold listeners_of at 1. rewrite add_listener_lookup. reflexivity.
Qed.

(* ===================================================================== *)
(** ** Sessions of the HTTP client *)
(* ===================================================================== *)

Ltac eff_run :=
  unfold bind, ret, tell, get, put, modify, throw, try_catch, discard;
  cbn beta iota zeta.

Lemma on_adapter_emit_quiet (event : jsstring) (args : list js_val) (s : http_session) :
  Forall Spec.quiet (listeners_of event (SimpleStreamAdapter.listeners (adapter s))) ->
  DeepgramTTSClient.on_adapter (SimpleStreamAdapter.emit event args) s
  = (Normal tt,
     {| adapter :=
          {| SimpleStreamAdapter.listeners := SimpleStreamAdapter.listeners (adapter s);
             SimpleStreamAdapter.hasEnded :=
               SimpleStreamAdapter.hasEnded (adapter s) || JsString.eqb event (lit "end") |};
        http_task_of := http_task_of s |},
     Emit event args
       :: List.map (fun cb => Invoke (cb_id cb) args)
            (listeners_of event (SimpleStreamAdapter.listeners (adapter s)))).
Proof.
  intros Hq. unfold DeepgramTTSClient.on_adapter.
  rewrite SimpleStreamAdapter_emit_quiet by exact Hq. reflexivity.
Qed.

Lemma emitted_invokes (l : list callback) (args : list js_val) :
  emitted (List.map (fun cb => Invoke (cb_id cb) args) l) = [].
Proof. induction l as [|cb r IH]; [reflexivity|exact IH]. Qed.

(** The [catch] block with quiet listeners: [error], then [end]. *)
Lemma catch_block_quiet (e : js_val) (s : http_session) :
  Spec.quiet_listeners (SimpleStreamAdapter.listeners (adapter s)) ->
  exists t,
    DeepgramTTSClient.catch_block e s
    = (Normal tt,
       {| adapter :=
            {| SimpleStreamAdapter.listeners := SimpleStreamAdapter.listeners (adapter s);
               SimpleStreamAdapter.hasEnded := true |};
          http_task_of := http_task_of s |}, t)
    /\ emitted t = [Spec.error_event e; Spec.end_event].
Proof.
  intros Hq. unfold DeepgramTTSClient.catch_block. eff_run.
  rewrite on_adapter_emit_quiet by (apply listeners_of_quiet; exact Hq). cbn beta iota zeta.
  rewrite on_adapter_emit_quiet by (apply listeners_of_quiet; exact Hq). cbn beta iota zeta.
  eexists. split.
  - simpl. rewrite orb_true_r. reflexivity.
  - simpl. unfold emitted. simpl. rewrite omap_app. simpl.
    fold (emitted (List.map (fun cb => Invoke (cb_id cb) [e])
            (listeners_of (lit "error") (SimpleStreamAdapter.listeners (adapter s))))).
    fold (emitted (List.map (fun cb => Invoke (cb_id cb) [])
            (listeners_of (lit "end") (SimpleStreamAdapter.listeners (adapter s))))).
    rewrite !emitted_invokes. reflexivity.
Qed.

Lemma on_adapter_emit_any (event : jsstring) (args : list js_val) (s : http_session) :
  let '(_, s', t) := DeepgramTTSClient.on_adapter (SimpleStreamAdapter.emit event args) s in
  SimpleStreamAdapter.listeners (adapter s') = SimpleStreamAdapter.listeners (adapter s)
  /\ SimpleStreamAdapter.hasEnded (adapter s')
     = SimpleStreamAdapter.hasEnded (adapter s) || JsString.eqb event (lit "end")
  /\ http_task_of s' = http_task_of s
  /\ emitted t = [(event, args)].
Proof.
  unfold DeepgramTTSClient.on_adapter.
  pose proof (SimpleStreamAdapter_emit_any event args (adapter s)) as H.
  destruct (SimpleStreamAdapter.emit event args (adapter s)) as [[r a] t].
  simpl. tauto.
Qed.

Ltac emit_any :=
  match goal with
  | |- context [DeepgramTTSClient.on_adapter (SimpleStreamAdapter.emit ?ev ?args) ?s] =>
      let H := fresh "Hemit" in
      let r := fresh "r" in
      let s1 := fresh "s" in
      let t1 := fresh "t" in
      pose proof (on_adapter_emit_any ev args s) as H;
      destruct (DeepgramTTSClient.on_adapter (SimpleStreamAdapter.emit ev args) s)
        as [[r s1] t1];
      destruct H as (? & ? & ? & ?);
      destruct r; cbn beta iota zeta
  end.

(** What the [catch] block does whatever the listeners do: it keeps the
    listeners and the task, emits [error] and then, unless an [error]
    listener threw, [end]. *)
Lemma catch_block_any (e : js_val) (s : http_session) :
  let '(_, s', t) := DeepgramTTSClient.catch_block e s in
  SimpleStreamAdapter.listeners (adapter s') = SimpleStreamAdapter.listeners (adapter s)
  /\ http_task_of s' = http_task_of s
  /\ (SimpleStreamAdapter.hasEnded (adapter s) = true ->
      SimpleStreamAdapter.hasEnded (adapter s') = true)
  /\ (In Spec.end_event (emitted t) -> SimpleStreamAdapter.hasEnded (adapter s') = true).
Proof.
  unfold DeepgramTTSClient.catch_block. eff_run.
  emit_any.
  - emit_any; simpl in *;
      repeat match goal with H : _ = _ |- _ => rewrite H end;
      rewrite ?orb_true_r, ?orb_false_r; repeat split; auto.
  - simpl in *.
      repeat match goal with H : _ = _ |- _ => rewrite H end;
      rewrite ?orb_true_r, ?orb_false_r; repeat split; auto.
    intros [E|[]]. discriminate.
Qed.

Ltac catch_any :=
  match goal with
  | |- context [DeepgramTTSClient.catch_block ?e ?s] =>
      let H := fresh "Hcatch" in
      let r := fresh "r" in
      let s1 := fresh "s" in
      let t1 := fresh "t" in
      pose proof (catch_block_any e s) as H;
      destruct (DeepgramTTSClient.catch_block e s) as [[r s1] t1];
      destruct H as (? & ? & ? & ?);
      cbn beta iota zeta
  end.

Ltac task_bound :=
  repeat match goal with
         | H : http_task_of _ = _ |- _ => rewrite H in *; clear H
         end;
  simpl;
  repeat match goal with
         | H : response_ok _ = _ |- _ => rewrite H in *; clear H
         | H : body _ = _ |- _ => rewrite H in *; clear H
         end;
  lia.

(** One action, whatever the listeners do: an adapter that has ended stays
    ended, an [end] event marks it ended, and a resumption brings the task
    closer to its end. *)
Lemma http_step_any (a : action) (s : http_session) :
  let '(s', t) := DeepgramTTSClient.step a s in
  (SimpleStreamAdapter.hasEnded (adapter s) = true ->
   SimpleStreamAdapter.hasEnded (adapter s') = true)
  /\ (In Spec.end_event (emitted t) -> SimpleStreamAdapter.hasEnded (adapter s') = true)
  /\ Spec.task_steps (http_task_of s')
     <= Spec.task_steps (http_task_of s)
        - match a with Tick => 1 | On _ _ => 0 end.
Proof.
  destruct a as [ev cb|]; unfold DeepgramTTSClient.step.
  - unfold discard, DeepgramTTSClient.on_adapter.
    rewrite SimpleStreamAdapter_on_spec. simpl.
    split; [auto|]. split; [|lia].
    destruct (JsString.eqb ev (lit "end") && SimpleStreamAdapter.hasEnded (adapter s));
      simpl; intros [].
  - unfold DeepgramTTSClient.resume, DeepgramTTSClient.suspend. eff_run.
    destruct (http_task_of s) as [o|rd|] eqn:Ht; cbn beta iota zeta.
    + unfold DeepgramTTSClient.after_fetch.
      destruct o as [e|e|r]; eff_run.
      * catch_any. simpl in *. repeat split; auto. task_bound.
      * catch_any. simpl in *. repeat split; auto. task_bound.
      * destruct (response_ok r) eqn:Hok; cbn [negb]; eff_run.
        -- destruct (body r) as [rd|] eqn:Hbody; eff_run.
           ++ simpl. repeat split; auto; try solve [intros []]; try task_bound.
           ++ catch_any. simpl in *. repeat split; auto. task_bound.
        -- catch_any. simpl in *. repeat split; auto. task_bound.
    + unfold DeepgramTTSClient.after_read.
      destruct rd as [v rest| |e]; eff_run.
      * destruct (truthy v); eff_run.
        -- emit_any.
           ++ simpl in *. rewrite orb_false_r in *.
              repeat split; try lia; try congruence.
              rewrite emitted_app.
              match goal with H : emitted _ = _ |- _ => rewrite H end.
              simpl. intros [E|[]]. discriminate.
           ++ catch_any. simpl in *. rewrite orb_false_r in *.
              repeat split; try task_bound.
              ** intros Hs. match goal with
                            | H : SimpleStreamAdapter.hasEnded _ = true -> _ |- _ => apply H
                            end. congruence.
              ** rewrite emitted_app.
                 match goal with H : emitted _ = [_] |- _ => rewrite H end.
                 intros [E|Hin]; [discriminate|]. auto.
        -- simpl. repeat split; auto; try solve [intros []]; try task_bound.
      * emit_any.
        -- simpl in *. rewrite orb_true_r in *. repeat split; auto. task_bound.
        -- catch_any. simpl in *. rewrite orb_true_r in *.
           repeat split; auto. task_bound.
      * catch_any. simpl in *. repeat split; auto. task_bound.
    + simpl. repeat split; auto; try solve [intros []]; try task_bound.
Qed.

Ltac catch_quiet Hq :=
  match goal with
  | |- context [DeepgramTTSClient.catch_block ?e ?s] =>
      let t := fresh "t" in
      let E := fresh "Ecatch" in
      let Ht := fresh "Hevents" in
      destruct (catch_block_quiet e s Hq) as (t & E & Ht);
      rewrite E; cbn beta iota zeta
  end.

(** One action with quiet listeners: the events emitted and the events the
    task still owes add up to the events owed before. *)
Lemma http_step_quiet (a : action) (s : http_session) :
  match a with On _ cb => Spec.quiet cb | Tick => True end ->
  Spec.quiet_listeners (SimpleStreamAdapter.listeners (adapter s)) ->
  let '(s', t) := DeepgramTTSClient.step a s in
  Spec.quiet_listeners (SimpleStreamAdapter.listeners (adapter s'))
  /\ emitted t ++ Spec.task_events (http_task_of s') = Spec.task_events (http_task_of s).
Proof.
  intros Ha Hq. destruct a as [ev cb|]; unfold DeepgramTTSClient.step.
  - unfold discard, DeepgramTTSClient.on_adapter.
    rewrite SimpleStreamAdapter_on_spec. simpl. split.
    + apply add_listener_quiet; assumption.
    + destruct (JsString.eqb ev (lit "end") && SimpleStreamAdapter.hasEnded (adapter s));
        reflexivity.
  - unfold DeepgramTTSClient.resume, DeepgramTTSClient.suspend. eff_run.
    destruct (http_task_of s) as [o|rd|] eqn:Ht; cbn beta iota zeta.
    + unfold DeepgramTTSClient.after_fetch.
      destruct o as [e|e|r]; eff_run.
      * catch_quiet Hq. simpl. rewrite Hevents. split; [exact Hq|reflexivity].
      * catch_quiet Hq. simpl. rewrite Hevents. split; [exact Hq|reflexivity].
      * simpl. destruct (negb (response_ok r)); eff_run.
        -- catch_quiet Hq. simpl. rewrite Hevents. split; [exact Hq|reflexivity].
        -- destruct (body r) as [rd|]; eff_run.
           ++ simpl. split; [exact Hq|reflexivity].
           ++ catch_quiet Hq. simpl. rewrite Hevents. split; [exact Hq|reflexivity].
    + unfold DeepgramTTSClient.after_read.
      destruct rd as [v rest| |e]; eff_run.
      * simpl. destruct (truthy v); eff_run.
        -- rewrite on_adapter_emit_quiet by (apply listeners_of_quiet; exact Hq). cbn beta iota zeta.
           simpl. split; [exact Hq|].
           rewrite emitted_app, emitted_invokes. reflexivity.
        -- simpl. split; [exact Hq|reflexivity].
      * rewrite on_adapter_emit_quiet by (apply listeners_of_quiet; exact Hq). cbn beta iota zeta.
        simpl. split; [exact Hq|].
        rewrite emitted_invokes. reflexivity.
      * catch_quiet Hq. simpl. rewrite Hevents. split; [exact Hq|reflexivity].
    + simpl. rewrite Ht. split; [exact Hq|reflexivity].
Qed.

Lemma ticks_cons (a : action) (acts : list action) :
  Spec.ticks (a :: acts)
  = match a with Tick => 1 | On _ _ => 0 end + Spec.ticks acts.
Proof. destruct a; reflexivity. Qed.

(** A schedule with quiet listeners. *)
Lemma http_run_quiet (acts : list action) (s : http_session) :
  Spec.quiet_schedule acts ->
  Spec.quiet_listeners (SimpleStreamAdapter.listeners (adapter s)) ->
  let '(s', t) := DeepgramTTSClient.run acts s in
  Spec.quiet_listeners (SimpleStreamAdapter.listeners (adapter s'))
  /\ emitted t ++ Spec.task_events (http_task_of s') = Spec.task_events (http_task_of s).
Proof.
  revert s. induction acts as [|a acts IH]; intros s Hacts Hq; simpl.
  - split; [exact Hq|reflexivity].
  - apply quiet_schedule_cons in Hacts as [Ha Hacts].
    pose proof (http_step_quiet a s Ha Hq) as Hstep.
    destruct (DeepgramTTSClient.step a s) as [s1 t1]. destruct Hstep as [Hq1 E1].
    specialize (IH s1 Hacts Hq1).
    destruct (DeepgramTTSClient.run acts s1) as [s2 t2]. destruct IH as [Hq2 E2].
    split; [exact Hq2|].
    rewrite emitted_app, <- app_assoc, E2. exact E1.
Qed.

(** A schedule, whatever the listeners do. *)
Lemma http_run_any (acts : list action) (s : http_session) :
  let '(s', t) := DeepgramTTSClient.run acts s in
  (SimpleStreamAdapter.hasEnded (adapter s) = true ->
   SimpleStreamAdapter.hasEnded (adapter s') = true)
  /\ (In Spec.end_event (emitted t) -> SimpleStreamAdapter.hasEnded (adapter s') = true)
  /\ Spec.task_steps (http_task_of s')
     <= Spec.task_steps (http_task_of s) - Spec.ticks acts.
Proof.
  revert s. induction acts as [|a acts IH]; intros s; simpl.
  - split; [auto|]. split; [intros []|]. unfold Spec.ticks. simpl. lia.
  - pose proof (http_step_any a s) as Hstep.
    destruct (DeepgramTTSClient.step a s) as [s1 t1]. destruct Hstep as (M1 & E1 & B1).
    specialize (IH s1).
    destruct (DeepgramTTSClient.run acts s1) as [s2 t2]. destruct IH as (M2 & E2 & B2).
    rewrite ticks_cons. split; [auto|]. split.
    + rewrite emitted_app, in_app_iff. intros [H|H]; auto.
    + lia.
Qed.

Lemma task_steps_zero (k : http_task) : Spec.task_steps k = 0 -> k = HttpSettled.
Proof.
  destruct k as [o|rd|]; simpl; try discriminate; [|reflexivity].
  destruct o as [e|e|r]; try discriminate.
  destruct (response_ok r); [destruct (body r)|]; discriminate.
Qed.

(** The [catch] block on an adapter without listeners. *)
Lemma catch_block_new (e : js_val) (k : http_task) :
  DeepgramTTSClient.catch_block e
    {| adapter := SimpleStreamAdapter.new; http_task_of := k |}
  = (Normal tt,
     {| adapter := {| SimpleStreamAdapter.listeners := ∅;
                      SimpleStreamAdapter.hasEnded := true |};
        http_task_of := k |},
     [Console ErrorLevel (lit "Deepgram TTS streaming error:") [e];
      Emit (lit "error") [e]; Emit (lit "end") []]).
Proof.
  unfold DeepgramTTSClient.catch_block. eff_run.
  rewrite on_adapter_emit_quiet by (apply listeners_of_quiet, quiet_listeners_empty). cbn beta iota zeta.
  rewrite on_adapter_emit_quiet by (apply listeners_of_quiet, quiet_listeners_empty). cbn beta iota zeta.
  reflexivity.
Qed.


(* ===================================================================== *)
(** ** Sessions of the universal client *)
(* ===================================================================== *)

(** [on] stores the listener; the first [data] listener starts the
    consumption, which pulls once and waits. *)
Lemma generator_on_spec (event : jsstring) (cb : callback) (s : gen_session) :
  UniversalTTSClient.on event cb s
  = if JsString.eqb event (lit "data") && negb (isConsuming s)
    then (Normal tt,
          {| listeners := add_listener event cb (listeners s);
             isConsuming := true;
             asyncGenerator := asyncGenerator s;
             consuming := AwaitNext |},
          [Pull])
    else (Normal tt,
          {| listeners := add_listener event cb (listeners s);
             isConsuming := isConsuming s;
             asyncGenerator := asyncGenerator s;
             consuming := consuming s |},
          []).
Proof.
  unfold UniversalTTSClient.on, UniversalTTSClient.consumeAsyncGenerator,
    UniversalTTSClient.pull. eff_run. simpl.
  destruct (JsString.eqb event (lit "data") && negb (isConsuming s)); reflexivity.
Qed.

Lemma generator_emit_any (event : jsstring) (args : list js_val) (s : gen_session) :
  let '(_, s', t) := UniversalTTSClient.emit event args s in
  s' = s /\ emitted t = [(event, args)] /\ pulls t = 0.
Proof.
  unfold UniversalTTSClient.emit. eff_run.
  match goal with |- context [forEach_call ?l ?x ?s] =>
    pose proof (forEach_call_state l x s) as Hs;
    pose proof (forEach_call_emitted l x s) as [He Hp];
    destruct (forEach_call l x s) as [[r s'] t'] end.
  simpl in *. subst s'.
  destruct r; simpl; (split; [reflexivity|]);
    unfold emitted, pulls in *; simpl; rewrite He; auto.
Qed.

Lemma generator_emit_quiet (event : jsstring) (args : list js_val) (s : gen_session) :
  Forall Spec.quiet (listeners_of event (listeners s)) ->
  UniversalTTSClient.emit event args s
  = (Normal tt, s,
     Emit event args
       :: List.map (fun cb => Invoke (cb_id cb) args) (listeners_of event (listeners s))).
Proof.
  intros Hq. unfold UniversalTTSClient.emit. eff_run.
  rewrite forEach_call_quiet by exact Hq. reflexivity.
Qed.

(** The value the payload normalisation gives, and its warning: a payload
    one of the first four branches takes passes silently, every other
    payload is logged and becomes a zero-length array. *)
Lemma audioData_of_spec {S} (rt : runtime) (data : js_val) (s : S) :
  UniversalTTSClient.audioData_of rt data s
  = (Normal (Spec.audioData_value rt data), s,
     if UniversalTTSClient.converts rt data then []
     else [Console WarnLevel (lit "Unexpected audio data type:")
             [JString (typeof data); data]]).
Proof.
  unfold UniversalTTSClient.audioData_of, UniversalTTSClient.converts, Spec.audioData_value,
    Buffer_isBuffer, has_BufferPolyfill.
  destruct data; try reflexivity;
    destruct (native_Buffer rt), (has_window rt); reflexivity.
Qed.

Lemma generator_catch_any (e : js_val) (s : gen_session) :
  let '(_, s', t) := UniversalTTSClient.catch_block e s in
  s' = s /\ emitted t = [Spec.error_event e] /\ pulls t = 0.
Proof.
  unfold UniversalTTSClient.catch_block. eff_run.
  pose proof (generator_emit_any (lit "error") [e] s) as H.
  destruct (UniversalTTSClient.emit (lit "error") [e] s) as [[r s'] t].
  destruct H as (-> & He & Hp).
  destruct r; simpl; auto.
Qed.



Ltac gen_emit_any :=
  match goal with
  | |- context [UniversalTTSClient.emit ?ev ?args ?s] =>
      let H := fresh "Hemit" in
      let r := fresh "r" in
      let s1 := fresh "s" in
      let t1 := fresh "t" in
      pose proof (generator_emit_any ev args s) as H;
      destruct (UniversalTTSClient.emit ev args s) as [[r s1] t1];
      destruct H as (-> & ? & ?);
      destruct r; cbn beta iota zeta
  end.

Ltac gen_catch_any :=
  match goal with
  | |- context [UniversalTTSClient.catch_block ?e ?s] =>
      let H := fresh "Hcatch" in
      let r := fresh "r" in
      let s1 := fresh "s" in
      let t1 := fresh "t" in
      pose proof (generator_catch_any e s) as H;
      destruct (UniversalTTSClient.catch_block e s) as [[r s1] t1];
      destruct H as (-> & ? & ?);
      cbn beta iota zeta
  end.

Ltac gen_fin :=
  repeat split; intros;
  repeat match goal with
         | H : _ /\ _ |- _ => destruct H
         | H : _ \/ _ |- _ => destruct H
         end;
  try lia; try tauto; try discriminate; try congruence.

(** A resumption, whatever the listeners do: a task that has not been
    called stays so; a task that waits gets closer to its end. *)
Lemma generator_tick_any (rt : runtime) (s : gen_session) :
  let '(s', t) := UniversalTTSClient.step rt Tick s in
  (Spec.idle s -> s' = s /\ t = [])
  /\ (Spec.started s -> Spec.started s')
  /\ Spec.consumer_steps s' <= Spec.consumer_steps s - 1
  /\ Spec.generator_length (asyncGenerator s') <= Spec.generator_length (asyncGenerator s).
Proof.
  unfold UniversalTTSClient.step, discard, UniversalTTSClient.resume. eff_run.
  unfold Spec.idle, Spec.started, Spec.consumer_steps.
  destruct (consuming s) eqn:Hc; cbn beta iota zeta.
  - simpl. rewrite Hc. gen_fin.
  - unfold UniversalTTSClient.after_next.
    destruct (asyncGenerator s) as [c rest| |e] eqn:Hg.
    + unfold UniversalTTSClient.loop_body, UniversalTTSClient.pull. eff_run.
      destruct (UniversalTTSClient.audio_bearing c) eqn:Hab; eff_run.
      * rewrite audioData_of_spec. cbn beta iota zeta.
        gen_emit_any.
        -- simpl. rewrite ?Hg. simpl.
           gen_fin.
        -- gen_catch_any. simpl. rewrite ?Hg. simpl.
           gen_fin.
      * simpl. rewrite ?Hg. simpl.
        gen_fin.
    + gen_emit_any.
      * simpl. rewrite ?Hg. simpl.
        gen_fin.
      * gen_catch_any. simpl. rewrite ?Hg. simpl.
        gen_fin.
    + eff_run. gen_catch_any. simpl. rewrite ?Hg. simpl.
      gen_fin.
  - simpl. rewrite Hc. gen_fin.
Qed.

(** Registering a listener: an idle session stays idle unless the event is
    [data]; a [data] listener leaves the session started; no resumption
    is consumed. *)
Lemma generator_on_any (rt : runtime) (event : jsstring) (cb : callback)
    (s : gen_session) :
  let '(s', t) := UniversalTTSClient.step rt (On event cb) s in
  (Spec.idle s -> event <> lit "data" -> Spec.idle s' /\ t = [])
  /\ (Spec.idle s -> event = lit "data" -> t = [Pull])
  /\ (Spec.idle s \/ Spec.started s -> event = lit "data" -> Spec.started s')
  /\ (Spec.started s -> Spec.started s' /\ Spec.consumer_steps s' = Spec.consumer_steps s)
  /\ asyncGenerator s' = asyncGenerator s.
Proof.
  unfold UniversalTTSClient.step, discard. rewrite generator_on_spec.
  unfold Spec.idle, Spec.started, Spec.consumer_steps.
  destruct (JsString.eqb event (lit "data")) eqn:Ev; simpl.
  - apply eqb_lit_true in Ev. subst event.
    destruct (isConsuming s) eqn:Hi; simpl; gen_fin.
  - apply eqb_lit_false in Ev. gen_fin.
Qed.

(** The toStream of the universal client, when it returns, gives a fresh
    session over the generator the provider gave; nothing has been pulled. *)
Lemma generator_toStream_returns (rt : runtime) (c : UniversalTTSClient.t)
    (text : jsstring) (p : option prosody_argument) (s0 : gen_session) (t0 : trace) :
  UniversalTTSClient.toStream rt c text p = (Normal s0, t0) ->
  (exists g, s0 = UniversalTTSClient.new_session g)
  /\ pulls t0 = 0 /\ emitted t0 = [].
Proof.
  unfold UniversalTTSClient.toStream.
  destruct (UniversalTTSClient.CommunicateClass c) as [P|]; [|discriminate].
  unfold UniversalTTSClient.construct, UniversalTTSClient.stream. eff_run.
  destruct (P text (UniversalTTSClient.communicateOptions rt c p)) as [e1|so]; eff_run.
  - destruct (P text (UniversalTTSClient.minimalOptions c)) as [e2|so]; eff_run;
      [discriminate|].
    destruct so as [e|g]; eff_run; [discriminate|].
    intros [= <- <-]. split; [eexists; reflexivity|split; reflexivity].
  - destruct so as [e|g]; eff_run; [discriminate|].
    intros [= <- <-]. split; [eexists; reflexivity|split; reflexivity].
Qed.

Lemma new_session_idle (g : generator) : Spec.idle (UniversalTTSClient.new_session g).
Proof. split; reflexivity. Qed.

(** A schedule without a [data] listener leaves an idle session idle and
    makes no effect at all. *)
Lemma generator_run_idle (rt : runtime) (acts : list action) (s : gen_session) :
  Spec.no_data_listener acts ->
  Spec.idle s ->
  let '(s', t) := UniversalTTSClient.run rt acts s in
  Spec.idle s' /\ t = [] /\ asyncGenerator s' = asyncGenerator s.
Proof.
  revert s. induction acts as [|a acts IH]; intros s Hno Hidle; simpl.
  - auto.
  - assert (Hno' : Spec.no_data_listener acts).
    { intros cb Hin. apply (Hno cb). right. exact Hin. }
    destruct a as [ev cb|].
    + pose proof (generator_on_any rt ev cb s) as Hon.
      destruct (UniversalTTSClient.step rt (On ev cb) s) as [s1 t1].
      destruct Hon as (Hidle1 & _ & _ & _ & Hg1).
      assert (Hev : ev <> lit "data").
      { intros ->. apply (Hno cb). left. reflexivity. }
      destruct (Hidle1 Hidle Hev) as [Hi1 ->].
      specialize (IH s1 Hno' Hi1).
      destruct (UniversalTTSClient.run rt acts s1) as [s2 t2].
      destruct IH as (Hi2 & -> & Hg2). split; [exact Hi2|]. split; [reflexivity|].
      congruence.
    + pose proof (generator_tick_any rt s) as Htick.
      destruct (UniversalTTSClient.step rt Tick s) as [s1 t1].
      destruct Htick as (Hsame & _).
      destruct (Hsame Hidle) as [-> ->].
      specialize (IH s Hno' Hidle).
      destruct (UniversalTTSClient.run rt acts s) as [s2 t2].
      destruct IH as (Hi2 & -> & Hg2). auto.
Qed.

Lemma generator_run_app (rt : runtime) (acts1 acts2 : list action) (s : gen_session) :
  UniversalTTSClient.run rt (acts1 ++ acts2) s
  = let '(s1, t1) := UniversalTTSClient.run rt acts1 s in
    let '(s2, t2) := UniversalTTSClient.run rt acts2 s1 in
    (s2, t1 ++ t2).
Proof.
  revert s. induction acts1 as [|a acts1 IH]; intros s; simpl.
  - destruct (UniversalTTSClient.run rt acts2 s) as [s2 t2]. reflexivity.
  - destruct (UniversalTTSClient.step rt a s) as [s1 t1]. rewrite IH.
    destruct (UniversalTTSClient.run rt acts1 s1) as [s2 t2].
    destruct (UniversalTTSClient.run rt acts2 s2) as [s3 t3].
    rewrite app_assoc. reflexivity.
Qed.

(** C6. A session of the universal client pulls nothing until a [data]
    listener is registered: [toStream] itself pulls nothing; under any
    schedule of resumptions and registrations for other events the trace
    stays empty and the consuming task uncalled; and the registration of
    the first [data] listener makes the first pull. *)
Theorem generator_lazy_start (rt : runtime) (c : UniversalTTSClient.t)
    (text : jsstring) (p : option prosody_argument) (s0 : gen_session) (t0 : trace) :
  UniversalTTSClient.toStream rt c text p = (Normal s0, t0) ->
  pulls t0 = 0
  /\ (forall acts,
        Spec.no_data_listener acts ->
        pulls (snd (UniversalTTSClient.run rt acts s0)) = 0
        /\ consuming (fst (UniversalTTSClient.run rt acts s0)) = NotCalled
        /\ isConsuming (fst (UniversalTTSClient.run rt acts s0)) = false)
  /\ (forall acts cb,
        Spec.no_data_listener acts ->
        snd (UniversalTTSClient.run rt (acts ++ [On (lit "data") cb]) s0) = [Pull]
        /\ consuming (fst (UniversalTTSClient.run rt (acts ++ [On (lit "data") cb]) s0))
           = AwaitNext).
Proof.
  intros Hs.
  destruct (generator_toStream_returns _ _ _ _ _ _ Hs) as ([g ->] & Hp & _).
  split; [exact Hp|]. split.
  - intros acts Hno.
    pose proof (generator_run_idle rt acts _ Hno (new_session_idle g)) as H.
    destruct (UniversalTTSClient.run rt acts (UniversalTTSClient.new_session g)) as [s1 t1].
    destruct H as ([Hi Hc] & -> & _). simpl. auto.
  - intros acts cb Hno. rewrite generator_run_app.
    pose proof (generator_run_idle rt acts _ Hno (new_session_idle g)) as H.
    destruct (UniversalTTSClient.run rt acts (UniversalTTSClient.new_session g)) as [s1 t1].
    destruct H as ([Hi Hc] & -> & _).
    simpl. unfold discard. rewrite generator_on_spec, Hi. simpl. auto.
Qed.

(* ===================================================================== *)
(** ** Construction and its fallback *)
(* ===================================================================== *)

(** C7. When the provider's constructor rejects the options built from the
    request, [toStream] of the universal client constructs exactly once
    more, with the voice as the only option.  When that second construction
    throws too, [toStream] throws the creation error made from it: no
    session is returned and there is no third construction.  When it
    succeeds, [toStream] goes on with the object it gave. *)
Theorem generator_toStream_fallback (rt : runtime) (c : UniversalTTSClient.t)
    (P : provider) (text : jsstring) (p : option prosody_argument) (e1 : js_val) :
  UniversalTTSClient.CommunicateClass c = Some P ->
  P text (UniversalTTSClient.communicateOptions rt c p) = CtorThrows e1 ->
  constructions (snd (UniversalTTSClient.toStream rt c text p))
  = [(text, UniversalTTSClient.communicateOptions rt c p);
     (text, {| opt_voice := UniversalTTSClient.currentVoice c;
               opt_rate := None; opt_pitch := None; opt_volume := None |})]
  /\ (forall e2,
        P text (UniversalTTSClient.minimalOptions c) = CtorThrows e2 ->
        fst (UniversalTTSClient.toStream rt c text p)
        = Throw (UniversalTTSClient.creation_error e2))
  /\ (forall so,
        P text (UniversalTTSClient.minimalOptions c) = CtorReturns so ->
        fst (UniversalTTSClient.toStream rt c text p)
        = match so with
          | StreamReturns g => Normal (UniversalTTSClient.new_session g)
          | StreamThrows e => Throw (UniversalTTSClient.creation_error e)
          end).
Proof.
  intros HP H1. unfold UniversalTTSClient.toStream. rewrite HP.
  unfold UniversalTTSClient.construct, UniversalTTSClient.stream. eff_run.
  rewrite H1. eff_run.
  destruct (P text (UniversalTTSClient.minimalOptions c)) as [e2|so] eqn:H2; eff_run.
  - split; [reflexivity|]. split.
    + intros e [= <-]. reflexivity.
    + intros so [=].
  - destruct so as [e|g]; eff_run.
    + split; [reflexivity|]. split; [intros e2 [=]|].
      intros so [= <-]. reflexivity.
    + split; [reflexivity|]. split; [intros e2 [=]|].
      intros so [= <-]. reflexivity.
Qed.

(* ===================================================================== *)
(** ** Unrecognised payloads *)
(* ===================================================================== *)

Lemma warnings_app (t1 t2 : trace) : warnings (t1 ++ t2) = warnings t1 ++ warnings t2.
Proof. unfold warnings. apply omap_app. Qed.

Lemma forEach_call_warnings {S} (cbs : list callback) (args : list js_val) (s : S) :
  warnings (snd (forEach_call cbs args s)) = [].
Proof.
  induction cbs as [|cb r IH]; simpl; [reflexivity|].
  unfold call_listener. eff_run.
  destruct (cb_run cb args); cbn beta iota zeta; [reflexivity|].
  destruct (forEach_call r args s) as [[c s'] t']. exact IH.
Qed.

Lemma generator_emit_warnings (event : jsstring) (args : list js_val) (s : gen_session) :
  warnings (snd (UniversalTTSClient.emit event args s)) = [].
Proof.
  unfold UniversalTTSClient.emit. eff_run.
  pose proof (forEach_call_warnings (listeners_of event (listeners s)) args s) as H.
  destruct (forEach_call _ args s) as [[r s'] t']. exact H.
Qed.

Lemma generator_catch_warnings (e : js_val) (s : gen_session) :
  warnings (snd (UniversalTTSClient.catch_block e s)) = [].
Proof.
  unfold UniversalTTSClient.catch_block. eff_run.
  pose proof (generator_emit_warnings (lit "error") [e] s) as H.
  destruct (UniversalTTSClient.emit (lit "error") [e] s) as [[r s'] t]. exact H.
Qed.

(** A payload of no recognised shape gets a zero-length array, and the
    chain of [if]s warns unless the shim is installed and the payload is an
    object: then the branch of line 304 hands it to the shim's [from], whose
    fallback returns the empty array without a word. *)
Lemma unrecognized_branch (rt : runtime) (data : js_val) :
  Spec.recognized rt data = false ->
  Spec.audioData_value rt data = JUint8Array []
  /\ UniversalTTSClient.converts rt data = has_BufferPolyfill rt && typeof_object data.
Proof.
  unfold Spec.recognized, Spec.binary_array, Spec.native_buffer,
    Spec.shim_convertible_object, Spec.shim_converted, Spec.audioData_value,
    UniversalTTSClient.converts, Buffer_isBuffer, has_BufferPolyfill.
  destruct data; cbn [typeof_object]; try discriminate;
    destruct (native_Buffer rt), (has_window rt); try discriminate; auto.
Qed.

(** C9. The consuming task receives an audio-bearing chunk (type [audio],
    truthy payload) whose payload is of no recognised shape: no binary
    array, no native buffer, no object the shim converts.  Whatever the
    listeners do, one [data] event with a zero-length byte array is emitted,
    the first event of this resumption, and nothing but an [error] caused by
    a throwing listener can follow it.  The payload is logged with
    [console.warn], once, unless the shim is installed and the payload is an
    object: then it goes through the shim's fallback and nothing is logged.
    With [data] listeners that return normally the loop goes on: the [data]
    event is the only event, each [data] listener receives the empty array,
    the next chunk is pulled and the task waits for it. *)
Theorem generator_unrecognized_payload (rt : runtime) (s : gen_session)
    (c : chunk) (rest : generator) :
  consuming s = AwaitNext ->
  asyncGenerator s = Yield c rest ->
  UniversalTTSClient.audio_bearing c = true ->
  Spec.recognized rt (chunk_data c) = false ->
  let shim_fallback := has_BufferPolyfill rt && typeof_object (chunk_data c) in
  let warning := (lit "Unexpected audio data type:",
                  [JString (typeof (chunk_data c)); chunk_data c]) in
  let '(s', t) := UniversalTTSClient.step rt Tick s in
  (warnings t = (if shim_fallback then [] else [warning])
   /\ exists tail,
        emitted t = Spec.data_event (JUint8Array []) :: tail
        /\ (tail = [] \/ exists e, tail = [Spec.error_event e]))
  /\ (Forall Spec.quiet (listeners_of (lit "data") (listeners s)) ->
      t = (if shim_fallback then []
           else [Console WarnLevel (fst warning) (snd warning)])
          ++ [Emit (lit "data") [JUint8Array []]]
          ++ List.map (fun cb => Invoke (cb_id cb) [JUint8Array []])
               (listeners_of (lit "data") (listeners s))
          ++ [Pull]
      /\ consuming s' = AwaitNext
      /\ asyncGenerator s' = rest).
Proof.
  intros Hc Hg Hab Hun. cbv zeta.
  destruct (unrecognized_branch _ _ Hun) as [Hval Hconv].
  unfold UniversalTTSClient.step, discard, UniversalTTSClient.resume. eff_run.
  rewrite Hc. cbn beta iota zeta. rewrite Hg.
  unfold UniversalTTSClient.after_next, UniversalTTSClient.loop_body,
    UniversalTTSClient.pull. eff_run.
  rewrite Hab. eff_run.
  rewrite audioData_of_spec, Hconv, Hval. cbn beta iota zeta.
  match goal with
  | |- context [UniversalTTSClient.emit ?ev ?args ?st] =>
      pose proof (generator_emit_any ev args st) as Hany;
      pose proof (generator_emit_quiet ev args st) as Hquiet;
      pose proof (generator_emit_warnings ev args st) as Hwarn;
      destruct (UniversalTTSClient.emit ev args st) as [[r s1] t1]
  end.
  destruct Hany as (-> & Hev & _). cbn [snd] in Hwarn.
  destruct r as [[]|e]; cbn beta iota zeta.
  - split.
    + split.
      * rewrite !warnings_app, Hwarn.
        destruct (has_BufferPolyfill rt && typeof_object (chunk_data c)); reflexivity.
      * exists []. split; [|left; reflexivity].
        rewrite !emitted_app, Hev.
        destruct (has_BufferPolyfill rt && typeof_object (chunk_data c)); reflexivity.
    + intros Hq. specialize (Hquiet Hq). injection Hquiet as ->.
      destruct (has_BufferPolyfill rt && typeof_object (chunk_data c)); simpl; auto.
  - match goal with
    | |- context [UniversalTTSClient.catch_block ?e ?st] =>
        pose proof (generator_catch_any e st) as Hcatch;
        pose proof (generator_catch_warnings e st) as Hcw;
        destruct (UniversalTTSClient.catch_block e st) as [[r2 s2] t2]
    end.
    destruct Hcatch as (-> & Hce & _). cbn [snd] in Hcw.
    split.
    + split.
      * rewrite !warnings_app, Hwarn, Hcw.
        destruct (has_BufferPolyfill rt && typeof_object (chunk_data c)); reflexivity.
      * exists [Spec.error_event e]. split; [|right; eexists; reflexivity].
        rewrite !emitted_app, Hev, Hce.
        destruct (has_BufferPolyfill rt && typeof_object (chunk_data c)); reflexivity.
    + intros Hq. specialize (Hquiet Hq). discriminate.
Qed.

(* ===================================================================== *)
(** ** Late [end] listeners *)
(* ===================================================================== *)

(** In a session of the HTTP client, a listener registered for [end] after
    [end] has been emitted is called at once, exactly once, with no
    arguments, and is stored after the listeners already there. *)
Lemma http_late_end_listener (acts : list action) (s : http_session) (cb : callback) :
  In Spec.end_event (emitted (snd (DeepgramTTSClient.run acts s))) ->
  let s1 := fst (DeepgramTTSClient.run acts s) in
  let '(s2, t) := DeepgramTTSClient.step (On (lit "end") cb) s1 in
  t = [Invoke (cb_id cb) []]
  /\ invocations (cb_id cb) t = [[]]
  /\ listeners_of (lit "end") (SimpleStreamAdapter.listeners (adapter s2))
     = listeners_of (lit "end") (SimpleStreamAdapter.listeners (adapter s1)) ++ [cb].
Proof.
  intros Hend. pose proof (http_run_any acts s) as Hany.
  destruct (DeepgramTTSClient.run acts s) as [s1 t1]. simpl in *.
  destruct Hany as (_ & Hended & _). specialize (Hended Hend).
  unfold discard, DeepgramTTSClient.on_adapter.
  pose proof (SimpleStreamAdapter_late_end cb (adapter s1) Hended) as H.
  destruct (SimpleStreamAdapter.on (lit "end") cb (adapter s1)) as [[r a] t].
  destruct H as [-> Hl]. simpl. split; [reflexivity|]. split; [|exact Hl].
  unfold invocations. simpl. rewrite Nat.eqb_refl. reflexivity.
Qed.

(** C1, on the universal client.  A session over an exhausted generator:
    a [data] listener is registered, the pending [next()] settles and [end]
    is emitted, the consuming task completes.  An [end] listener registered
    now is stored, but it is not called: the registration makes no effect.
    Indeed [on] of this adapter never calls a listener, in any state. *)
Theorem generator_late_end_listener_not_invoked (rt : runtime) (cb cb' : callback) :
  let ended := UniversalTTSClient.run rt [On (lit "data") cb; Tick]
                 (UniversalTTSClient.new_session Return) in
  emitted (snd ended) = [Spec.end_event]
  /\ consuming (fst ended) = Completed
  /\ snd (UniversalTTSClient.step rt (On (lit "end") cb') (fst ended)) = []
  /\ listeners_of (lit "end")
       (listeners (fst (UniversalTTSClient.step rt (On (lit "end") cb') (fst ended))))
     = [cb']
  /\ invocations (cb_id cb')
       (snd (UniversalTTSClient.run rt [On (lit "data") cb; Tick; On (lit "end") cb']
               (UniversalTTSClient.new_session Return)))
     = []
  /\ forall (s : gen_session) (t : trace),
       t = snd (UniversalTTSClient.step rt (On (lit "end") cb') s) ->
       invocations (cb_id cb') t = [].
Proof.
  cbv zeta. repeat split; try reflexivity.
  intros s t ->. unfold UniversalTTSClient.step, discard.
  rewrite generator_on_spec. reflexivity.
Qed.

(* ===================================================================== *)
(** ** The order of events *)
(* ===================================================================== *)



Lemma failure_order (e : js_val) :
  Spec.http_order [Spec.error_event e; Spec.end_event].
Proof.
  exists [], [Spec.error_event e; Spec.end_event].
  split; [reflexivity|]. split; [constructor|]. right. eexists. reflexivity.
Qed.

Lemma reader_events_order (rd : reader) : Spec.http_order (Spec.reader_events rd).
Proof.
  induction rd as [v rest IH| |e]; simpl.
  - destruct IH as (values & tail & E & Hv & Htail).
    destruct (truthy v) eqn:Tv.
    + exists (v :: values), tail. split; [|split; [constructor; assumption|exact Htail]].
      simpl. rewrite E. reflexivity.
    + exists values, tail. auto.
  - exists [], [Spec.end_event]. split; [reflexivity|]. split; [constructor|].
    left. reflexivity.
  - apply failure_order.
Qed.

Lemma fetch_events_order (o : fetch_outcome) : Spec.http_order (Spec.fetch_events o).
Proof.
  destruct o as [e|e|r]; simpl; try apply failure_order.
  destruct (negb (response_ok r)); [apply failure_order|].
  destruct (body r); [apply reader_events_order|apply failure_order].
Qed.



(** Enough resumptions settle the background task of an HTTP session. *)
Lemma http_run_completes (acts : list action) (s : http_session) :
  Spec.task_steps (http_task_of s) <= Spec.ticks acts ->
  http_task_of (fst (DeepgramTTSClient.run acts s)) = HttpSettled.
Proof.
  intros Hticks. pose proof (http_run_any acts s) as H.
  destruct (DeepgramTTSClient.run acts s) as [s1 t1]. destruct H as (_ & _ & Hb).
  apply task_steps_zero. simpl. lia.
Qed.

(* ===================================================================== *)
(** ** A response that is not a success *)
(* ===================================================================== *)

(** A settled session emits nothing more. *)
Lemma http_settled_silent (acts : list action) (s : http_session) :
  http_task_of s = HttpSettled ->
  emitted (snd (DeepgramTTSClient.run acts s)) = []
  /\ http_task_of (fst (DeepgramTTSClient.run acts s)) = HttpSettled.
Proof.
  revert s. induction acts as [|a acts IH]; intros s Hs; simpl.
  - auto.
  - assert (Hstep : emitted (snd (DeepgramTTSClient.step a s)) = []
                    /\ http_task_of (fst (DeepgramTTSClient.step a s)) = HttpSettled).
    { destruct a as [ev cb|]; unfold DeepgramTTSClient.step, discard.
      - unfold DeepgramTTSClient.on_adapter. rewrite SimpleStreamAdapter_on_spec. simpl.
        split; [|exact Hs].
        destruct (JsString.eqb ev (lit "end") && SimpleStreamAdapter.hasEnded (adapter s));
          reflexivity.
      - unfold DeepgramTTSClient.resume. eff_run. rewrite Hs. simpl. auto. }
    destruct (DeepgramTTSClient.step a s) as [s1 t1]. simpl in Hstep.
    destruct Hstep as [E1 H1]. specialize (IH s1 H1).
    destruct (DeepgramTTSClient.run acts s1) as [s2 t2]. simpl in *.
    destruct IH as [E2 H2]. rewrite emitted_app, E1, E2. auto.
Qed.

(** A session that waits for a response which is not a success: when the
    listeners registered for [error] return normally, the first resumption
    emits [error] and [end], and nothing is emitted before or after. *)
Lemma http_failed_response_events (acts : list action) (s : http_session) (r : response) :
  http_task_of s = AwaitFetch (FetchResolves r) ->
  response_ok r = false ->
  Forall Spec.quiet (listeners_of (lit "error") (SimpleStreamAdapter.listeners (adapter s))) ->
  (forall cb, In (On (lit "error") cb) acts -> Spec.quiet cb) ->
  0 < Spec.ticks acts ->
  emitted (snd (DeepgramTTSClient.run acts s))
  = [Spec.error_event (DeepgramTTSClient.request_failed_error r); Spec.end_event]
  /\ http_task_of (fst (DeepgramTTSClient.run acts s)) = HttpSettled.
Proof.
  revert s. induction acts as [|a acts IH]; intros s Hs Hok Hq Hacts Hticks.
  - unfold Spec.ticks in Hticks. simpl in Hticks. lia.
  - simpl. destruct a as [ev cb|].
    + unfold DeepgramTTSClient.step, discard, DeepgramTTSClient.on_adapter.
      rewrite SimpleStreamAdapter_on_spec.
      match goal with
      | |- context [DeepgramTTSClient.run acts ?s1] =>
          specialize (IH s1 Hs Hok)
      end.
      simpl in IH.
      assert (Hq1 : Forall Spec.quiet
                      (listeners_of (lit "error")
                         (add_listener ev cb (SimpleStreamAdapter.listeners (adapter s))))).
      { destruct (decide (ev = lit "error")) as [->|Hne].
        - unfold listeners_of at 1. rewrite add_listener_lookup. simpl.
          apply Forall_app. split; [exact Hq|].
          constructor; [|constructor]. apply Hacts. left. reflexivity.
        - rewrite add_listener_lookup_ne by exact Hne. exact Hq. }
      specialize (IH Hq1 (fun cb' H => Hacts cb' (or_intror H))).
      rewrite ticks_cons in Hticks. specialize (IH Hticks).
      match goal with
      | |- context [DeepgramTTSClient.run acts ?s1] =>
          destruct (DeepgramTTSClient.run acts s1) as [s2 t2]
      end.
      simpl in *. destruct IH as [E2 H2]. split; [|exact H2].
      rewrite emitted_app, E2.
      destruct (JsString.eqb ev (lit "end") && SimpleStreamAdapter.hasEnded (adapter s));
        reflexivity.
    + unfold DeepgramTTSClient.step, discard, DeepgramTTSClient.resume,
        DeepgramTTSClient.suspend. eff_run.
      rewrite Hs. cbn beta iota zeta.
      unfold DeepgramTTSClient.after_fetch. rewrite Hok. cbn [negb]. eff_run.
      unfold DeepgramTTSClient.catch_block. eff_run.
      rewrite on_adapter_emit_quiet by exact Hq. cbn beta iota zeta.
      emit_any; simpl in *.
      * match goal with
        | |- context [DeepgramTTSClient.run acts ?s1] =>
            destruct (http_settled_silent acts s1) as [Esil Hsil]; [congruence|];
            destruct (DeepgramTTSClient.run acts s1) as [s2 t2]
        end.
        simpl in *. split; [|exact Hsil].
        rewrite !emitted_app, Esil. simpl. rewrite emitted_invokes.
        match goal with H : emitted _ = [_] |- _ => rewrite H end. reflexivity.
      * match goal with
        | |- context [DeepgramTTSClient.run acts ?s1] =>
            destruct (http_settled_silent acts s1) as [Esil Hsil]; [congruence|];
            destruct (DeepgramTTSClient.run acts s1) as [s2 t2]
        end.
        simpl in *. split; [|exact Hsil].
        rewrite !emitted_app, Esil. simpl. rewrite emitted_invokes.
        match goal with H : emitted _ = [_] |- _ => rewrite H end. reflexivity.
Qed.

(** C5. An HTTP session whose request is answered with a status outside
    200-299: once the response has arrived (the schedule has a [Tick]), the
    events emitted since [toStream] was called are exactly one [error],
    carrying the request-failed error, and then one [end]; no [data] event
    is among them and the task has finished.  The [error] listeners are
    taken to return normally: one that throws leaves the [catch] block
    before [end]. *)
Theorem http_non_success_error_then_end
    (net : network) (c : DeepgramTTSClient.t) (text : jsstring)
    (p : option prosody_argument) (s0 : http_session) (t0 : trace)
    (r : response) (acts : list action) :
  DeepgramTTSClient.toStream net c text p = (Normal s0, t0) ->
  http_task_of s0 = AwaitFetch (FetchResolves r) ->
  response_ok r = false ->
  (forall cb, In (On (lit "error") cb) acts -> Spec.quiet cb) ->
  0 < Spec.ticks acts ->
  let events := emitted (t0 ++ snd (DeepgramTTSClient.run acts s0)) in
  events = [Spec.error_event (DeepgramTTSClient.request_failed_error r); Spec.end_event]
  /\ List.filter (fun ev => JsString.eqb (fst ev) (lit "data")) events = []
  /\ http_task_of (fst (DeepgramTTSClient.run acts s0)) = HttpSettled.
Proof.
  intros Hs Ht Hok Hacts Hticks.
  assert (Hinit : SimpleStreamAdapter.listeners (adapter s0) = ∅ /\ emitted t0 = []).
  { revert Hs. unfold DeepgramTTSClient.toStream.
    destruct (negb (JsString.truthy (DeepgramTTSClient.apiKey c))); [discriminate|].
    destruct (Encoding.encodeURIComponent (DeepgramTTSClient.model c)); [|discriminate].
    unfold DeepgramTTSClient.start, DeepgramTTSClient.suspend. eff_run.
    match goal with
    | |- context [net ?u ?a ?b] => destruct (net u a b) as [e|e|r']
    end; eff_run.
    - rewrite catch_block_new. cbn beta iota zeta.
      intros [= <- <-]. discriminate Ht.
    - intros [= <- <-]. auto.
    - intros [= <- <-]. auto. }
  destruct Hinit as (Hl & He).
  assert (Hq : Forall Spec.quiet
                 (listeners_of (lit "error") (SimpleStreamAdapter.listeners (adapter s0)))).
  { rewrite Hl. apply listeners_of_quiet, quiet_listeners_empty. }
  destruct (http_failed_response_events acts s0 r Ht Hok Hq Hacts Hticks) as [E H].
  cbv zeta. rewrite emitted_app, He, E. simpl. auto.
Qed.

(** C5 as first stated fails.  An [error] listener that throws leaves the
    [catch] block before [end] is emitted: the session answered 404 emits
    [error] alone, its task has finished, and further resumptions emit
    nothing.  This is not "one [error] event followed by one [end]
    event". *)
Lemma http_non_success_counterexample :
  response_ok Examples.not_found = false
  /\ match DeepgramTTSClient.toStream Examples.failing_network Examples.deepgram
            (lit "hello") None with
     | (Normal s0, t0) =>
         let acts := [On (lit "error") (Examples.thrower 1); Tick; Tick; Tick] in
         let evs := emitted (t0 ++ snd (DeepgramTTSClient.run acts s0)) in
         http_task_of s0 = AwaitFetch (FetchResolves Examples.not_found)
         /\ evs = [Spec.error_event
                     (JError (lit "Deepgram TTS request failed (404: Not Found)"))]
         /\ Spec.error_then_end evs = false
         /\ http_task_of (fst (DeepgramTTSClient.run acts s0)) = HttpSettled
     | (Throw _, _) => False
     end.
Proof.
  split; [reflexivity|].
  vm_compute. repeat split; reflexivity.
Qed.



(* ===================================================================== *)
(** ** The theorems at concrete inputs *)
(* ===================================================================== *)

Lemma listener_quiet (id : nat) : Spec.quiet (Examples.listener id).
Proof. intros args. reflexivity. Defined.

(** A client built without a key throws on [toStream]. *)
Lemma toStream_empty_key_throws_witness :
  DeepgramTTSClient.toStream Examples.failing_network Examples.no_key (lit "hello") None
  = (Throw DeepgramTTSClient.missing_key_error, [])
  /\ List.filter is_fetch
       (snd (DeepgramTTSClient.toStream Examples.failing_network Examples.no_key
               (lit "hello") None)) = [].
Proof.
  apply (toStream_empty_key_throws Examples.failing_network Examples.no_key
           (lit "hello") None).
  reflexivity.
Defined.

(** A key of three spaces is no key. *)
Lemma toStream_blank_key_throws_witness :
  DeepgramTTSClient.toStream Examples.failing_network
    (DeepgramTTSClient.constructor Examples.blank_key_options) (lit "hello") None
  = (Throw DeepgramTTSClient.missing_key_error, []).
Proof.
  apply (toStream_blank_key_throws Examples.failing_network Examples.blank_key_options
           (lit "   ") (lit "hello") None); reflexivity.
Defined.

(** The rate 1.2 is rendered as the integer percentage 20. *)
Lemma createProsodyOptions_rate_witness :
  JsNumber.to_integer
    (JsNumber.Math_round
       (JsNumber.mul (JsNumber.sub Examples.rate_1_2 (JsNumber.of_Z 1))
          (JsNumber.of_Z 100)))
  = Some 20%Z
  /\ rate (createProsodyOptions Examples.browser (Some Examples.rate_1_2))
     = Some (Spec.signed_percentage 20).
Proof.
  apply (proj1 (createProsodyOptions_rate Examples.browser) Examples.rate_1_2 20%Z).
  - vm_compute. reflexivity.
  - vm_compute. reflexivity.
  - vm_compute. discriminate.
Defined.

(** The 404 session: [error], then [end]. *)
Lemma http_non_success_error_then_end_witness :
  match DeepgramTTSClient.toStream Examples.failing_network Examples.deepgram
          (lit "hello") None with
  | (Normal s0, t0) =>
      let events :=
        emitted (t0 ++ snd (DeepgramTTSClient.run
                              [On (lit "error") (Examples.listener 1); Tick] s0)) in
      events
      = [Spec.error_event (DeepgramTTSClient.request_failed_error Examples.not_found);
         Spec.end_event]
      /\ List.filter (fun ev => JsString.eqb (fst ev) (lit "data")) events = []
      /\ http_task_of (fst (DeepgramTTSClient.run
                              [On (lit "error") (Examples.listener 1); Tick] s0))
         = HttpSettled
  | (Throw _, _) => False
  end.
Proof.
  destruct (DeepgramTTSClient.toStream Examples.failing_network Examples.deepgram
              (lit "hello") None) as [[s0|e] t0] eqn:E.
  - apply (http_non_success_error_then_end Examples.failing_network Examples.deepgram
             (lit "hello") None s0 t0 Examples.not_found
             [On (lit "error") (Examples.listener 1); Tick] E).
    + vm_compute in E. injection E as <- <-. reflexivity.
    + reflexivity.
    + intros cb [H|[H|[]]]; [|discriminate H].
      injection H as <-. apply listener_quiet.
    + vm_compute. lia.
  - vm_compute in E. discriminate E.
Defined.

Lemma no_data_listener_example :
  Spec.no_data_listener [On (lit "end") (Examples.listener 1); Tick;
                         On (lit "error") (Examples.listener 2); Tick].
Proof.
  intros cb [H|[H|[H|[H|[]]]]]; discriminate H.
Defined.

(** A session held with [end] and [error] listeners only pulls nothing. *)
Lemma generator_lazy_start_witness :
  match UniversalTTSClient.toStream Examples.node
          (Examples.universal Examples.strict_provider) (lit "hello") None with
  | (Normal s0, t0) =>
      pulls t0 = 0
      /\ pulls (snd (UniversalTTSClient.run Examples.node
                       [On (lit "end") (Examples.listener 1); Tick;
                        On (lit "error") (Examples.listener 2); Tick] s0)) = 0
  | (Throw _, _) => False
  end.
Proof.
  destruct (UniversalTTSClient.toStream Examples.node
              (Examples.universal Examples.strict_provider) (lit "hello") None)
    as [[s0|e] t0] eqn:E.
  - destruct (generator_lazy_start Examples.node
                (Examples.universal Examples.strict_provider) (lit "hello") None s0 t0 E)
      as (H0 & Hno & _).
    split; [exact H0|].
    exact (proj1 (Hno _ no_data_listener_example)).
  - vm_compute in E. discriminate E.
Defined.

(** The strict provider rejects the rate; the voice-only retry succeeds. *)
Lemma generator_toStream_fallback_witness :
  constructions
    (snd (UniversalTTSClient.toStream Examples.browser
            (Examples.universal Examples.strict_provider) (lit "hello") Examples.faster))
  = [(lit "hello",
      UniversalTTSClient.communicateOptions Examples.browser
        (Examples.universal Examples.strict_provider) Examples.faster);
     (lit "hello",
      {| opt_voice := Some (lit "en-US-AriaNeural");
         opt_rate := None; opt_pitch := None; opt_volume := None |})].
Proof.
  apply (proj1 (generator_toStream_fallback Examples.browser
                  (Examples.universal Examples.strict_provider)
                  Examples.strict_provider (lit "hello") Examples.faster
                  (JError (lit "rate is not supported"))
                  eq_refl eq_refl)).
Defined.

(** A string payload in a Node-like runtime. *)
Lemma generator_unrecognized_payload_witness :
  let s := fst (UniversalTTSClient.run Examples.node
                  [On (lit "data") (Examples.listener 0)]
                  (UniversalTTSClient.new_session (Yield Examples.text_chunk Return))) in
  let '(s', t) := UniversalTTSClient.step Examples.node Tick s in
  warnings t = [(lit "Unexpected audio data type:",
                 [JString (lit "string"); JString (lit "abc")])]
  /\ exists tail,
       emitted t = Spec.data_event (JUint8Array []) :: tail
       /\ (tail = [] \/ exists e, tail = [Spec.error_event e]).
Proof.
  exact (proj1 (generator_unrecognized_payload Examples.node
                  (fst (UniversalTTSClient.run Examples.node
                          [On (lit "data") (Examples.listener 0)]
                          (UniversalTTSClient.new_session
                             (Yield Examples.text_chunk Return))))
                  Examples.text_chunk Return eq_refl eq_refl eq_refl eq_refl)).
Defined.

(** C9 as first stated fails.  Where the shim is installed, an object that
    is no binary data is of no recognised shape, yet nothing is logged: the
    branch of line 304 hands it to the shim, whose fallback gives the
    zero-length array.  And when a [data] listener throws, the stream does
    not continue: the [catch] block emits [error], the task completes and
    nothing more is pulled. *)
Lemma generator_unrecognized_payload_counterexample :
  (Spec.recognized Examples.browser (chunk_data Scenarios.object_chunk) = false
   /\ UniversalTTSClient.audio_bearing Scenarios.object_chunk = true
   /\ let '(s', t) :=
        UniversalTTSClient.step Examples.browser Tick
          (Scenarios.awaiting (Yield Scenarios.object_chunk Return)) in
      warnings t = []
      /\ emitted t = [Spec.data_event (JUint8Array [])]
      /\ ~ Spec.unrecognized_logged_forwarded Scenarios.object_chunk s' t)
  /\ (Spec.recognized Examples.node (chunk_data Examples.text_chunk) = false
      /\ UniversalTTSClient.audio_bearing Examples.text_chunk = true
      /\ let s := fst (UniversalTTSClient.run Examples.node
                         [On (lit "data") (Examples.thrower 0)]
                         (UniversalTTSClient.new_session
                            (Yield Examples.text_chunk Return))) in
         let '(s', t) := UniversalTTSClient.step Examples.node Tick s in
         emitted t = [Spec.data_event (JUint8Array []);
                      Spec.error_event (JError (lit "listener failed"))]
         /\ consuming s' = Completed
         /\ pulls t = 0
         /\ ~ Spec.unrecognized_logged_forwarded Examples.text_chunk s' t).
Proof.
  split.
  - split; [reflexivity|]. split; [reflexivity|].
    vm_compute. split; [reflexivity|]. split; [reflexivity|].
    intros (H & _). discriminate H.
  - split; [reflexivity|]. split; [reflexivity|].
    vm_compute. split; [reflexivity|]. split; [reflexivity|]. split; [reflexivity|].
    intros (_ & H & _). discriminate H.
Qed.



(* ===================================================================== *)
(** * Further properties of the code *)
(* ===================================================================== *)

(** ** Trimmed strings and the clients built from the settings *)

Lemma trimStart_suffix (s : jsstring) :
  exists w, s = w ++ JsString.trimStart s /\ JsString.blank w = true.
Proof.
  induction s as [|c r IH]; simpl.
  - exists []. auto.
  - destruct (JsString.is_white_space c) eqn:E.
    + destruct IH as (w & Hw & Hb). exists (c :: w). split.
      * simpl. f_equal. exact Hw.
      * simpl. rewrite E. exact Hb.
    + exists []. auto.
Qed.

Lemma trimStart_fixed (s : jsstring) :
  JsString.trimStart s = s <->
  match s with [] => True | c :: _ => JsString.is_white_space c = false end.
Proof.
  destruct s as [|c r]; simpl; [tauto|].
  destruct (JsString.is_white_space c) eqn:E; split; try tauto; try discriminate.
  intros H. destruct (trimStart_suffix r) as (w & Hw & _).
  apply (f_equal (@length N)) in H. rewrite Hw in H at 2.
  simpl in H. rewrite length_app in H. lia.
Qed.

Lemma trimStart_idempotent (s : jsstring) :
  JsString.trimStart (JsString.trimStart s) = JsString.trimStart s.
Proof.
  induction s as [|c r IH]; simpl; [reflexivity|].
  destruct (JsString.is_white_space c) eqn:E; [exact IH|].
  simpl. rewrite E. reflexivity.
Qed.

Lemma trimEnd_idempotent (s : jsstring) :
  JsString.trimEnd (JsString.trimEnd s) = JsString.trimEnd s.
Proof.
  unfold JsString.trimEnd. rewrite rev_involutive, trimStart_idempotent. reflexivity.
Qed.

(** Trimming the end keeps what the string starts with. *)
Lemma trimStart_trimEnd (s : jsstring) :
  JsString.trimStart s = s -> JsString.trimStart (JsString.trimEnd s) = JsString.trimEnd s.
Proof.
  intros H. apply trimStart_fixed. apply trimStart_fixed in H.
  destruct (trimStart_suffix (rev s)) as (w & Hw & _).
  assert (Hs : s = JsString.trimEnd s ++ rev w).
  { unfold JsString.trimEnd. rewrite <- rev_app_distr, <- Hw, rev_involutive. reflexivity. }
  destruct (JsString.trimEnd s) as [|c r] eqn:E; [exact I|].
  rewrite Hs in H. exact H.
Qed.

Lemma trim_trimmed (s : jsstring) : Extra.trimmed (JsString.trim s).
Proof.
  unfold Extra.trimmed, JsString.trim. split.
  - apply trimStart_trimEnd, trimStart_idempotent.
  - apply trimEnd_idempotent.
Qed.

Lemma trimmed_trim (s : jsstring) : Extra.trimmed s <-> JsString.trim s = s.
Proof.
  split.
  - intros [H1 H2]. unfold JsString.trim. rewrite H1. exact H2.
  - intros H. rewrite <- H. apply trim_trimmed.
Qed.

(** For the Deepgram engine the voice is never empty and is trimmed. *)
Lemma getVoiceForSettings_deepgram_shape (settings : EdgeTTSPluginSettings) :
  ttsEngine settings = lit "deepgram" ->
  getVoiceForSettings settings <> [] /\ Extra.trimmed (getVoiceForSettings settings).
Proof.
  intros He. unfold getVoiceForSettings.
  replace (JsString.eqb (ttsEngine settings) (lit "deepgram")) with true
    by (symmetry; apply eqb_lit_true; exact He).
  cbv zeta.
  destruct (JsString.truthy
              (JsString.trim (JsString.or_else (deepgramModel settings)
                                (lit "aura-asteria-en")))) eqn:T.
  - split; [|apply trim_trimmed].
    intros E. rewrite E in T. discriminate T.
  - split; [discriminate|]. split; reflexivity.
Qed.

(** X1. With the Deepgram engine selected, [createTTSClient] never throws,
    whatever package was loaded, and the client it builds has as model
    exactly [getVoiceForSettings(settings)]: the constructor's own default
    and [trim] change nothing, the model is not empty and has no white
    space around it.  The key is the trimmed key of the settings, the
    format is mp3 and the base URL is the default one. *)
Theorem createTTSClient_deepgram (TTSPackage : option package)
    (settings : EdgeTTSPluginSettings) :
  ttsEngine settings = lit "deepgram" ->
  exists c,
    createTTSClient TTSPackage settings = Normal (DeepgramClient c)
    /\ DeepgramTTSClient.model c = getVoiceForSettings settings
    /\ DeepgramTTSClient.model c <> []
    /\ Extra.trimmed (DeepgramTTSClient.model c)
    /\ DeepgramTTSClient.apiKey c
       = JsString.trim (JsString.or_else (deepgramApiKey settings) (lit ""))
    /\ DeepgramTTSClient.format c = DeepgramTTSClient.Mp3
    /\ DeepgramTTSClient.baseUrl c = lit "https://api.deepgram.com".
Proof.
  intros He. destruct (getVoiceForSettings_deepgram_shape settings He) as [Hne Htr].
  unfold createTTSClient.
  replace (JsString.eqb (ttsEngine settings) (lit "deepgram")) with true
    by (symmetry; apply eqb_lit_true; exact He).
  eexists. split; [reflexivity|].
  assert (Hm : JsString.trim
                 (JsString.or_else (Some (getVoiceForSettings settings))
                    (lit "aura-asteria-en"))
               = getVoiceForSettings settings).
  { apply trimmed_trim in Htr.
    unfold JsString.or_else.
    destruct (getVoiceForSettings settings) as [|ch r]; [congruence|exact Htr]. }
  unfold DeepgramTTSClient.constructor. cbn [DeepgramTTSClient.model
    DeepgramTTSClient.apiKey DeepgramTTSClient.format DeepgramTTSClient.baseUrl
    DeepgramTTSClient.opt_model DeepgramTTSClient.opt_apiKey DeepgramTTSClient.opt_baseUrl].
  rewrite Hm. repeat split; try assumption; try apply Htr.
Qed.

Lemma setMetadata_model_shape (voice format : option jsstring) (c : DeepgramTTSClient.t) :
  DeepgramTTSClient.model c <> [] /\ Extra.trimmed (DeepgramTTSClient.model c) ->
  DeepgramTTSClient.model (DeepgramTTSClient.setMetadata voice format c) <> []
  /\ Extra.trimmed (DeepgramTTSClient.model (DeepgramTTSClient.setMetadata voice format c)).
Proof.
  intros H. unfold DeepgramTTSClient.setMetadata. simpl.
  destruct voice as [v|]; [|exact H].
  destruct (JsString.truthy (JsString.trim v)) eqn:T; [|exact H].
  split; [|apply trim_trimmed]. intros E. rewrite E in T. discriminate T.
Qed.

(** X2. [setMetadata] of the Deepgram client, called any number of times,
    never touches the API key or the base URL, and keeps the model
    non-empty and trimmed: a voice that is absent, empty or made of white
    space leaves the model as it is, any other voice replaces it by its
    trimmed form. *)
Theorem setMetadata_invariants (calls : list (option jsstring * option jsstring))
    (c : DeepgramTTSClient.t) :
  DeepgramTTSClient.apiKey (Extra.setMetadata_all calls c) = DeepgramTTSClient.apiKey c
  /\ DeepgramTTSClient.baseUrl (Extra.setMetadata_all calls c) = DeepgramTTSClient.baseUrl c
  /\ (DeepgramTTSClient.model c <> [] /\ Extra.trimmed (DeepgramTTSClient.model c) ->
      DeepgramTTSClient.model (Extra.setMetadata_all calls c) <> []
      /\ Extra.trimmed (DeepgramTTSClient.model (Extra.setMetadata_all calls c)))
  /\ (forall voice format,
        DeepgramTTSClient.model (DeepgramTTSClient.setMetadata voice format c)
        = match voice with
          | Some v => if JsString.blank v then DeepgramTTSClient.model c
                      else JsString.trim v
          | None => DeepgramTTSClient.model c
          end).
Proof.
  split; [|split; [|split]].
  - revert c. induction calls as [|call calls IH]; intros c; [reflexivity|].
    unfold Extra.setMetadata_all in *. simpl. rewrite IH. reflexivity.
  - revert c. induction calls as [|call calls IH]; intros c; [reflexivity|].
    unfold Extra.setMetadata_all in *. simpl. rewrite IH. reflexivity.
  - revert c. induction calls as [|call calls IH]; intros c H; [exact H|].
    unfold Extra.setMetadata_all in *. simpl. apply IH.
    apply setMetadata_model_shape. exact H.
  - intros voice format. unfold DeepgramTTSClient.setMetadata. simpl.
    destruct voice as [v|]; [|reflexivity].
    rewrite truthy_trim. destruct (JsString.blank v); reflexivity.
Qed.

(** ** The base URL *)

Lemma drop_slashes_spec (s : jsstring) :
  exists n, s = repeat 47%N n ++ Encoding.drop_slashes s
            /\ match Encoding.drop_slashes s with
               | c :: _ => c <> 47%N
               | [] => True
               end.
Proof.
  induction s as [|c r IH]; simpl.
  - exists 0. auto.
  - destruct (N.eqb_spec c 47) as [->|Hne].
    + destruct IH as (n & Hn & Hh). exists (S n). split; [|exact Hh].
      simpl. f_equal. exact Hn.
    + exists 0. auto.
Qed.

Lemma rev_repeat {A} (x : A) (n : nat) : rev (repeat x n) = repeat x n.
Proof.
  induction n as [|n IH]; [reflexivity|].
  simpl. rewrite IH. symmetry. apply repeat_cons.
Qed.

(** X3. The constructor of the Deepgram client removes the trailing slashes
    of the base URL, all of them and nothing else: the URL given (or the
    default, when none or an empty one is given) is the stored URL followed
    by slashes only, and the stored URL does not end in a slash. *)
Theorem constructor_baseUrl (o : DeepgramTTSClient.options) :
  let given := JsString.or_else (DeepgramTTSClient.opt_baseUrl o)
                 (lit "https://api.deepgram.com") in
  let stored := DeepgramTTSClient.baseUrl (DeepgramTTSClient.constructor o) in
  (exists n, given = stored ++ repeat 47%N n)
  /\ List.last stored 0%N <> 47%N
  /\ Encoding.strip_trailing_slashes stored = stored.
Proof.
  cbv zeta. unfold DeepgramTTSClient.constructor. simpl.
  set (given := JsString.or_else (DeepgramTTSClient.opt_baseUrl o)
                  (lit "https://api.deepgram.com")).
  unfold Encoding.strip_trailing_slashes.
  destruct (drop_slashes_spec (rev given)) as (n & Hn & Hh).
  assert (Hg : given = rev (Encoding.drop_slashes (rev given)) ++ repeat 47%N n).
  { rewrite <- (rev_involutive given) at 1. rewrite Hn at 1.
    rewrite rev_app_distr, rev_repeat. reflexivity. }
  assert (Hlast : List.last (rev (Encoding.drop_slashes (rev given))) 0%N <> 47%N).
  { destruct (Encoding.drop_slashes (rev given)) as [|c r]; simpl; [discriminate|].
    rewrite last_last. exact Hh. }
  split; [exists n; exact Hg|]. split; [exact Hlast|].
  rewrite rev_involutive.
  destruct (Encoding.drop_slashes (rev given)) as [|c r] eqn:E; [reflexivity|].
  simpl. destruct (N.eqb_spec c 47) as [->|_]; [contradiction|reflexivity].
Qed.

(** ** The request of the HTTP client *)

Lemma hex_digit_unreserved (n : N) :
  (n < 16)%N -> Encoding.uri_unreserved (Encoding.hex_digit n) = true.
Proof.
  intros H. unfold Encoding.hex_digit.
  assert (Hn : In n [0;1;2;3;4;5;6;7;8;9;10;11;12;13;14;15]%N).
  { simpl.
    destruct n as [|p]; [tauto|].
    do 15 (destruct p as [p|p|]; try lia; simpl; try tauto). }
  simpl in Hn.
  repeat (destruct Hn as [<-|Hn]; [reflexivity|]). destruct Hn.
Qed.

Lemma percent_encode_safe (b : byte) : Forall Extra.url_safe (Encoding.percent_encode b).
Proof.
  unfold Encoding.percent_encode.
  pose proof (Byte.to_N_bounded b) as Hb.
  constructor; [right; reflexivity|].
  constructor; [|constructor; [|constructor]].
  - left. apply hex_digit_unreserved.
    apply N.Div0.div_lt_upper_bound. lia.
  - left. apply hex_digit_unreserved. apply N.mod_lt. lia.
Qed.

Lemma encode_code_points_safe (cps : list (option N)) (out : jsstring) :
  Encoding.encode_code_points cps = Some out -> Forall Extra.url_safe out.
Proof.
  revert out. induction cps as [|cp r IH]; intros out; simpl.
  - intros [= <-]. constructor.
  - destruct cp as [cp|]; [|discriminate].
    destruct (Encoding.encode_code_points r) as [tl|]; [|discriminate].
    intros [= <-]. apply Forall_app. split; [|apply IH; reflexivity].
    destruct (Encoding.uri_unreserved cp) eqn:E.
    + constructor; [left; exact E|constructor].
    + induction (Encoding.utf8_of_code_point cp) as [|b bs IHb]; [constructor|].
      cbn [List.map List.concat].
      apply Forall_app. split; [apply percent_encode_safe|exact IHb].
Qed.

Lemma unreserved_not_surrogate (c : N) :
  Encoding.uri_unreserved c = true ->
  Encoding.is_high_surrogate c = false /\ Encoding.is_low_surrogate c = false.
Proof.
  unfold Encoding.uri_unreserved, Encoding.is_high_surrogate, Encoding.is_low_surrogate.
  intros H.
  assert (Hc : (c <= 126)%N).
  { repeat (apply orb_true_iff in H as [H|H]);
      repeat match goal with
             | H : _ && _ = true |- _ => apply andb_true_iff in H as [? ?]
             | H : (_ <=? _)%N = true |- _ => apply N.leb_le in H
             | H : (_ =? _)%N = true |- _ => apply N.eqb_eq in H
             end; lia. }
  split; apply andb_false_iff; left; apply N.leb_gt; lia.
Qed.

Lemma encodeURIComponent_unreserved (s : jsstring) :
  Forall (fun c => Encoding.uri_unreserved c = true) s ->
  Encoding.encodeURIComponent s = Some s.
Proof.
  unfold Encoding.encodeURIComponent.
  induction 1 as [|c r Hc _ IH]; [reflexivity|].
  destruct (unreserved_not_surrogate c Hc) as [Hh Hl].
  cbn [Encoding.code_points]. rewrite Hh, Hl.
  cbn [Encoding.encode_code_points]. rewrite IH, Hc. reflexivity.
Qed.

(** The first effect of [toStream] is its request. *)
Lemma toStream_request_shape (net : network) (c : DeepgramTTSClient.t)
    (text : jsstring) (p : option prosody_argument) (s0 : http_session) (t0 : trace) :
  DeepgramTTSClient.toStream net c text p = (Normal s0, t0) ->
  exists m rest,
    Encoding.encodeURIComponent (DeepgramTTSClient.model c) = Some m
    /\ Forall Extra.url_safe m
    /\ (Forall (fun ch => Encoding.uri_unreserved ch = true) (DeepgramTTSClient.model c) ->
        m = DeepgramTTSClient.model c)
    /\ t0 = Fetch (DeepgramTTSClient.baseUrl c ++ lit "/v1/speak?model=" ++ m
                   ++ lit "&encoding="
                   ++ DeepgramTTSClient.encoding_name (DeepgramTTSClient.format c))
                  (lit "Token " ++ DeepgramTTSClient.apiKey c)
                  {| body_text := text;
                     body_speed := DeepgramTTSClient.speed_of p |}
            :: rest
    /\ List.filter is_fetch rest = []
    /\ SimpleStreamAdapter.listeners (adapter s0) = ∅.
Proof.
  unfold DeepgramTTSClient.toStream.
  destruct (negb (JsString.truthy (DeepgramTTSClient.apiKey c))); [discriminate|].
  destruct (Encoding.encodeURIComponent (DeepgramTTSClient.model c)) as [m|] eqn:Em;
    [|discriminate].
  unfold DeepgramTTSClient.start, DeepgramTTSClient.suspend. eff_run.
  assert (Hsafe : Forall Extra.url_safe m) by (exact (encode_code_points_safe _ _ Em)).
  assert (Hid : Forall (fun ch => Encoding.uri_unreserved ch = true)
                  (DeepgramTTSClient.model c) -> m = DeepgramTTSClient.model c).
  { intros H. rewrite (encodeURIComponent_unreserved _ H) in Em. congruence. }
  match goal with
  | |- context [net ?u ?a ?b] => destruct (net u a b) as [e|e|r]
  end; eff_run.
  - rewrite catch_block_new. cbn beta iota zeta. intros [= <- <-].
    exists m. eexists. repeat split; try eassumption; reflexivity.
  - intros [= <- <-]. exists m, []. repeat split; try eassumption; reflexivity.
  - intros [= <- <-]. exists m, []. repeat split; try eassumption; reflexivity.
Qed.

(** X4. When [toStream] of the HTTP client returns, it has made its
    request already, as the first thing it did and before any listener
    exists: one [fetch] of the URL
    [<baseUrl>/v1/speak?model=<m>&encoding=<mp3|opus>], authorised by
    ["Token " + apiKey], with the text as it was given and the speed of
    [speed_of].  The model [m] is the encoded model name: every character
    of it is a letter, a digit, one of [- _ . ! ~ * ' ( )] or [%], so a
    model name cannot add or end a query parameter; a model name made of
    the kept characters appears as it is. *)
Theorem toStream_request (net : network) (c : DeepgramTTSClient.t)
    (text : jsstring) (p : option prosody_argument) (s0 : http_session) (t0 : trace) :
  DeepgramTTSClient.toStream net c text p = (Normal s0, t0) ->
  exists m rest,
    Encoding.encodeURIComponent (DeepgramTTSClient.model c) = Some m
    /\ Forall Extra.url_safe m
    /\ (Forall (fun ch => Encoding.uri_unreserved ch = true) (DeepgramTTSClient.model c) ->
        m = DeepgramTTSClient.model c)
    /\ t0 = Fetch (DeepgramTTSClient.baseUrl c ++ lit "/v1/speak?model=" ++ m
                   ++ lit "&encoding="
                   ++ DeepgramTTSClient.encoding_name (DeepgramTTSClient.format c))
                  (lit "Token " ++ DeepgramTTSClient.apiKey c)
                  {| body_text := text;
                     body_speed := DeepgramTTSClient.speed_of p |}
            :: rest
    /\ List.filter is_fetch rest = []
    /\ SimpleStreamAdapter.listeners (adapter s0) = ∅.
Proof. apply toStream_request_shape. Qed.

(** ** What a session of the HTTP client does after [toStream] *)

Lemma forEach_call_invokes {S} (cbs : list callback) (args : list js_val) (s : S) :
  Forall (fun e => exists id, e = Invoke id args) (snd (forEach_call cbs args s)).
Proof.
  induction cbs as [|cb r IH]; simpl; [constructor|].
  unfold call_listener. eff_run.
  destruct (cb_run cb args); cbn beta iota zeta.
  - repeat constructor. eexists. reflexivity.
  - destruct (forEach_call r args s) as [[c s'] t']. simpl in *.
    constructor; [eexists; reflexivity|exact IH].
Qed.

Lemma on_adapter_emit_effects (event : jsstring) (args : list js_val) (s : http_session) :
  Forall Extra.http_session_effect
    (snd (DeepgramTTSClient.on_adapter (SimpleStreamAdapter.emit event args) s)).
Proof.
  unfold DeepgramTTSClient.on_adapter, SimpleStreamAdapter.emit. eff_run.
  destruct (JsString.eqb event (lit "end")); cbn beta iota zeta;
    match goal with |- context [forEach_call ?l ?x ?st] =>
      pose proof (forEach_call_invokes l x st) as H;
      destruct (forEach_call l x st) as [[r s'] t'] end;
    simpl in *; destruct r; simpl;
    (constructor; [exact I|]);
    rewrite ?app_nil_r;
    (eapply Forall_impl; [exact H|]); intros x [id ->]; exact I.
Qed.

Ltac emit_effects :=
  match goal with
  | |- context [DeepgramTTSClient.on_adapter (SimpleStreamAdapter.emit ?ev ?args) ?s] =>
      let H := fresh "Heffects" in
      let r := fresh "r" in
      let s1 := fresh "s" in
      let t1 := fresh "t" in
      pose proof (on_adapter_emit_effects ev args s) as H;
      destruct (DeepgramTTSClient.on_adapter (SimpleStreamAdapter.emit ev args) s)
        as [[r s1] t1];
      simpl in H;
      destruct r; cbn beta iota zeta
  end.

Ltac effects_done :=
  simpl; rewrite ?app_nil_r;
  repeat first [ assumption
               | apply List.Forall_nil
               | apply List.Forall_cons; [exact I|]
               | apply Forall_app; split ].

Lemma catch_block_effects (e : js_val) (s : http_session) :
  Forall Extra.http_session_effect (snd (DeepgramTTSClient.catch_block e s)).
Proof.
  unfold DeepgramTTSClient.catch_block. eff_run.
  emit_effects; [emit_effects|]; effects_done.
Qed.

Ltac catch_effects :=
  match goal with
  | |- context [DeepgramTTSClient.catch_block ?e ?s] =>
      let H := fresh "Hceffects" in
      let r := fresh "r" in
      let s1 := fresh "s" in
      let t1 := fresh "t" in
      pose proof (catch_block_effects e s) as H;
      destruct (DeepgramTTSClient.catch_block e s) as [[r s1] t1];
      simpl in H; cbn beta iota zeta
  end.

Lemma http_step_effects (a : action) (s : http_session) :
  Forall Extra.http_session_effect (snd (DeepgramTTSClient.step a s)).
Proof.
  destruct a as [ev cb|]; unfold DeepgramTTSClient.step.
  - unfold discard, DeepgramTTSClient.on_adapter.
    rewrite SimpleStreamAdapter_on_spec. simpl.
    destruct (JsString.eqb ev (lit "end") && SimpleStreamAdapter.hasEnded (adapter s));
      effects_done.
  - unfold DeepgramTTSClient.resume, DeepgramTTSClient.suspend. eff_run.
    destruct (http_task_of s) as [o|rd|]; cbn beta iota zeta.
    + unfold DeepgramTTSClient.after_fetch.
      destruct o as [e|e|r]; eff_run.
      * catch_effects. effects_done.
      * catch_effects. effects_done.
      * destruct (negb (response_ok r)); eff_run.
        -- catch_effects. effects_done.
        -- destruct (body r) as [rd|]; eff_run.
           ++ effects_done.
           ++ catch_effects. effects_done.
    + unfold DeepgramTTSClient.after_read.
      destruct rd as [v rest| |e]; eff_run.
      * destruct (truthy v); eff_run.
        -- emit_effects.
           ++ effects_done.
           ++ catch_effects. effects_done.
        -- effects_done.
      * emit_effects.
        -- effects_done.
        -- catch_effects. effects_done.
      * catch_effects. effects_done.
    + effects_done.
Qed.

Lemma http_run_effects (acts : list action) (s : http_session) :
  Forall Extra.http_session_effect (snd (DeepgramTTSClient.run acts s)).
Proof.
  revert s. induction acts as [|a acts IH]; intros s; simpl; [constructor|].
  pose proof (http_step_effects a s) as H1.
  destruct (DeepgramTTSClient.step a s) as [s1 t1].
  specialize (IH s1). destruct (DeepgramTTSClient.run acts s1) as [s2 t2].
  simpl in *. apply Forall_app. split; assumption.
Qed.

(** X5. A session of the HTTP client makes one network request in its
    whole life, the one [toStream] made: whatever the response is, whatever
    the listeners do (throwing ones included) and in whatever order
    listeners are registered and promises settle, nothing after [toStream]
    is a [fetch] (no retry), a provider construction or a generator pull;
    the session only emits events, calls listeners, writes to the console
    and reads the response body. *)
Theorem http_session_single_request (net : network) (c : DeepgramTTSClient.t)
    (text : jsstring) (p : option prosody_argument) (s0 : http_session) (t0 : trace)
    (acts : list action) :
  DeepgramTTSClient.toStream net c text p = (Normal s0, t0) ->
  length (List.filter is_fetch (t0 ++ snd (DeepgramTTSClient.run acts s0))) = 1
  /\ Forall Extra.http_session_effect (snd (DeepgramTTSClient.run acts s0)).
Proof.
  intros Hs.
  destruct (toStream_request_shape _ _ _ _ _ _ Hs) as (m & rest & _ & _ & _ & -> & Hrest & _).
  pose proof (http_run_effects acts s0) as H.
  split; [|exact H].
  rewrite List.filter_app. cbn [List.filter is_fetch]. rewrite Hrest.
  replace (List.filter is_fetch (snd (DeepgramTTSClient.run acts s0))) with (@nil effect);
    [reflexivity|].
  symmetry. induction H as [|e t He _ IH]; [reflexivity|].
  simpl. destruct e; simpl in He; try contradiction; exact IH.
Qed.

(** ** The events of a session of the HTTP client *)

Lemma reader_events_values (rd : reader) :
  Spec.reader_events rd
  = List.map Spec.data_event (List.filter truthy (Extra.values_of rd))
    ++ match Extra.failure_of rd with
       | None => [Spec.end_event]
       | Some e => [Spec.error_event e; Spec.end_event]
       end.
Proof.
  induction rd as [v rest IH| |e]; simpl; try reflexivity.
  rewrite IH. destruct (truthy v); reflexivity.
Qed.

(** A session that waits for the answer to its request has emitted nothing
    and has no listener. *)
Lemma http_toStream_pending (net : network) (c : DeepgramTTSClient.t)
    (text : jsstring) (p : option prosody_argument) (s0 : http_session) (t0 : trace)
    (o : fetch_outcome) :
  DeepgramTTSClient.toStream net c text p = (Normal s0, t0) ->
  http_task_of s0 = AwaitFetch o ->
  SimpleStreamAdapter.listeners (adapter s0) = ∅ /\ emitted t0 = []
  /\ SimpleStreamAdapter.hasEnded (adapter s0) = false.
Proof.
  intros Hs Ht. revert Hs. unfold DeepgramTTSClient.toStream.
  destruct (negb (JsString.truthy (DeepgramTTSClient.apiKey c))); [discriminate|].
  destruct (Encoding.encodeURIComponent (DeepgramTTSClient.model c)); [|discriminate].
  unfold DeepgramTTSClient.start, DeepgramTTSClient.suspend. eff_run.
  match goal with
  | |- context [net ?u ?a ?b] => destruct (net u a b) as [e|e|r']
  end; eff_run.
  - rewrite catch_block_new. cbn beta iota zeta.
    intros [= <- <-]. discriminate Ht.
  - intros [= <- <-]. auto.
  - intros [= <- <-]. auto.
Qed.

(** The events of a session that waits for the answer [o], run with quiet
    listeners until its task has settled. *)
Lemma http_pending_events (net : network) (c : DeepgramTTSClient.t)
    (text : jsstring) (p : option prosody_argument) (s0 : http_session) (t0 : trace)
    (o : fetch_outcome) (acts : list action) :
  DeepgramTTSClient.toStream net c text p = (Normal s0, t0) ->
  http_task_of s0 = AwaitFetch o ->
  Spec.quiet_schedule acts ->
  Spec.task_steps (AwaitFetch o) <= Spec.ticks acts ->
  emitted (t0 ++ snd (DeepgramTTSClient.run acts s0)) = Spec.fetch_events o
  /\ http_task_of (fst (DeepgramTTSClient.run acts s0)) = HttpSettled.
Proof.
  intros Hs Ht Hacts Hticks.
  destruct (http_toStream_pending _ _ _ _ _ _ _ Hs Ht) as (Hl & He & _).
  assert (Hq : Spec.quiet_listeners (SimpleStreamAdapter.listeners (adapter s0))).
  { rewrite Hl. apply quiet_listeners_empty. }
  pose proof (http_run_quiet acts s0 Hacts Hq) as Hrun.
  pose proof (http_run_completes acts s0) as Hdone. rewrite Ht in Hdone.
  specialize (Hdone Hticks).
  destruct (DeepgramTTSClient.run acts s0) as [s1 t1]. simpl in *.
  destruct Hrun as [_ E]. rewrite Hdone, Ht in E. simpl in E. rewrite app_nil_r in E.
  split; [|exact Hdone]. rewrite emitted_app, He, E. reflexivity.
Qed.

(** X6. The HTTP client forwards what it reads, in order and as it is.  For
    a successful response (status 200-299) with a body, run with listeners
    that return normally until the task has settled, the events emitted are
    one [data] event per truthy value read, carrying that value, in the
    order of the reads (a falsy value is skipped, nothing is merged, split
    or buffered), and then [end] when the body ends, or [error] with the
    cause and then [end] when a read fails. *)
Theorem http_success_events (net : network) (c : DeepgramTTSClient.t)
    (text : jsstring) (p : option prosody_argument) (s0 : http_session) (t0 : trace)
    (r : response) (rd : reader) (acts : list action) :
  DeepgramTTSClient.toStream net c text p = (Normal s0, t0) ->
  http_task_of s0 = AwaitFetch (FetchResolves r) ->
  response_ok r = true ->
  body r = Some rd ->
  Spec.quiet_schedule acts ->
  2 + Spec.reader_length rd <= Spec.ticks acts ->
  emitted (t0 ++ snd (DeepgramTTSClient.run acts s0))
  = List.map Spec.data_event (List.filter truthy (Extra.values_of rd))
    ++ match Extra.failure_of rd with
       | None => [Spec.end_event]
       | Some e => [Spec.error_event e; Spec.end_event]
       end.
Proof.
  intros Hs Ht Hok Hbody Hacts Hticks.
  destruct (http_pending_events net c text p s0 t0 _ acts Hs Ht Hacts) as [E _].
  - simpl. rewrite Hok, Hbody. exact Hticks.
  - rewrite E. simpl. rewrite Hok, Hbody. simpl. apply reader_events_values.
Qed.

(** X7. In a session whose listeners all return normally, a request that
    fails before a body can be read ends the session with [error] and then
    [end] and without any [data] event: when the [fetch] promise rejects,
    the [error] event carries the rejection value itself; when the response
    is a success without a readable body, it carries the error "Deepgram
    response stream is not readable.".  One resumption of the task is
    enough.  (A listener that throws is left out: an [error] listener that
    throws leaves the [catch] block before [end].) *)
Theorem http_request_failure_events (net : network) (c : DeepgramTTSClient.t)
    (text : jsstring) (p : option prosody_argument) (s0 : http_session) (t0 : trace)
    (o : fetch_outcome) (cause : js_val) (acts : list action) :
  DeepgramTTSClient.toStream net c text p = (Normal s0, t0) ->
  http_task_of s0 = AwaitFetch o ->
  (o = FetchRejects cause
   \/ exists r, o = FetchResolves r /\ response_ok r = true /\ body r = None
                /\ cause = JError (lit "Deepgram response stream is not readable.")) ->
  Spec.quiet_schedule acts ->
  0 < Spec.ticks acts ->
  emitted (t0 ++ snd (DeepgramTTSClient.run acts s0))
  = [Spec.error_event cause; Spec.end_event].
Proof.
  intros Hs Ht Ho Hacts Hticks.
  destruct (http_pending_events net c text p s0 t0 _ acts Hs Ht Hacts) as [E _].
  - destruct Ho as [->|(r & -> & Hok & Hb & _)]; simpl; [lia|].
    rewrite Hok, Hb. lia.
  - rewrite E. destruct Ho as [->|(r & -> & Hok & Hb & ->)]; simpl; [reflexivity|].
    rewrite Hok, Hb. reflexivity.
Qed.

(** X8. When the call of [fetch] itself throws, the task fails before
    [toStream] returns: [error] (with the thrown value) and [end] are
    emitted at once, when no listener can be registered yet, and the adapter
    is returned already ended.  Nothing is emitted afterwards, so a listener
    registered for [error] is never called (its registration has no effect),
    and the consumer learns of the end only because a listener registered
    for [end] is called at its registration. *)
Theorem http_fetch_throws (net : network) (c : DeepgramTTSClient.t)
    (text : jsstring) (p : option prosody_argument) (s0 : http_session) (t0 : trace)
    (e : js_val) :
  (forall url authorization b, net url authorization b = FetchThrows e) ->
  DeepgramTTSClient.toStream net c text p = (Normal s0, t0) ->
  (exists url authorization b,
     t0 = [Fetch url authorization b;
           Console ErrorLevel (lit "Deepgram TTS streaming error:") [e];
           Emit (lit "error") [e]; Emit (lit "end") []])
  /\ forall acts,
       let s := fst (DeepgramTTSClient.run acts s0) in
       emitted (snd (DeepgramTTSClient.run acts s0)) = []
       /\ (forall cb, snd (DeepgramTTSClient.step (On (lit "error") cb) s) = [])
       /\ (forall cb, snd (DeepgramTTSClient.step (On (lit "end") cb) s)
                      = [Invoke (cb_id cb) []]).
Proof.
  intros Hnet Hs.
  assert (Hinit : (exists url authorization b,
                      t0 = [Fetch url authorization b;
                            Console ErrorLevel (lit "Deepgram TTS streaming error:") [e];
                            Emit (lit "error") [e]; Emit (lit "end") []])
                  /\ http_task_of s0 = HttpSettled
                  /\ SimpleStreamAdapter.hasEnded (adapter s0) = true).
  { revert Hs. unfold DeepgramTTSClient.toStream.
    destruct (negb (JsString.truthy (DeepgramTTSClient.apiKey c))); [discriminate|].
    destruct (Encoding.encodeURIComponent (DeepgramTTSClient.model c)); [|discriminate].
    unfold DeepgramTTSClient.start, DeepgramTTSClient.suspend. eff_run.
    rewrite Hnet. eff_run. rewrite catch_block_new. cbn beta iota zeta.
    intros [= <- <-]. split; [|split; reflexivity].
    do 3 eexists. reflexivity. }
  destruct Hinit as (Ht0 & Hsettled & Hended).
  split; [exact Ht0|].
  intros acts. cbv zeta.
  destruct (http_settled_silent acts s0 Hsettled) as [Hsilent _].
  pose proof (http_run_any acts s0) as Hany.
  destruct (DeepgramTTSClient.run acts s0) as [s1 t1]. cbn [fst snd] in *.
  destruct Hany as (Hmono & _ & _). specialize (Hmono Hended).
  split; [exact Hsilent|]. split; intros cb.
  - unfold DeepgramTTSClient.step, discard, DeepgramTTSClient.on_adapter.
    rewrite SimpleStreamAdapter_on_spec. reflexivity.
  - unfold DeepgramTTSClient.step, discard, DeepgramTTSClient.on_adapter.
    rewrite SimpleStreamAdapter_on_spec, Hmono. reflexivity.
Qed.

(** ** The events of a session of the universal client *)



(** X10. A chunk that is not audio-bearing (its type is not [audio], or its
    payload is falsy: absent, empty string, zero) is dropped without a
    trace, whatever the listeners are: the resumption emits no event, calls
    no listener and writes nothing to the console; it only pulls the next
    chunk and waits for it. *)
Theorem generator_drops_other_chunks (rt : runtime) (s : gen_session)
    (c : chunk) (rest : generator) :
  consuming s = AwaitNext ->
  asyncGenerator s = Yield c rest ->
  chunk_type c <> lit "audio" \/ truthy (chunk_data c) = false ->
  UniversalTTSClient.step rt Tick s
  = ({| listeners := listeners s; isConsuming := isConsuming s;
        asyncGenerator := rest; consuming := AwaitNext |},
     [Pull]).
Proof.
  intros Hc Hg Hno.
  assert (Hab : UniversalTTSClient.audio_bearing c = false).
  { unfold UniversalTTSClient.audio_bearing. destruct Hno as [Hty|Hd].
    - apply eqb_lit_false in Hty. rewrite Hty. reflexivity.
    - rewrite Hd. apply andb_false_r. }
  unfold UniversalTTSClient.step, discard, UniversalTTSClient.resume. eff_run.
  rewrite Hc. cbn beta iota zeta. rewrite Hg.
  unfold UniversalTTSClient.after_next, UniversalTTSClient.loop_body,
    UniversalTTSClient.pull. eff_run.
  rewrite Hab. eff_run. reflexivity.
Qed.

(** The step that forwards a payload the chain converts without a
    warning. *)
Lemma generator_converted_step (rt : runtime) (s : gen_session)
    (c : chunk) (rest : generator) :
  consuming s = AwaitNext ->
  asyncGenerator s = Yield c rest ->
  UniversalTTSClient.audio_bearing c = true ->
  UniversalTTSClient.converts rt (chunk_data c) = true ->
  Forall Spec.quiet (listeners_of (lit "data") (listeners s)) ->
  UniversalTTSClient.step rt Tick s
  = ({| listeners := listeners s; isConsuming := isConsuming s;
        asyncGenerator := rest; consuming := AwaitNext |},
     Emit (lit "data") [Spec.audioData_value rt (chunk_data c)]
       :: List.map (fun cb => Invoke (cb_id cb) [Spec.audioData_value rt (chunk_data c)])
            (listeners_of (lit "data") (listeners s))
       ++ [Pull]).
Proof.
  intros Hc Hg Hab Hrec Hq.
  unfold UniversalTTSClient.step, discard, UniversalTTSClient.resume. eff_run.
  rewrite Hc. cbn beta iota zeta. rewrite Hg.
  unfold UniversalTTSClient.after_next, UniversalTTSClient.loop_body,
    UniversalTTSClient.pull. eff_run.
  rewrite Hab. eff_run.
  rewrite audioData_of_spec, Hrec. cbn beta iota zeta.
  rewrite generator_emit_quiet by exact Hq. cbn beta iota zeta.
  reflexivity.
Qed.


(** X12. In a runtime where the Buffer polyfill is installed (no [Buffer],
    a [window]) an object payload that is no binary data is not reported:
    the polyfill's [from] turns it into a zero-length array, and the
    resumption emits one [data] event with that empty array and writes
    nothing to the console. *)
Theorem generator_polyfill_silent (rt : runtime) (s : gen_session)
    (c : chunk) (rest : generator) :
  native_Buffer rt = false -> has_window rt = true ->
  consuming s = AwaitNext ->
  asyncGenerator s = Yield c rest ->
  chunk_type c = lit "audio" ->
  (exists id, chunk_data c = JObject id) \/ (exists m, chunk_data c = JError m)
  \/ (exists b, chunk_data c = JBuffer b) ->
  Forall Spec.quiet (listeners_of (lit "data") (listeners s)) ->
  UniversalTTSClient.step rt Tick s
  = ({| listeners := listeners s; isConsuming := isConsuming s;
        asyncGenerator := rest; consuming := AwaitNext |},
     Emit (lit "data") [JUint8Array []]
       :: List.map (fun cb => Invoke (cb_id cb) [JUint8Array []])
            (listeners_of (lit "data") (listeners s))
       ++ [Pull]).
Proof.
  intros Hn Hw Hc Hg Hty Hd Hq.
  assert (H : UniversalTTSClient.audio_bearing c = true
              /\ UniversalTTSClient.converts rt (chunk_data c) = true
              /\ Spec.audioData_value rt (chunk_data c) = JUint8Array []).
  { unfold UniversalTTSClient.audio_bearing, UniversalTTSClient.converts, Spec.audioData_value,
      Buffer_isBuffer, has_BufferPolyfill.
    rewrite Hty, Hn, Hw. destruct Hd as [[id ->]|[[m ->]|[b ->]]]; auto. }
  destruct H as (Hab & Hrec & Hval).
  rewrite (generator_converted_step rt s c rest Hc Hg Hab Hrec Hq), Hval. reflexivity.
Qed.

(** ** Pulls *)

Lemma pulls_cons (e : effect) (t : trace) :
  pulls (e :: t) = (if is_pull e then 1 else 0) + pulls t.
Proof. unfold pulls. simpl. destruct (is_pull e); reflexivity. Qed.





(** ** Creating a session of the universal client *)

(** X14. Only a failing constructor is retried.  When the first
    construction succeeds and [communicate.stream()] throws, [toStream]
    makes no second construction: it logs the error and throws "Failed to
    create TTS stream: " followed by the message of the thrown error, or by
    "Unknown error" when the thrown value is not an [Error]; no session is
    returned. *)
Theorem generator_stream_failure_not_retried (rt : runtime) (c : UniversalTTSClient.t)
    (P : provider) (text : jsstring) (p : option prosody_argument) (e : js_val) :
  UniversalTTSClient.CommunicateClass c = Some P ->
  P text (UniversalTTSClient.communicateOptions rt c p) = CtorReturns (StreamThrows e) ->
  UniversalTTSClient.toStream rt c text p
  = (Throw (JError (lit "Failed to create TTS stream: "
                    ++ match e with
                       | JError message => message
                       | _ => lit "Unknown error"
                       end)),
     [Construct text (UniversalTTSClient.communicateOptions rt c p);
      Stream;
      Console ErrorLevel (lit "Error creating TTS stream:") [e]]).
Proof.
  intros HP H1. unfold UniversalTTSClient.toStream. rewrite HP.
  unfold UniversalTTSClient.construct, UniversalTTSClient.stream. eff_run.
  rewrite H1. eff_run. reflexivity.
Qed.




(** ** Listeners of the SimpleStreamAdapter *)

Lemma on_all_spec (regs : list (jsstring * callback)) (a : SimpleStreamAdapter.t)
    (t : trace) :
  SimpleStreamAdapter.hasEnded a = false ->
  fold_left
    (fun st reg =>
       let '(a1, t1) := discard (SimpleStreamAdapter.on (fst reg) (snd reg)) (fst st) in
       (a1, snd st ++ t1))
    regs (a, t)
  = ({| SimpleStreamAdapter.listeners :=
          fold_left (fun m reg => add_listener (fst reg) (snd reg) m) regs
            (SimpleStreamAdapter.listeners a);
        SimpleStreamAdapter.hasEnded := false |}, t).
Proof.
  revert a t. induction regs as [|reg regs IH]; intros a t Ha; simpl.
  - destruct a as [m h]. simpl in *. subst h. reflexivity.
  - unfold discard at 2. rewrite SimpleStreamAdapter_on_spec, Ha, andb_false_r.
    cbn beta iota zeta. simpl. rewrite app_nil_r. rewrite IH by reflexivity.
    reflexivity.
Qed.

Lemma listeners_of_registered (event : jsstring) (regs : list (jsstring * callback))
    (m : gmap jsstring (list callback)) :
  listeners_of event (fold_left (fun m reg => add_listener (fst reg) (snd reg) m) regs m)
  = listeners_of event m ++ Extra.registered_for event regs.
Proof.
  revert m. induction regs as [|[ev cb] regs IH]; intros m; simpl.
  - rewrite app_nil_r. reflexivity.
  - rewrite IH. unfold Extra.registered_for. simpl.
    destruct (JsString.eqb ev event) eqn:E.
    + apply eqb_lit_true in E. subst ev.
      unfold listeners_of at 1. rewrite add_listener_lookup. simpl.
      rewrite <- app_assoc. reflexivity.
    + apply eqb_lit_false in E.
      rewrite add_listener_lookup_ne by exact E. reflexivity.
Qed.

(** X16. Listeners are called in the order of their registration.  After
    any series of [on] calls on a fresh adapter (none of which calls a
    listener), [emit(event, ...args)] calls exactly the listeners that were
    registered for that event, each with the arguments of the emission, in
    the order of registration and as often as they were registered;
    listeners of other events are not called.  (Listeners that return
    normally.) *)
Theorem SimpleStreamAdapter_registration_order (regs : list (jsstring * callback))
    (event : jsstring) (args : list js_val) :
  Forall (fun reg => Spec.quiet (snd reg)) regs ->
  snd (Extra.on_all regs SimpleStreamAdapter.new) = []
  /\ snd (SimpleStreamAdapter.emit event args
            (fst (Extra.on_all regs SimpleStreamAdapter.new)))
     = Emit event args
         :: List.map (fun cb => Invoke (cb_id cb) args) (Extra.registered_for event regs)
  /\ fst (fst (SimpleStreamAdapter.emit event args
                 (fst (Extra.on_all regs SimpleStreamAdapter.new))))
     = Normal tt.
Proof.
  intros Hq. unfold Extra.on_all. rewrite on_all_spec by reflexivity.
  cbn [fst snd]. split; [reflexivity|].
  assert (Hl : listeners_of event
                 (fold_left (fun m reg => add_listener (fst reg) (snd reg) m) regs
                    (SimpleStreamAdapter.listeners SimpleStreamAdapter.new))
               = Extra.registered_for event regs).
  { rewrite listeners_of_registered. reflexivity. }
  rewrite SimpleStreamAdapter_emit_quiet.
  - cbn [fst snd SimpleStreamAdapter.listeners]. rewrite Hl. auto.
  - cbn [SimpleStreamAdapter.listeners]. rewrite Hl.
    unfold Extra.registered_for. apply Forall_map. clear Hl.
    induction Hq as [|reg regs Hr _ IH]; simpl; [constructor|].
    destruct (JsString.eqb (fst reg) event); [constructor; [exact Hr|exact IH]|exact IH].
Qed.

Lemma forEach_call_throws {S} (pre post : list callback) (cb : callback)
    (args : list js_val) (e : js_val) (s : S) :
  Forall Spec.quiet pre ->
  cb_run cb args = Some e ->
  forEach_call (pre ++ cb :: post) args s
  = (Throw e, s,
     List.map (fun cb => Invoke (cb_id cb) args) pre ++ [Invoke (cb_id cb) args]).
Proof.
  intros Hq He. induction Hq as [|x pre Hx _ IH]; simpl.
  - unfold call_listener. eff_run. rewrite He. reflexivity.
  - unfold call_listener at 1. eff_run. rewrite (Hx args). cbn beta iota zeta.
    rewrite IH. reflexivity.
Qed.

(** X17. A listener that throws stops the emission: the listeners
    registered before it have been called, those after it are not, and the
    thrown value leaves [emit].  An [end] emission has marked the adapter
    ended before it calls any listener, so the adapter is ended even then,
    and a listener registered for [end] from then on is called at once. *)
Theorem SimpleStreamAdapter_emit_throwing_listener (a : SimpleStreamAdapter.t)
    (event : jsstring) (args : list js_val) (pre post : list callback)
    (cb : callback) (e : js_val) :
  listeners_of event (SimpleStreamAdapter.listeners a) = pre ++ cb :: post ->
  Forall Spec.quiet pre ->
  cb_run cb args = Some e ->
  let '(r, a', t) := SimpleStreamAdapter.emit event args a in
  r = Throw e
  /\ t = Emit event args
         :: List.map (fun cb => Invoke (cb_id cb) args) pre ++ [Invoke (cb_id cb) args]
  /\ SimpleStreamAdapter.listeners a' = SimpleStreamAdapter.listeners a
  /\ (event = lit "end" ->
      SimpleStreamAdapter.hasEnded a' = true
      /\ forall late, snd (SimpleStreamAdapter.on (lit "end") late a')
                      = [Invoke (cb_id late) []]).
Proof.
  intros Hl Hq He. unfold SimpleStreamAdapter.emit. eff_run.
  destruct (JsString.eqb event (lit "end")) eqn:Ev; cbn beta iota zeta;
    cbn [SimpleStreamAdapter.listeners]; rewrite Hl;
    rewrite (forEach_call_throws pre post cb args e _ Hq He); cbn beta iota zeta.
  - split; [reflexivity|]. split; [reflexivity|]. split; [reflexivity|].
    intros _. split; [reflexivity|].
    intros late. rewrite SimpleStreamAdapter_on_spec. reflexivity.
  - split; [reflexivity|]. split; [reflexivity|]. split; [reflexivity|].
    intros ->. discriminate Ev.
Qed.

(** ** The Buffer polyfill *)

Lemma total_length_from (arrays : list (list byte)) (n : nat) :
  fold_left (fun sum arr => sum + length arr) arrays n
  = n + length (List.concat arrays).
Proof.
  revert n. induction arrays as [|arr arrays IH]; intros n; simpl; [lia|].
  rewrite IH, length_app. lia.
Qed.

Lemma Uint8Array_set_fits (pre arr tail : list byte) :
  Uint8Array_set (pre ++ repeat x00 (length arr) ++ tail) arr (length pre)
  = Some (pre ++ arr ++ tail).
Proof.
  unfold Uint8Array_set.
  rewrite !length_app, repeat_length.
  destruct (Nat.leb_spec (length pre + length arr)
              (length pre + (length arr + length tail))) as [_|H]; [|lia].
  f_equal.
  rewrite firstn_app, Nat.sub_diag, firstn_all. simpl. rewrite app_nil_r.
  f_equal. f_equal.
  rewrite skipn_app, skipn_all2 by lia. simpl.
  replace (length pre + length arr - length pre) with (length arr) by lia.
  rewrite skipn_app, skipn_all2 by (rewrite repeat_length; lia).
  rewrite repeat_length, Nat.sub_diag. reflexivity.
Qed.

Lemma concat_loop (arrays : list (list byte)) (pre : list byte) :
  fold_left
    (fun st arr =>
       match st with
       | Some (result, offset) =>
           match Uint8Array_set result arr offset with
           | Some result' => Some (result', offset + length arr)
           | None => None
           end
       | None => None
       end)
    arrays
    (Some (pre ++ repeat x00 (length (List.concat arrays)), length pre))
  = Some (pre ++ List.concat arrays, length pre + length (List.concat arrays)).
Proof.
  revert pre. induction arrays as [|arr arrays IH]; intros pre; simpl.
  - rewrite app_nil_r, Nat.add_0_r. reflexivity.
  - rewrite length_app, repeat_app, Uint8Array_set_fits.
    specialize (IH (pre ++ arr)).
    rewrite length_app, <- !app_assoc in IH. rewrite IH.
    f_equal. f_equal. lia.
Qed.

(** X18. [BufferPolyfill.concat] gives the concatenation of the arrays, in
    order: no [set] is ever out of range, so it never throws, and the
    result has the bytes of every array, one after the other, and as length
    the sum of their lengths. *)
Theorem BufferPolyfill_concat_spec (arrays : list (list byte)) :
  BufferPolyfill_concat arrays = Some (JUint8Array (List.concat arrays)).
Proof.
  unfold BufferPolyfill_concat. rewrite total_length_from.
  pose proof (concat_loop arrays []) as H. simpl in H |- *. rewrite H. reflexivity.
Qed.

(** ** The provider objects the universal client constructs *)

(** X21. [toStream] of the universal client constructs the provider object
    once, or twice when the first construction throws, and never more; each
    construction gets the text as given and the current voice, and never a
    pitch or a volume (the code that copies them reads properties that are
    never set); the second construction has the voice only.  A rate that is
    not a number is ignored. *)
Theorem universal_toStream_constructions (rt : runtime) (c : UniversalTTSClient.t)
    (P : provider) (text : jsstring) (p : option prosody_argument) :
  UniversalTTSClient.CommunicateClass c = Some P ->
  let t := snd (UniversalTTSClient.toStream rt c text p) in
  constructions t
  = match P text (UniversalTTSClient.communicateOptions rt c p) with
    | CtorReturns _ => [(text, UniversalTTSClient.communicateOptions rt c p)]
    | CtorThrows _ => [(text, UniversalTTSClient.communicateOptions rt c p);
                       (text, UniversalTTSClient.minimalOptions c)]
    end
  /\ Forall (fun call => fst call = text
                         /\ opt_voice (snd call) = UniversalTTSClient.currentVoice c
                         /\ opt_pitch (snd call) = None
                         /\ opt_volume (snd call) = None)
       (constructions t)
  /\ opt_rate (UniversalTTSClient.minimalOptions c) = None
  /\ (forall r, opt_rate (UniversalTTSClient.communicateOptions rt c p) = Some r ->
      r <> [] /\ exists x, option_map arg_rate p = Some (JNumber x)).
Proof.
  intros HP t.
  assert (Ht : constructions t
               = match P text (UniversalTTSClient.communicateOptions rt c p) with
                 | CtorReturns _ => [(text, UniversalTTSClient.communicateOptions rt c p)]
                 | CtorThrows _ => [(text, UniversalTTSClient.communicateOptions rt c p);
                                    (text, UniversalTTSClient.minimalOptions c)]
                 end).
  { subst t. unfold UniversalTTSClient.toStream. rewrite HP.
    unfold UniversalTTSClient.construct, UniversalTTSClient.stream. eff_run.
    destruct (P text (UniversalTTSClient.communicateOptions rt c p)) as [e|so]; eff_run.
    - destruct (P text (UniversalTTSClient.minimalOptions c)) as [e2|so2]; eff_run;
        [reflexivity|].
      destruct so2; reflexivity.
    - destruct so; reflexivity. }
  split; [exact Ht|]. split.
  - rewrite Ht.
    destruct (P text (UniversalTTSClient.communicateOptions rt c p));
      repeat constructor.
  - split; [reflexivity|].
    intros r. unfold UniversalTTSClient.communicateOptions, UniversalTTSClient.final_rate.
    cbn [opt_rate].
    destruct p as [[rate]|]; cbn [arg_rate option_map]; [|discriminate].
    destruct rate as [| | |x| | | | | | |]; try discriminate.
    destruct (rate (createProsodyOptions rt (Some x))) as [s|]; [|discriminate].
    destruct s as [|ch s]; [discriminate|].
    cbn [JsString.truthy]. intros [= <-]. split; [discriminate|eauto].
Qed.

(* ===================================================================== *)
(** ** What a listener is called with *)
(* ===================================================================== *)

Lemma invocations_app (id : nat) (t1 t2 : trace) :
  invocations id (t1 ++ t2) = invocations id t1 ++ invocations id t2.
Proof. unfold invocations. apply omap_app. Qed.

Lemma invocations_listeners (id : nat) (args : list js_val) (cbs : list callback) :
  invocations id (List.map (fun cb => Invoke (cb_id cb) args) cbs)
  = List.map (fun _ => args) (List.filter (fun cb => Nat.eqb (cb_id cb) id) cbs).
Proof.
  induction cbs as [|cb cbs IH]; [reflexivity|].
  simpl. unfold invocations in *. simpl.
  destruct (Nat.eqb (cb_id cb) id); simpl; rewrite IH; reflexivity.
Qed.

Lemma heard_app (m : gmap jsstring (list callback)) (id : nat)
    (evs1 evs2 : list (jsstring * list js_val)) :
  Extra.heard m id (evs1 ++ evs2) = Extra.heard m id evs1 ++ Extra.heard m id evs2.
Proof. unfold Extra.heard. apply flat_map_app. Qed.

Lemma heard_ext (m1 m2 : gmap jsstring (list callback)) (id : nat)
    (evs : list (jsstring * list js_val)) :
  (forall event, Extra.registrations_of id m1 event = Extra.registrations_of id m2 event) ->
  Extra.heard m1 id evs = Extra.heard m2 id evs.
Proof.
  intros H. unfold Extra.heard.
  induction evs as [|ev evs IH]; [reflexivity|].
  simpl. rewrite H, IH. reflexivity.
Qed.

Lemma heard_none (m : gmap jsstring (list callback)) (id : nat)
    (evs : list (jsstring * list js_val)) :
  (forall event, Extra.registrations_of id m event = []) ->
  Extra.heard m id evs = [].
Proof.
  intros H. unfold Extra.heard.
  induction evs as [|ev evs IH]; [reflexivity|].
  simpl. rewrite H, IH. reflexivity.
Qed.

Lemma registrations_of_empty (id : nat) (event : jsstring) :
  Extra.registrations_of id ∅ event = [].
Proof. reflexivity. Qed.

(** Registering a listener adds it to its event and to no other. *)
Lemma registrations_of_add (id : nat) (event event' : jsstring) (cb : callback)
    (m : gmap jsstring (list callback)) :
  Extra.registrations_of id (add_listener event cb m) event'
  = Extra.registrations_of id m event'
    ++ (if JsString.eqb event event' && Nat.eqb (cb_id cb) id then [cb] else []).
Proof.
  unfold Extra.registrations_of.
  destruct (JsString.eqb event event') eqn:E.
  - apply eqb_lit_true in E. subst event'.
    unfold listeners_of at 1. rewrite add_listener_lookup.
    cbn [default from_option]. unfold Datatypes.id. rewrite List.filter_app. simpl.
    destruct (Nat.eqb (cb_id cb) id); reflexivity.
  - apply eqb_lit_false in E.
    rewrite (add_listener_lookup_ne event event' cb m E), app_nil_r. reflexivity.
Qed.

Lemma registrations_of_other (id : nat) (event event' : jsstring) (cb : callback)
    (m : gmap jsstring (list callback)) :
  cb_id cb <> id ->
  Extra.registrations_of id (add_listener event cb m) event'
  = Extra.registrations_of id m event'.
Proof.
  intros H. rewrite registrations_of_add.
  apply Nat.eqb_neq in H. rewrite H, andb_false_r, app_nil_r. reflexivity.
Qed.

(** The effects of an emission to quiet listeners, as the listener [id]
    sees them. *)
Lemma emission_heard (m : gmap jsstring (list callback)) (id : nat)
    (event : jsstring) (args : list js_val) :
  invocations id (Emit event args
                    :: List.map (fun cb => Invoke (cb_id cb) args) (listeners_of event m))
  = Extra.heard m id [(event, args)]
  /\ emitted (Emit event args
                :: List.map (fun cb => Invoke (cb_id cb) args) (listeners_of event m))
     = [(event, args)].
Proof.
  split.
  - change (invocations id (List.map (fun cb => Invoke (cb_id cb) args) (listeners_of event m))
            = Extra.heard m id [(event, args)]).
    rewrite invocations_listeners. unfold Extra.heard, Extra.registrations_of. simpl.
    rewrite app_nil_r. reflexivity.
  - change (emitted (Emit event args :: ?l)) with ((event, args) :: emitted l).
    rewrite emitted_invokes. reflexivity.
Qed.

Lemma not_registered_cons (id : nat) (a : action) (acts : list action) :
  Extra.not_registered id (a :: acts) ->
  match a with On _ cb => cb_id cb <> id | Tick => True end
  /\ Extra.not_registered id acts.
Proof.
  intros H. split.
  - destruct a as [ev cb|]; [|exact I]. apply (H ev cb). left. reflexivity.
  - intros ev cb Hin. apply (H ev cb). right. exact Hin.
Qed.

Lemma not_registered_app (id : nat) (acts1 acts2 : list action) :
  Extra.not_registered id (acts1 ++ acts2) ->
  Extra.not_registered id acts1 /\ Extra.not_registered id acts2.
Proof.
  intros H. split; intros ev cb Hin; apply (H ev cb); apply in_or_app; auto.
Qed.

Lemma quiet_schedule_app (acts1 acts2 : list action) :
  Spec.quiet_schedule (acts1 ++ acts2) ->
  Spec.quiet_schedule acts1 /\ Spec.quiet_schedule acts2.
Proof.
  intros H. split; intros ev cb Hin; apply (H ev cb); apply in_or_app; auto.
Qed.

Lemma ticks_app (acts1 acts2 : list action) :
  Spec.ticks (acts1 ++ acts2) = Spec.ticks acts1 + Spec.ticks acts2.
Proof. unfold Spec.ticks. rewrite List.filter_app, length_app. reflexivity. Qed.

Lemma http_run_app (acts1 acts2 : list action) (s : http_session) :
  DeepgramTTSClient.run (acts1 ++ acts2) s
  = let '(s1, t1) := DeepgramTTSClient.run acts1 s in
    let '(s2, t2) := DeepgramTTSClient.run acts2 s1 in
    (s2, t1 ++ t2).
Proof.
  revert s. induction acts1 as [|a acts1 IH]; intros s; simpl.
  - destruct (DeepgramTTSClient.run acts2 s); reflexivity.
  - destruct (DeepgramTTSClient.step a s) as [s1 t1]. rewrite IH.
    destruct (DeepgramTTSClient.run acts1 s1) as [s2 t2].
    destruct (DeepgramTTSClient.run acts2 s2) as [s3 t3].
    rewrite app_assoc. reflexivity.
Qed.

Lemma http_catch_trace (e : js_val) (s : http_session) :
  Spec.quiet_listeners (SimpleStreamAdapter.listeners (adapter s)) ->
  DeepgramTTSClient.catch_block e s
  = (Normal tt,
     {| adapter :=
          {| SimpleStreamAdapter.listeners := SimpleStreamAdapter.listeners (adapter s);
             SimpleStreamAdapter.hasEnded := true |};
        http_task_of := http_task_of s |},
     Console ErrorLevel (lit "Deepgram TTS streaming error:") [e]
       :: (Emit (lit "error") [e]
             :: List.map (fun cb => Invoke (cb_id cb) [e])
                  (listeners_of (lit "error") (SimpleStreamAdapter.listeners (adapter s))))
       ++ (Emit (lit "end") []
             :: List.map (fun cb => Invoke (cb_id cb) [])
                  (listeners_of (lit "end") (SimpleStreamAdapter.listeners (adapter s))))).
Proof.
  intros Hq. unfold DeepgramTTSClient.catch_block. eff_run.
  rewrite on_adapter_emit_quiet by (apply listeners_of_quiet; exact Hq). cbn beta iota zeta.
  rewrite on_adapter_emit_quiet by (apply listeners_of_quiet; exact Hq). cbn beta iota zeta.
  cbn [adapter SimpleStreamAdapter.listeners SimpleStreamAdapter.hasEnded http_task_of].
  rewrite orb_true_r. reflexivity.
Qed.

Lemma catch_trace_heard (m : gmap jsstring (list callback)) (id : nat) (e : js_val) :
  let t := Console ErrorLevel (lit "Deepgram TTS streaming error:") [e]
             :: (Emit (lit "error") [e]
                   :: List.map (fun cb => Invoke (cb_id cb) [e]) (listeners_of (lit "error") m))
             ++ (Emit (lit "end") []
                   :: List.map (fun cb => Invoke (cb_id cb) []) (listeners_of (lit "end") m)) in
  invocations id t = Extra.heard m id (emitted t).
Proof.
  intros t. subst t.
  change (invocations id (Console ?l ?a ?b :: ?r)) with (invocations id r).
  change (emitted (Console ?l ?a ?b :: ?r)) with (emitted r).
  rewrite invocations_app, emitted_app, heard_app.
  destruct (emission_heard m id (lit "error") [e]) as [-> ->].
  destruct (emission_heard m id (lit "end") []) as [-> ->]. reflexivity.
Qed.

(** One resumption of the task of a session with quiet listeners: every
    call of a listener is for an event emitted, and a task that is still
    pending has not ended the adapter. *)
Lemma http_tick_heard (s : http_session) :
  Spec.quiet_listeners (SimpleStreamAdapter.listeners (adapter s)) ->
  let '(s', t) := DeepgramTTSClient.step Tick s in
  SimpleStreamAdapter.listeners (adapter s') = SimpleStreamAdapter.listeners (adapter s)
  /\ (forall id, invocations id t
                 = Extra.heard (SimpleStreamAdapter.listeners (adapter s)) id (emitted t))
  /\ (http_task_of s' <> HttpSettled ->
      SimpleStreamAdapter.hasEnded (adapter s') = SimpleStreamAdapter.hasEnded (adapter s)).
Proof.
  intros Hq.
  unfold DeepgramTTSClient.step, DeepgramTTSClient.resume, DeepgramTTSClient.suspend.
  eff_run.
  assert (Hcatch : forall e k,
    let '(s', t) :=
      (let '(_, s1, t1) :=
         DeepgramTTSClient.catch_block e {| adapter := adapter s; http_task_of := k |} in
       (s1, t1)) in
    k = HttpSettled ->
    SimpleStreamAdapter.listeners (adapter s') = SimpleStreamAdapter.listeners (adapter s)
    /\ (forall id, invocations id t
                   = Extra.heard (SimpleStreamAdapter.listeners (adapter s)) id (emitted t))
    /\ (http_task_of s' <> HttpSettled ->
        SimpleStreamAdapter.hasEnded (adapter s') = SimpleStreamAdapter.hasEnded (adapter s))).
  { intros e k. rewrite http_catch_trace by exact Hq. cbn beta iota zeta.
    cbn [adapter SimpleStreamAdapter.listeners SimpleStreamAdapter.hasEnded http_task_of].
    intros ->. split; [reflexivity|]. split.
    - intros id. apply catch_trace_heard.
    - intros H. contradiction H. reflexivity. }
  destruct (http_task_of s) as [o|rd|] eqn:Ht; cbn beta iota zeta.
  - unfold DeepgramTTSClient.after_fetch.
    destruct o as [e|e|r]; eff_run.
    + specialize (Hcatch e HttpSettled).
      destruct (DeepgramTTSClient.catch_block e _) as [[? s1] t1].
      simpl. apply Hcatch. reflexivity.
    + specialize (Hcatch e HttpSettled).
      destruct (DeepgramTTSClient.catch_block e _) as [[? s1] t1].
      simpl. apply Hcatch. reflexivity.
    + destruct (negb (response_ok r)); eff_run.
      * specialize (Hcatch (DeepgramTTSClient.request_failed_error r) HttpSettled).
        destruct (DeepgramTTSClient.catch_block _ _) as [[? s1] t1].
        simpl. apply Hcatch. reflexivity.
      * destruct (body r) as [rd|]; eff_run.
        -- simpl. split; [reflexivity|]. split; [intros id; reflexivity|reflexivity].
        -- specialize (Hcatch DeepgramTTSClient.not_readable_error HttpSettled).
           destruct (DeepgramTTSClient.catch_block _ _) as [[? s1] t1].
           simpl. apply Hcatch. reflexivity.
  - unfold DeepgramTTSClient.after_read.
    destruct rd as [v rest| |e]; eff_run.
    + destruct (truthy v); eff_run.
      * rewrite on_adapter_emit_quiet by (apply listeners_of_quiet; exact Hq).
        cbn beta iota zeta.
        cbn [adapter SimpleStreamAdapter.listeners SimpleStreamAdapter.hasEnded http_task_of].
        split; [reflexivity|]. split.
        -- intros id. repeat rewrite app_nil_l. rewrite ?app_nil_r.
           rewrite invocations_app, emitted_app, heard_app.
           destruct (emission_heard (SimpleStreamAdapter.listeners (adapter s)) id
                       (lit "data") [v]) as [-> ->].
           simpl. rewrite !app_nil_r. reflexivity.
        -- intros _. apply orb_false_r.
      * simpl. split; [reflexivity|]. split; [intros id; reflexivity|reflexivity].
    + rewrite on_adapter_emit_quiet by (apply listeners_of_quiet; exact Hq).
      cbn beta iota zeta.
      cbn [adapter SimpleStreamAdapter.listeners SimpleStreamAdapter.hasEnded http_task_of].
      split; [reflexivity|]. split.
      * intros id. repeat rewrite app_nil_l. rewrite ?app_nil_r.
        destruct (emission_heard (SimpleStreamAdapter.listeners (adapter s)) id
                    (lit "end") []) as [-> ->]. reflexivity.
      * intros H. contradiction H. reflexivity.
    + specialize (Hcatch e HttpSettled).
      destruct (DeepgramTTSClient.catch_block e _) as [[? s1] t1].
      simpl. apply Hcatch. reflexivity.
  - rewrite Ht. simpl. split; [reflexivity|]. split; [intros id; reflexivity|reflexivity].
Qed.

Lemma http_tick_response (s : http_session) (r : response) (rd : reader) :
  http_task_of s = AwaitFetch (FetchResolves r) ->
  response_ok r = true ->
  body r = Some rd ->
  DeepgramTTSClient.step Tick s
  = ({| adapter := adapter s; http_task_of := AwaitRead rd |}, [Read]).
Proof.
  intros Ht Hok Hb.
  unfold DeepgramTTSClient.step, DeepgramTTSClient.resume, DeepgramTTSClient.suspend.
  eff_run. rewrite Ht. cbn beta iota zeta.
  unfold DeepgramTTSClient.after_fetch. rewrite Hok, Hb. reflexivity.
Qed.

Lemma http_order_end (evs : list (jsstring * list js_val)) :
  Spec.http_order evs -> In Spec.end_event evs.
Proof.
  intros (values & tail & -> & _ & Htail).
  apply in_or_app. right.
  destruct Htail as [->|(e & ->)]; simpl; auto.
Qed.

Lemma http_on_step (event : jsstring) (cb : callback) (s : http_session) :
  DeepgramTTSClient.step (On event cb) s
  = ({| adapter :=
          {| SimpleStreamAdapter.listeners :=
               add_listener event cb (SimpleStreamAdapter.listeners (adapter s));
             SimpleStreamAdapter.hasEnded := SimpleStreamAdapter.hasEnded (adapter s) |};
        http_task_of := http_task_of s |},
     if JsString.eqb event (lit "end") && SimpleStreamAdapter.hasEnded (adapter s)
     then [Invoke (cb_id cb) []] else []).
Proof.
  unfold DeepgramTTSClient.step, discard, DeepgramTTSClient.on_adapter.
  rewrite SimpleStreamAdapter_on_spec. reflexivity.
Qed.

(** A session under a schedule whose listeners return normally, as seen by
    a listener that the schedule does not register: its registrations stay
    as they are, it is called exactly for the events emitted, and a task
    that is still pending has not ended the adapter. *)
Lemma http_run_heard (id : nat) (acts : list action) (s : http_session) :
  Spec.quiet_schedule acts ->
  Extra.not_registered id acts ->
  Spec.quiet_listeners (SimpleStreamAdapter.listeners (adapter s)) ->
  let '(s', t) := DeepgramTTSClient.run acts s in
  Spec.quiet_listeners (SimpleStreamAdapter.listeners (adapter s'))
  /\ (forall event,
        Extra.registrations_of id (SimpleStreamAdapter.listeners (adapter s')) event
        = Extra.registrations_of id (SimpleStreamAdapter.listeners (adapter s)) event)
  /\ invocations id t
     = Extra.heard (SimpleStreamAdapter.listeners (adapter s)) id (emitted t)
  /\ (http_task_of s' <> HttpSettled ->
      SimpleStreamAdapter.hasEnded (adapter s') = SimpleStreamAdapter.hasEnded (adapter s)).
Proof.
  revert s. induction acts as [|a acts IH]; intros s Hacts Hid Hq;
    cbn [DeepgramTTSClient.run].
  - split; [exact Hq|]. split; [reflexivity|]. split; reflexivity.
  - apply quiet_schedule_cons in Hacts as [Ha Hacts].
    apply not_registered_cons in Hid as [Hida Hid].
    assert (Hstep :
      let '(s1, t1) := DeepgramTTSClient.step a s in
      Spec.quiet_listeners (SimpleStreamAdapter.listeners (adapter s1))
      /\ (forall event,
            Extra.registrations_of id (SimpleStreamAdapter.listeners (adapter s1)) event
            = Extra.registrations_of id (SimpleStreamAdapter.listeners (adapter s)) event)
      /\ invocations id t1
         = Extra.heard (SimpleStreamAdapter.listeners (adapter s)) id (emitted t1)
      /\ (http_task_of s1 <> HttpSettled ->
          SimpleStreamAdapter.hasEnded (adapter s1)
          = SimpleStreamAdapter.hasEnded (adapter s))).
    { destruct a as [ev cb|].
      - rewrite http_on_step.
        cbn [adapter SimpleStreamAdapter.listeners SimpleStreamAdapter.hasEnded http_task_of].
        split; [apply add_listener_quiet; assumption|].
        split; [intros event; apply registrations_of_other; exact Hida|].
        split; [|reflexivity].
        apply Nat.eqb_neq in Hida.
        destruct (JsString.eqb ev (lit "end") && SimpleStreamAdapter.hasEnded (adapter s));
          [|reflexivity].
        unfold invocations. simpl. rewrite Hida. reflexivity.
      - pose proof (http_tick_heard s Hq) as H.
        destruct (DeepgramTTSClient.step Tick s) as [s1 t1].
        destruct H as (HL & Hinv & Hend).
        split; [rewrite HL; exact Hq|].
        split; [intros event; rewrite HL; reflexivity|].
        split; [apply Hinv|exact Hend]. }
    destruct (DeepgramTTSClient.step a s) as [s1 t1].
    destruct Hstep as (Hq1 & Hreg1 & Hinv1 & Hend1).
    specialize (IH s1 Hacts Hid Hq1).
    pose proof (http_settled_silent acts s1) as Hsettled.
    destruct (DeepgramTTSClient.run acts s1) as [s2 t2].
    destruct IH as (Hq2 & Hreg2 & Hinv2 & Hend2).
    split; [exact Hq2|].
    split; [intros event; rewrite Hreg2; apply Hreg1|].
    split.
    + rewrite invocations_app, emitted_app, heard_app, Hinv1, Hinv2.
      f_equal. apply heard_ext. exact Hreg1.
    + intros Hpending. rewrite (Hend2 Hpending). apply Hend1.
      intros Hs1. destruct (Hsettled Hs1) as [_ Hs2]. cbn [fst] in Hs2. contradiction.
Qed.

(** The only registration of a listener, for the events of an HTTP task. *)
Lemma http_order_heard (m : gmap jsstring (list callback)) (id : nat)
    (values : list js_val) (tail : list (jsstring * list js_val)) :
  Extra.registrations_of id m (lit "error") = [] ->
  (tail = [Spec.end_event] \/ exists e, tail = [Spec.error_event e; Spec.end_event]) ->
  Extra.heard m id (List.map Spec.data_event values ++ tail)
  = List.concat
      (List.map (fun v => List.map (fun _ => [v])
                            (Extra.registrations_of id m (lit "data")))
         values)
    ++ List.map (fun _ => []) (Extra.registrations_of id m (lit "end")).
Proof.
  intros Herr Htail. rewrite heard_app. f_equal.
  - induction values as [|v values IH]; [reflexivity|].
    unfold Extra.heard in *. simpl. rewrite IH. reflexivity.
  - destruct Htail as [->|(e & ->)]; unfold Extra.heard; simpl;
      rewrite ?Herr, ?app_nil_r; reflexivity.
Qed.

Lemma concat_nothing {A B} (l : list A) :
  List.concat (List.map (fun _ => @nil B) l) = [].
Proof. induction l as [|x l IH]; [reflexivity|exact IH]. Qed.

Lemma registrations_of_first (cb : callback) (event event' : jsstring)
    (m : gmap jsstring (list callback)) :
  (forall ev, Extra.registrations_of (cb_id cb) m ev = []) ->
  Extra.registrations_of (cb_id cb) (add_listener event cb m) event'
  = if JsString.eqb event event' then [cb] else [].
Proof.
  intros H. rewrite registrations_of_add, H, Nat.eqb_refl, andb_true_r. reflexivity.
Qed.

(** ** What an [end] listener of the HTTP client receives *)

(** X22. An [end] listener of the HTTP client that is registered once is
    called exactly once, whenever it is registered, provided the listeners
    registered in the session return normally: registered before the end it
    is called when [end] is emitted, registered after the end it is called
    at its registration, and never twice.  This holds for every outcome of
    the request (rejection, non-success status, missing body, a body read
    to its end or a failing read), whatever other listeners are registered
    before or after it, once the task has settled. *)
Theorem http_end_listener_called_once (net : network) (c : DeepgramTTSClient.t)
    (text : jsstring) (p : option prosody_argument) (s0 : http_session) (t0 : trace)
    (o : fetch_outcome) (cb : callback) (acts1 acts2 : list action) :
  DeepgramTTSClient.toStream net c text p = (Normal s0, t0) ->
  http_task_of s0 = AwaitFetch o ->
  Spec.quiet_schedule (acts1 ++ On (lit "end") cb :: acts2) ->
  Extra.not_registered (cb_id cb) (acts1 ++ acts2) ->
  Spec.task_steps (AwaitFetch o) <= Spec.ticks acts1 + Spec.ticks acts2 ->
  invocations (cb_id cb)
    (snd (DeepgramTTSClient.run (acts1 ++ On (lit "end") cb :: acts2) s0))
  = [[]].
Proof.
  intros Hts Ht Hquiet Hreg Hn.
  destruct (http_toStream_pending _ _ _ _ _ _ _ Hts Ht) as (HL & _ & Hended).
  assert (Hq0 : Spec.quiet_listeners (SimpleStreamAdapter.listeners (adapter s0)))
    by (rewrite HL; apply quiet_listeners_empty).
  apply quiet_schedule_app in Hquiet as [Hquiet1 Hquiet2].
  apply quiet_schedule_cons in Hquiet2 as [Hcb Hquiet2].
  apply not_registered_app in Hreg as [Hreg1 Hreg2].
  pose proof (http_run_completes (acts1 ++ On (lit "end") cb :: acts2) s0) as Hdone.
  rewrite Ht, ticks_app, ticks_cons in Hdone. specialize (Hdone Hn).
  pose proof (http_late_end_listener acts1 s0 cb) as Hlate.
  pose proof (http_run_heard (cb_id cb) acts1 s0 Hquiet1 Hreg1 Hq0) as H1.
  pose proof (http_run_quiet acts1 s0 Hquiet1 Hq0) as He1.
  rewrite http_run_app in Hdone |- *.
  destruct (DeepgramTTSClient.run acts1 s0) as [s1 t1].
  destruct H1 as (Hq1 & Hreg0 & Hinv1 & Hend1). destruct He1 as (_ & He1).
  cbn [fst snd] in Hlate.
  rewrite Ht in He1. rewrite HL in Hreg0, Hinv1.
  assert (Hnone : forall ev,
            Extra.registrations_of (cb_id cb)
              (SimpleStreamAdapter.listeners (adapter s1)) ev = [])
    by (intros ev; rewrite Hreg0; reflexivity).
  cbn [DeepgramTTSClient.run] in Hdone |- *.
  rewrite http_on_step in Hdone, Hlate |- *.
  set (s2 := {| adapter :=
                  {| SimpleStreamAdapter.listeners :=
                       add_listener (lit "end") cb
                         (SimpleStreamAdapter.listeners (adapter s1));
                     SimpleStreamAdapter.hasEnded :=
                       SimpleStreamAdapter.hasEnded (adapter s1) |};
                http_task_of := http_task_of s1 |}) in *.
  assert (Hq2 : Spec.quiet_listeners (SimpleStreamAdapter.listeners (adapter s2)))
    by (apply add_listener_quiet; assumption).
  pose proof (http_run_heard (cb_id cb) acts2 s2 Hquiet2 Hreg2 Hq2) as H3.
  pose proof (http_run_quiet acts2 s2 Hquiet2 Hq2) as He3.
  pose proof (http_settled_silent acts2 s2) as Hsil.
  destruct (DeepgramTTSClient.run acts2 s2) as [s3 t3].
  destruct H3 as (_ & _ & Hinv3 & _). destruct He3 as (_ & He3).
  cbn [fst snd] in *.
  rewrite !invocations_app, Hinv1, heard_none by reflexivity. cbn [app].
  rewrite Hinv3.
  assert (Eend : JsString.eqb (lit "end") (lit "end") = true)
    by (apply eqb_lit_true; reflexivity).
  rewrite Eend in *. cbn [andb] in *.
  change (http_task_of s2) with (http_task_of s1) in He3, Hsil.
  destruct (http_task_of s1) as [o1|rd1|] eqn:Ht1.
  - rewrite (Hend1 ltac:(discriminate)), Hended.
    rewrite Hdone in He3. cbn [Spec.task_events] in He3. rewrite app_nil_r in He3.
    rewrite He3. cbn [invocations omap app].
    destruct (fetch_events_order o1) as (values & tail & -> & _ & Htail).
    rewrite (http_order_heard _ _ values tail); [|
      unfold s2; cbn [adapter SimpleStreamAdapter.listeners];
      rewrite (registrations_of_first cb _ _ _ Hnone); reflexivity | exact Htail].
    unfold s2. cbn [adapter SimpleStreamAdapter.listeners].
    rewrite !(registrations_of_first cb _ _ _ Hnone), Eend.
    replace (JsString.eqb (lit "end") (lit "data")) with false by reflexivity.
    simpl. rewrite concat_nothing. reflexivity.
  - rewrite (Hend1 ltac:(discriminate)), Hended.
    rewrite Hdone in He3. cbn [Spec.task_events] in He3. rewrite app_nil_r in He3.
    rewrite He3. cbn [invocations omap app].
    destruct (reader_events_order rd1) as (values & tail & -> & _ & Htail).
    rewrite (http_order_heard _ _ values tail); [|
      unfold s2; cbn [adapter SimpleStreamAdapter.listeners];
      rewrite (registrations_of_first cb _ _ _ Hnone); reflexivity | exact Htail].
    unfold s2. cbn [adapter SimpleStreamAdapter.listeners].
    rewrite !(registrations_of_first cb _ _ _ Hnone), Eend.
    replace (JsString.eqb (lit "end") (lit "data")) with false by reflexivity.
    simpl. rewrite concat_nothing. reflexivity.
  - cbn [Spec.task_events] in He1. rewrite app_nil_r in He1.
    assert (Hin : In Spec.end_event (emitted t1)).
    { rewrite He1. apply http_order_end. apply fetch_events_order. }
    destruct (Hlate Hin) as (Hton & _ & _).
    rewrite Hton.
    destruct (Hsil eq_refl) as [-> _].
    unfold invocations. simpl. rewrite Nat.eqb_refl. reflexivity.
Qed.

(** ** What a [data] listener of the HTTP client receives *)

Lemma concat_singletons {A B} (f : A -> B) (l : list A) :
  List.concat (List.map (fun x => [f x]) l) = List.map f l.
Proof. induction l as [|x l IH]; [reflexivity|]. simpl. rewrite IH. reflexivity. Qed.

(** The task after one resumption that reads the body. *)
Lemma http_tick_task (s : http_session) (rd : reader) :
  Spec.quiet_listeners (SimpleStreamAdapter.listeners (adapter s)) ->
  http_task_of s = AwaitRead rd ->
  http_task_of (fst (DeepgramTTSClient.step Tick s))
  = match rd with
    | ReadValue _ rest => AwaitRead rest
    | _ => HttpSettled
    end.
Proof.
  intros Hq Ht.
  unfold DeepgramTTSClient.step, DeepgramTTSClient.resume, DeepgramTTSClient.suspend.
  eff_run. rewrite Ht. cbn beta iota zeta.
  unfold DeepgramTTSClient.after_read.
  destruct rd as [v rest| |e]; eff_run.
  - destruct (truthy v); eff_run.
    + rewrite on_adapter_emit_quiet by (apply listeners_of_quiet; exact Hq). reflexivity.
    + reflexivity.
  - rewrite on_adapter_emit_quiet by (apply listeners_of_quiet; exact Hq). reflexivity.
  - rewrite http_catch_trace by exact Hq. reflexivity.
Qed.

(** From its registration on, a [data] listener hears the events the task
    still owes. *)
Lemma http_registered_data_heard (cb : callback) (acts2 : list action)
    (s : http_session) :
  Spec.quiet_schedule (On (lit "data") cb :: acts2) ->
  Extra.not_registered (cb_id cb) acts2 ->
  Spec.quiet_listeners (SimpleStreamAdapter.listeners (adapter s)) ->
  Spec.task_steps (http_task_of s) <= Spec.ticks acts2 ->
  invocations (cb_id cb)
    (snd (DeepgramTTSClient.run (On (lit "data") cb :: acts2) s))
  = Extra.heard (add_listener (lit "data") cb (SimpleStreamAdapter.listeners (adapter s)))
      (cb_id cb) (Spec.task_events (http_task_of s)).
Proof.
  intros Hquiet Hreg Hq Hn.
  apply quiet_schedule_cons in Hquiet as [Hcb Hquiet].
  cbn [DeepgramTTSClient.run]. rewrite http_on_step.
  replace (JsString.eqb (lit "data") (lit "end")) with false by reflexivity.
  cbn [andb].
  set (s2 := {| adapter := _; http_task_of := http_task_of s |}).
  assert (Hq2 : Spec.quiet_listeners (SimpleStreamAdapter.listeners (adapter s2)))
    by (apply add_listener_quiet; assumption).
  pose proof (http_run_heard (cb_id cb) acts2 s2 Hquiet Hreg Hq2) as H3.
  pose proof (http_run_quiet acts2 s2 Hquiet Hq2) as He3.
  pose proof (http_run_completes acts2 s2 Hn) as Hdone.
  destruct (DeepgramTTSClient.run acts2 s2) as [s3 t3].
  destruct H3 as (_ & _ & Hinv3 & _). destruct He3 as (_ & He3).
  cbn [fst snd app] in *. rewrite Hdone in He3. cbn [Spec.task_events] in He3.
  rewrite app_nil_r in He3. rewrite Hinv3, He3. reflexivity.
Qed.

Lemma heard_data_only (cb : callback) (m : gmap jsstring (list callback))
    (values : list js_val) (tail : list (jsstring * list js_val)) :
  (forall ev, Extra.registrations_of (cb_id cb) m ev = []) ->
  (tail = [Spec.end_event] \/ exists e, tail = [Spec.error_event e; Spec.end_event]) ->
  Extra.heard (add_listener (lit "data") cb m) (cb_id cb)
    (List.map Spec.data_event values ++ tail)
  = List.map (fun v => [v]) values.
Proof.
  intros Hnone Htail.
  rewrite (http_order_heard _ _ values tail);
    [|rewrite (registrations_of_first cb _ _ _ Hnone); reflexivity|exact Htail].
  rewrite !(registrations_of_first cb _ _ _ Hnone).
  replace (JsString.eqb (lit "data") (lit "data")) with true by reflexivity.
  replace (JsString.eqb (lit "data") (lit "end")) with false by reflexivity.
  simpl. rewrite app_nil_r. apply (concat_singletons (fun v => [v])).
Qed.

Lemma heard_reader_events (cb : callback) (m : gmap jsstring (list callback))
    (rd : reader) :
  (forall ev, Extra.registrations_of (cb_id cb) m ev = []) ->
  Extra.heard (add_listener (lit "data") cb m) (cb_id cb) (Spec.reader_events rd)
  = List.map (fun v => [v]) (List.filter truthy (Extra.values_of rd)).
Proof.
  intros Hnone. rewrite reader_events_values.
  apply heard_data_only; [exact Hnone|].
  destruct (Extra.failure_of rd) as [e|]; [right; eexists; reflexivity|left; reflexivity].
Qed.

(** A [data] listener registered when the task has settled hears nothing. *)
Lemma http_settled_data_registration (cb : callback) (acts1 acts2 : list action)
    (s : http_session) :
  Spec.quiet_schedule (acts1 ++ On (lit "data") cb :: acts2) ->
  Extra.not_registered (cb_id cb) (acts1 ++ acts2) ->
  Spec.quiet_listeners (SimpleStreamAdapter.listeners (adapter s)) ->
  (forall ev, Extra.registrations_of (cb_id cb)
                (SimpleStreamAdapter.listeners (adapter s)) ev = []) ->
  http_task_of s = HttpSettled ->
  invocations (cb_id cb)
    (snd (DeepgramTTSClient.run (acts1 ++ On (lit "data") cb :: acts2) s))
  = [].
Proof.
  intros Hquiet Hreg Hq Hnone Ht.
  apply quiet_schedule_app in Hquiet as [Hquiet1 Hquiet2].
  apply not_registered_app in Hreg as [Hreg1 Hreg2].
  pose proof (http_run_heard (cb_id cb) acts1 s Hquiet1 Hreg1 Hq) as H1.
  pose proof (http_settled_silent acts1 s Ht) as [_ Hs1].
  pose proof (http_registered_data_heard cb acts2
                (fst (DeepgramTTSClient.run acts1 s)) Hquiet2 Hreg2) as H2.
  rewrite http_run_app.
  destruct (DeepgramTTSClient.run acts1 s) as [s1 t1].
  destruct H1 as (Hq1 & _ & Hinv1 & _). cbn [fst] in *.
  rewrite Hs1 in H2. specialize (H2 Hq1 ltac:(cbn; lia)).
  destruct (DeepgramTTSClient.run (On (lit "data") cb :: acts2) s1) as [s3 t3].
  cbn [snd] in *. rewrite invocations_app, Hinv1, H2, heard_none by exact Hnone.
  reflexivity.
Qed.

(** A [data] listener registered while the body is read hears the values
    read from then on. *)
Lemma http_read_data_registration (cb : callback) (acts2 acts1 : list action)
    (rd : reader) (s : http_session) :
  Spec.quiet_schedule (acts1 ++ On (lit "data") cb :: acts2) ->
  Extra.not_registered (cb_id cb) (acts1 ++ acts2) ->
  Spec.quiet_listeners (SimpleStreamAdapter.listeners (adapter s)) ->
  (forall ev, Extra.registrations_of (cb_id cb)
                (SimpleStreamAdapter.listeners (adapter s)) ev = []) ->
  http_task_of s = AwaitRead rd ->
  1 + Spec.reader_length rd <= Spec.ticks acts1 + Spec.ticks acts2 ->
  invocations (cb_id cb)
    (snd (DeepgramTTSClient.run (acts1 ++ On (lit "data") cb :: acts2) s))
  = List.map (fun v => [v])
      (List.filter truthy (skipn (Spec.ticks acts1) (Extra.values_of rd))).
Proof.
  revert rd s. induction acts1 as [|a acts1 IH]; intros rd s Hquiet Hreg Hq Hnone Ht Hn.
  - cbn [app] in *.
    rewrite (http_registered_data_heard cb acts2 s Hquiet Hreg Hq)
      by (rewrite Ht; exact Hn).
    rewrite Ht. cbn [Spec.task_events Spec.ticks List.filter length skipn].
    apply heard_reader_events. exact Hnone.
  - pose proof Hquiet as Hquiet'. pose proof Hreg as Hreg'.
    cbn [app] in Hquiet, Hreg.
    apply quiet_schedule_cons in Hquiet as [Ha Hquiet].
    apply not_registered_cons in Hreg as [Hida Hreg].
    rewrite ticks_cons in *.
    cbn [app DeepgramTTSClient.run].
    destruct a as [ev cb'|].
    + rewrite http_on_step.
      match goal with
      | |- context [DeepgramTTSClient.run _ ?s1] =>
          specialize (IH rd s1 Hquiet Hreg)
      end.
      cbn [adapter SimpleStreamAdapter.listeners http_task_of] in IH.
      specialize (IH ltac:(apply add_listener_quiet; assumption)
                     ltac:(intros ev0; rewrite registrations_of_other by exact Hida;
                           apply Hnone)
                     Ht Hn).
      destruct (DeepgramTTSClient.run _ _) as [s2 t2]. cbn [snd] in *.
      rewrite invocations_app, IH. cbn [Nat.add].
      apply Nat.eqb_neq in Hida.
      destruct (JsString.eqb ev (lit "end") && SimpleStreamAdapter.hasEnded (adapter s));
        [|reflexivity].
      unfold invocations at 1. simpl. rewrite Hida. reflexivity.
    + pose proof (http_tick_heard s Hq) as Hstep.
      pose proof (http_tick_task s rd Hq Ht) as Htask.
      destruct (DeepgramTTSClient.step Tick s) as [s1 t1].
      destruct Hstep as (HL & Hinv & _). cbn [fst] in Htask.
      assert (Hq1 : Spec.quiet_listeners (SimpleStreamAdapter.listeners (adapter s1)))
        by (rewrite HL; exact Hq).
      assert (Hnone1 : forall ev, Extra.registrations_of (cb_id cb)
                         (SimpleStreamAdapter.listeners (adapter s1)) ev = [])
        by (intros ev; rewrite HL; apply Hnone).
      destruct rd as [v rest| |e].
      * specialize (IH rest s1 Hquiet Hreg Hq1 Hnone1 Htask ltac:(simpl in Hn; lia)).
        destruct (DeepgramTTSClient.run _ s1) as [s2 t2]. cbn [snd] in *.
        rewrite invocations_app, IH, Hinv, heard_none by exact Hnone. reflexivity.
      * pose proof (http_settled_data_registration cb acts1 acts2 s1
                      Hquiet Hreg Hq1 Hnone1 Htask) as Hset.
        destruct (DeepgramTTSClient.run _ s1) as [s2 t2]. cbn [snd] in *.
        rewrite invocations_app, Hset, Hinv, heard_none by exact Hnone. reflexivity.
      * pose proof (http_settled_data_registration cb acts1 acts2 s1
                      Hquiet Hreg Hq1 Hnone1 Htask) as Hset.
        destruct (DeepgramTTSClient.run _ s1) as [s2 t2]. cbn [snd] in *.
        rewrite invocations_app, Hset, Hinv, heard_none by exact Hnone. reflexivity.
Qed.

Lemma http_fetch_data_registration (cb : callback) (acts2 acts1 : list action)
    (r : response) (rd : reader) (s : http_session) :
  Spec.quiet_schedule (acts1 ++ On (lit "data") cb :: acts2) ->
  Extra.not_registered (cb_id cb) (acts1 ++ acts2) ->
  Spec.quiet_listeners (SimpleStreamAdapter.listeners (adapter s)) ->
  (forall ev, Extra.registrations_of (cb_id cb)
                (SimpleStreamAdapter.listeners (adapter s)) ev = []) ->
  http_task_of s = AwaitFetch (FetchResolves r) ->
  response_ok r = true ->
  body r = Some rd ->
  2 + Spec.reader_length rd <= Spec.ticks acts1 + Spec.ticks acts2 ->
  invocations (cb_id cb)
    (snd (DeepgramTTSClient.run (acts1 ++ On (lit "data") cb :: acts2) s))
  = List.map (fun v => [v])
      (List.filter truthy (skipn (Nat.pred (Spec.ticks acts1)) (Extra.values_of rd))).
Proof.
  intros Hquiet Hreg Hq Hnone Ht Hok Hb. revert s Hquiet Hreg Hq Hnone Ht.
  induction acts1 as [|a acts1 IH]; intros s Hquiet Hreg Hq Hnone Ht Hn.
  - cbn [app] in *.
    rewrite (http_registered_data_heard cb acts2 s Hquiet Hreg Hq)
      by (rewrite Ht; cbn [Spec.task_steps]; rewrite Hok, Hb; exact Hn).
    rewrite Ht. cbn [Spec.task_events Spec.ticks List.filter length skipn Nat.pred].
    unfold Spec.fetch_events. rewrite Hok, Hb. cbn [negb].
    apply heard_reader_events. exact Hnone.
  - pose proof Hquiet as Hquiet'.
    cbn [app] in Hquiet, Hreg.
    apply quiet_schedule_cons in Hquiet as [Ha Hquiet].
    apply not_registered_cons in Hreg as [Hida Hreg].
    rewrite ticks_cons in *.
    cbn [app DeepgramTTSClient.run].
    destruct a as [ev cb'|].
    + rewrite http_on_step.
      match goal with
      | |- context [DeepgramTTSClient.run _ ?s1] =>
          specialize (IH s1 Hquiet Hreg)
      end.
      cbn [adapter SimpleStreamAdapter.listeners http_task_of] in IH.
      specialize (IH ltac:(apply add_listener_quiet; assumption)
                     ltac:(intros ev0; rewrite registrations_of_other by exact Hida;
                           apply Hnone)
                     Ht Hn).
      destruct (DeepgramTTSClient.run _ _) as [s2 t2]. cbn [snd] in *.
      rewrite invocations_app, IH. cbn [Nat.add].
      apply Nat.eqb_neq in Hida.
      destruct (JsString.eqb ev (lit "end") && SimpleStreamAdapter.hasEnded (adapter s));
        [|reflexivity].
      unfold invocations at 1. simpl. rewrite Hida. reflexivity.
    + rewrite (http_tick_response s r rd Ht Hok Hb).
      pose proof (http_read_data_registration cb acts2 acts1 rd
                    {| adapter := adapter s; http_task_of := AwaitRead rd |}
                    Hquiet Hreg Hq Hnone eq_refl ltac:(simpl in Hn; lia)) as Hread.
      destruct (DeepgramTTSClient.run _ _) as [s2 t2]. cbn [snd] in *.
      rewrite invocations_app, Hread. reflexivity.
Qed.

(** X19. What a [data] listener of the HTTP client receives depends on when
    it is registered: nothing is buffered for it.  Take a successful
    response with a body, a session in which every listener registered
    returns normally, and a [data] listener that is registered once, after
    [k] resumptions of the task; other listeners may be registered before
    and after it.  Once the task has settled, the listener has been called
    once for each truthy value read after its registration, in order, with
    that value: registered before the first read (k <= 1) it is handed
    every truthy value of the body; registered later it has missed the
    first [k - 1] values for good. *)
Theorem http_data_listener_receives (net : network) (c : DeepgramTTSClient.t)
    (text : jsstring) (p : option prosody_argument) (s0 : http_session) (t0 : trace)
    (r : response) (rd : reader) (cb : callback) (acts1 acts2 : list action) :
  DeepgramTTSClient.toStream net c text p = (Normal s0, t0) ->
  http_task_of s0 = AwaitFetch (FetchResolves r) ->
  response_ok r = true ->
  body r = Some rd ->
  Spec.quiet_schedule (acts1 ++ On (lit "data") cb :: acts2) ->
  Extra.not_registered (cb_id cb) (acts1 ++ acts2) ->
  2 + Spec.reader_length rd <= Spec.ticks acts1 + Spec.ticks acts2 ->
  invocations (cb_id cb)
    (snd (DeepgramTTSClient.run (acts1 ++ On (lit "data") cb :: acts2) s0))
  = List.map (fun v => [v])
      (List.filter truthy
         (skipn (Nat.pred (Spec.ticks acts1)) (Extra.values_of rd))).
Proof.
  intros Hts Ht Hok Hb Hquiet Hreg Hn.
  destruct (http_toStream_pending _ _ _ _ _ _ _ Hts Ht) as (HL & _ & _).
  apply (http_fetch_data_registration cb acts2 acts1 r rd s0); try assumption.
  - rewrite HL. apply quiet_listeners_empty.
  - intros ev. rewrite HL. reflexivity.
Qed.

(** ** What a [data] listener of the universal client receives *)





(* ===================================================================== *)
(** ** The further properties on concrete inputs *)
(* ===================================================================== *)

(** The Deepgram settings give a Deepgram client. *)
Lemma createTTSClient_deepgram_witness :
  exists c,
    createTTSClient None Scenarios.deepgram_settings = Normal (DeepgramClient c)
    /\ DeepgramTTSClient.model c = getVoiceForSettings Scenarios.deepgram_settings
    /\ DeepgramTTSClient.model c <> []
    /\ Extra.trimmed (DeepgramTTSClient.model c)
    /\ DeepgramTTSClient.apiKey c
       = JsString.trim (JsString.or_else (deepgramApiKey Scenarios.deepgram_settings)
                          (lit ""))
    /\ DeepgramTTSClient.format c = DeepgramTTSClient.Mp3
    /\ DeepgramTTSClient.baseUrl c = lit "https://api.deepgram.com".
Proof.
  apply (createTTSClient_deepgram None Scenarios.deepgram_settings). reflexivity.
Defined.

(** The request of the example client. *)
Lemma toStream_request_witness :
  match DeepgramTTSClient.toStream Scenarios.serving_network Examples.deepgram
          (lit "hello") Examples.faster with
  | (Normal s0, t0) =>
      exists m rest,
        Encoding.encodeURIComponent (DeepgramTTSClient.model Examples.deepgram) = Some m
        /\ Forall Extra.url_safe m
        /\ (Forall (fun ch => Encoding.uri_unreserved ch = true)
              (DeepgramTTSClient.model Examples.deepgram) ->
            m = DeepgramTTSClient.model Examples.deepgram)
        /\ t0 = Fetch (DeepgramTTSClient.baseUrl Examples.deepgram
                       ++ lit "/v1/speak?model=" ++ m ++ lit "&encoding="
                       ++ DeepgramTTSClient.encoding_name
                            (DeepgramTTSClient.format Examples.deepgram))
                      (lit "Token " ++ DeepgramTTSClient.apiKey Examples.deepgram)
                      {| body_text := lit "hello";
                         body_speed := DeepgramTTSClient.speed_of Examples.faster |}
                :: rest
        /\ List.filter is_fetch rest = []
        /\ SimpleStreamAdapter.listeners (adapter s0) = ∅
  | (Throw _, _) => False
  end.
Proof.
  destruct (DeepgramTTSClient.toStream Scenarios.serving_network Examples.deepgram
              (lit "hello") Examples.faster) as [[s0|e] t0] eqn:E.
  - apply (toStream_request Scenarios.serving_network Examples.deepgram
             (lit "hello") Examples.faster s0 t0 E).
  - vm_compute in E. discriminate E.
Defined.

(** A served session makes one request. *)
Lemma http_session_single_request_witness :
  match DeepgramTTSClient.toStream Scenarios.serving_network Examples.deepgram
          (lit "hello") None with
  | (Normal s0, t0) =>
      let acts := On (lit "data") (Examples.thrower 0) :: repeat Tick 5 in
      length (List.filter is_fetch (t0 ++ snd (DeepgramTTSClient.run acts s0))) = 1
      /\ Forall Extra.http_session_effect (snd (DeepgramTTSClient.run acts s0))
  | (Throw _, _) => False
  end.
Proof.
  destruct (DeepgramTTSClient.toStream Scenarios.serving_network Examples.deepgram
              (lit "hello") None) as [[s0|e] t0] eqn:E.
  - apply (http_session_single_request Scenarios.serving_network Examples.deepgram
             (lit "hello") None s0 t0
             (On (lit "data") (Examples.thrower 0) :: repeat Tick 5) E).
  - vm_compute in E. discriminate E.
Defined.

Lemma quiet_schedule_registration (k n : nat) (event : jsstring) (cb : callback) :
  Spec.quiet cb -> Spec.quiet_schedule (repeat Tick k ++ On event cb :: repeat Tick n).
Proof.
  intros Hq ev cb' H. apply in_app_or in H as [H|[H|H]].
  - apply repeat_spec in H. discriminate H.
  - injection H as _ <-. exact Hq.
  - apply repeat_spec in H. discriminate H.
Defined.

(** The served body: two [data] events (the read without a value is
    skipped) and [end]. *)
Lemma http_success_events_witness :
  match DeepgramTTSClient.toStream Scenarios.serving_network Examples.deepgram
          (lit "hello") None with
  | (Normal s0, t0) =>
      emitted (t0 ++ snd (DeepgramTTSClient.run
                            (repeat Tick 0 ++ On (lit "data") (Examples.listener 0)
                               :: repeat Tick 5) s0))
      = List.map Spec.data_event
          (List.filter truthy (Extra.values_of Scenarios.audio_body))
        ++ match Extra.failure_of Scenarios.audio_body with
           | None => [Spec.end_event]
           | Some e => [Spec.error_event e; Spec.end_event]
           end
  | (Throw _, _) => False
  end.
Proof.
  destruct (DeepgramTTSClient.toStream Scenarios.serving_network Examples.deepgram
              (lit "hello") None) as [[s0|e] t0] eqn:E.
  - apply (http_success_events Scenarios.serving_network Examples.deepgram
             (lit "hello") None s0 t0 Scenarios.ok Scenarios.audio_body
             (repeat Tick 0 ++ On (lit "data") (Examples.listener 0) :: repeat Tick 5) E).
    + vm_compute in E. injection E as <- <-. reflexivity.
    + reflexivity.
    + reflexivity.
    + apply quiet_schedule_registration, listener_quiet.
    + vm_compute. lia.
  - vm_compute in E. discriminate E.
Defined.

(** The rejected request: [error] with the rejection value, then [end]. *)
Lemma http_request_failure_events_witness :
  match DeepgramTTSClient.toStream Scenarios.rejecting_network Examples.deepgram
          (lit "hello") None with
  | (Normal s0, t0) =>
      emitted (t0 ++ snd (DeepgramTTSClient.run
                            (repeat Tick 0 ++ On (lit "error") (Examples.listener 0)
                               :: repeat Tick 1) s0))
      = [Spec.error_event Scenarios.offline; Spec.end_event]
  | (Throw _, _) => False
  end.
Proof.
  destruct (DeepgramTTSClient.toStream Scenarios.rejecting_network Examples.deepgram
              (lit "hello") None) as [[s0|e] t0] eqn:E.
  - apply (http_request_failure_events Scenarios.rejecting_network Examples.deepgram
             (lit "hello") None s0 t0 (FetchRejects Scenarios.offline) Scenarios.offline
             (repeat Tick 0 ++ On (lit "error") (Examples.listener 0) :: repeat Tick 1) E).
    + vm_compute in E. injection E as <- <-. reflexivity.
    + left. reflexivity.
    + apply quiet_schedule_registration, listener_quiet.
    + vm_compute. lia.
  - vm_compute in E. discriminate E.
Defined.

(** The network whose [fetch] throws. *)
Lemma http_fetch_throws_witness :
  match DeepgramTTSClient.toStream Scenarios.throwing_network Examples.deepgram
          (lit "hello") None with
  | (Normal s0, t0) =>
      (exists url authorization b,
         t0 = [Fetch url authorization b;
               Console ErrorLevel (lit "Deepgram TTS streaming error:") [Scenarios.offline];
               Emit (lit "error") [Scenarios.offline]; Emit (lit "end") []])
      /\ forall acts,
           let s := fst (DeepgramTTSClient.run acts s0) in
           emitted (snd (DeepgramTTSClient.run acts s0)) = []
           /\ (forall cb, snd (DeepgramTTSClient.step (On (lit "error") cb) s) = [])
           /\ (forall cb, snd (DeepgramTTSClient.step (On (lit "end") cb) s)
                          = [Invoke (cb_id cb) []])
  | (Throw _, _) => False
  end.
Proof.
  destruct (DeepgramTTSClient.toStream Scenarios.throwing_network Examples.deepgram
              (lit "hello") None) as [[s0|e] t0] eqn:E.
  - apply (http_fetch_throws Scenarios.throwing_network Examples.deepgram
             (lit "hello") None s0 t0 Scenarios.offline).
    + intros url authorization b. reflexivity.
    + exact E.
  - vm_compute in E. discriminate E.
Defined.


(** A word boundary is dropped. *)
Lemma generator_drops_other_chunks_witness :
  UniversalTTSClient.step Examples.node Tick
    (Scenarios.awaiting (Yield Scenarios.boundary_chunk Return))
  = ({| listeners := listeners (Scenarios.awaiting (Yield Scenarios.boundary_chunk Return));
        isConsuming := true;
        asyncGenerator := Return; consuming := AwaitNext |},
     [Pull]).
Proof.
  apply (generator_drops_other_chunks Examples.node
           (Scenarios.awaiting (Yield Scenarios.boundary_chunk Return))
           Scenarios.boundary_chunk Return).
  - reflexivity.
  - reflexivity.
  - right. reflexivity.
Defined.

Lemma awaiting_quiet (g : generator) :
  Forall Spec.quiet (listeners_of (lit "data") (listeners (Scenarios.awaiting g))).
Proof.
  unfold Scenarios.awaiting. cbn [listeners]. unfold listeners_of.
  rewrite add_listener_lookup. cbn [default]. apply Forall_app. split.
  - unfold listeners_of. rewrite lookup_empty. constructor.
  - constructor; [apply listener_quiet|constructor].
Defined.


(** In the browser an object payload gives an empty array and no warning. *)
Lemma generator_polyfill_silent_witness :
  UniversalTTSClient.step Examples.browser Tick
    (Scenarios.awaiting (Yield Scenarios.object_chunk Return))
  = ({| listeners := listeners (Scenarios.awaiting (Yield Scenarios.object_chunk Return));
        isConsuming := true;
        asyncGenerator := Return; consuming := AwaitNext |},
     Emit (lit "data") [JUint8Array []]
       :: List.map (fun cb => Invoke (cb_id cb) [JUint8Array []])
            (listeners_of (lit "data")
               (listeners (Scenarios.awaiting (Yield Scenarios.object_chunk Return))))
       ++ [Pull]).
Proof.
  apply (generator_polyfill_silent Examples.browser
           (Scenarios.awaiting (Yield Scenarios.object_chunk Return))
           Scenarios.object_chunk Return).
  - reflexivity.
  - reflexivity.
  - reflexivity.
  - reflexivity.
  - reflexivity.
  - left. exists 0. reflexivity.
  - apply awaiting_quiet.
Defined.

(** The provider whose [stream()] throws is constructed once. *)
Lemma generator_stream_failure_not_retried_witness :
  UniversalTTSClient.toStream Examples.node
    (Examples.universal Scenarios.broken_provider) (lit "hello") Examples.faster
  = (Throw (JError (lit "Failed to create TTS stream: " ++ lit "Failed to fetch")),
     [Construct (lit "hello")
        (UniversalTTSClient.communicateOptions Examples.node
           (Examples.universal Scenarios.broken_provider) Examples.faster);
      Stream;
      Console ErrorLevel (lit "Error creating TTS stream:") [Scenarios.offline]]).
Proof.
  apply (generator_stream_failure_not_retried Examples.node
           (Examples.universal Scenarios.broken_provider) Scenarios.broken_provider
           (lit "hello") Examples.faster Scenarios.offline).
  - reflexivity.
  - reflexivity.
Defined.

(** Two [data] listeners and an [end] listener: a [data] emission calls the
    two, in the order of their registration. *)
Lemma SimpleStreamAdapter_registration_order_witness :
  snd (Extra.on_all Scenarios.registrations SimpleStreamAdapter.new) = []
  /\ snd (SimpleStreamAdapter.emit (lit "data") [JUint8Array [x01]]
            (fst (Extra.on_all Scenarios.registrations SimpleStreamAdapter.new)))
     = Emit (lit "data") [JUint8Array [x01]]
         :: List.map (fun cb => Invoke (cb_id cb) [JUint8Array [x01]])
              (Extra.registered_for (lit "data") Scenarios.registrations)
  /\ fst (fst (SimpleStreamAdapter.emit (lit "data") [JUint8Array [x01]]
                 (fst (Extra.on_all Scenarios.registrations SimpleStreamAdapter.new))))
     = Normal tt.
Proof.
  apply (SimpleStreamAdapter_registration_order Scenarios.registrations
           (lit "data") [JUint8Array [x01]]).
  repeat constructor; apply listener_quiet.
Defined.

(** The second of three [end] listeners throws. *)
Lemma SimpleStreamAdapter_emit_throwing_listener_witness :
  let '(r, a', t) := SimpleStreamAdapter.emit (lit "end") [] Scenarios.crowded in
  r = Throw (JError (lit "listener failed"))
  /\ t = Emit (lit "end") []
         :: List.map (fun cb => Invoke (cb_id cb) []) [Examples.listener 0]
            ++ [Invoke (cb_id (Examples.thrower 1)) []]
  /\ SimpleStreamAdapter.listeners a' = SimpleStreamAdapter.listeners Scenarios.crowded
  /\ (lit "end" = lit "end" ->
      SimpleStreamAdapter.hasEnded a' = true
      /\ forall late, snd (SimpleStreamAdapter.on (lit "end") late a')
                      = [Invoke (cb_id late) []]).
Proof.
  apply (SimpleStreamAdapter_emit_throwing_listener Scenarios.crowded (lit "end") []
           [Examples.listener 0] [Examples.listener 2] (Examples.thrower 1)
           (JError (lit "listener failed"))).
  - vm_compute. reflexivity.
  - constructor; [apply listener_quiet|constructor].
  - reflexivity.
Defined.

(** The strict provider is constructed twice, the second time with the
    voice only. *)
Lemma universal_toStream_constructions_witness :
  let c := Examples.universal Examples.strict_provider in
  let t := snd (UniversalTTSClient.toStream Examples.node c (lit "hello") Examples.faster) in
  constructions t
  = match Examples.strict_provider (lit "hello")
            (UniversalTTSClient.communicateOptions Examples.node c Examples.faster) with
    | CtorReturns _ =>
        [(lit "hello", UniversalTTSClient.communicateOptions Examples.node c Examples.faster)]
    | CtorThrows _ =>
        [(lit "hello", UniversalTTSClient.communicateOptions Examples.node c Examples.faster);
         (lit "hello", UniversalTTSClient.minimalOptions c)]
    end
  /\ Forall (fun call => fst call = lit "hello"
                         /\ opt_voice (snd call) = UniversalTTSClient.currentVoice c
                         /\ opt_pitch (snd call) = None
                         /\ opt_volume (snd call) = None)
       (constructions t)
  /\ opt_rate (UniversalTTSClient.minimalOptions c) = None
  /\ (forall r,
        opt_rate (UniversalTTSClient.communicateOptions Examples.node c Examples.faster)
        = Some r ->
        r <> [] /\ exists x, option_map arg_rate Examples.faster = Some (JNumber x)).
Proof.
  apply (universal_toStream_constructions Examples.node
           (Examples.universal Examples.strict_provider) Examples.strict_provider
           (lit "hello") Examples.faster).
  reflexivity.
Defined.


Lemma quiet_schedule_Forall (acts : list action) :
  Forall (fun a => match a with On _ cb => Spec.quiet cb | Tick => True end) acts ->
  Spec.quiet_schedule acts.
Proof.
  intros H ev cb Hin. rewrite List.Forall_forall in H. apply (H _ Hin).
Defined.

Lemma not_registered_Forall (id : nat) (acts : list action) :
  Forall (fun a => match a with On _ cb => cb_id cb <> id | Tick => True end) acts ->
  Extra.not_registered id acts.
Proof.
  intros H ev cb Hin. rewrite List.Forall_forall in H. apply (H _ Hin).
Defined.


(** A [data] listener registered after the third resumption, among other
    listeners, has missed the first two reads and receives the last value
    only. *)
Lemma http_data_listener_receives_witness :
  match DeepgramTTSClient.toStream Scenarios.serving_network Examples.deepgram
          (lit "hello") None with
  | (Normal s0, t0) =>
      invocations (cb_id (Examples.listener 7))
        (snd (DeepgramTTSClient.run
                ([On (lit "data") (Examples.listener 1); Tick; Tick; Tick]
                 ++ On (lit "data") (Examples.listener 7)
                 :: [On (lit "end") (Examples.listener 2); Tick; Tick; Tick; Tick])
                s0))
      = List.map (fun v => [v])
          (List.filter truthy
             (skipn (Nat.pred (Spec.ticks [On (lit "data") (Examples.listener 1);
                                           Tick; Tick; Tick]))
                (Extra.values_of Scenarios.audio_body)))
  | (Throw _, _) => False
  end.
Proof.
  destruct (DeepgramTTSClient.toStream Scenarios.serving_network Examples.deepgram
              (lit "hello") None) as [[s0|e] t0] eqn:E.
  - apply (http_data_listener_receives Scenarios.serving_network Examples.deepgram
             (lit "hello") None s0 t0 Scenarios.ok Scenarios.audio_body
             (Examples.listener 7)
             [On (lit "data") (Examples.listener 1); Tick; Tick; Tick]
             [On (lit "end") (Examples.listener 2); Tick; Tick; Tick; Tick] E).
    + vm_compute in E. injection E as <- <-. reflexivity.
    + reflexivity.
    + reflexivity.
    + apply quiet_schedule_Forall.
      repeat constructor; apply listener_quiet.
    + apply not_registered_Forall.
      repeat constructor; discriminate.
    + vm_compute. lia.
  - vm_compute in E. discriminate E.
Defined.


(** An [end] listener registered after the 404 session has ended, among
    other listeners, is called once. *)
Lemma http_end_listener_called_once_witness :
  match DeepgramTTSClient.toStream Examples.failing_network Examples.deepgram
          (lit "hello") None with
  | (Normal s0, t0) =>
      invocations (cb_id (Examples.listener 7))
        (snd (DeepgramTTSClient.run
                ([On (lit "error") (Examples.listener 1); Tick; Tick]
                 ++ On (lit "end") (Examples.listener 7)
                 :: [On (lit "end") (Examples.listener 2); Tick])
                s0))
      = [[]]
  | (Throw _, _) => False
  end.
Proof.
  destruct (DeepgramTTSClient.toStream Examples.failing_network Examples.deepgram
              (lit "hello") None) as [[s0|e] t0] eqn:E.
  - apply (http_end_listener_called_once Examples.failing_network Examples.deepgram
             (lit "hello") None s0 t0 (FetchResolves Examples.not_found)
             (Examples.listener 7)
             [On (lit "error") (Examples.listener 1); Tick; Tick]
             [On (lit "end") (Examples.listener 2); Tick] E).
    + vm_compute in E. injection E as <- <-. reflexivity.
    + apply quiet_schedule_Forall.
      repeat constructor; apply listener_quiet.
    + apply not_registered_Forall.
      repeat constructor; discriminate.
    + vm_compute. lia.
  - vm_compute in E. discriminate E.
Defined.
